(** * Literary database API: rating aggregation and list queries

    A shallow embedding of the review model (models/Review.js), the Book,
    Author and Publisher schemas, the Joi validators (utils/validators.js),
    the four controllers and the token middleware (config/auth.js), over an
    explicit document store.

    Conventions of the embedding.
    - A document, a request body and a query string are finite maps from
      field names to values ([gmap string value], [gmap string string]).
    - A collection is the list of its documents in insertion order.
    - A string is UTF-8 text; its length, where the code takes it, is
      counted in UTF-16 code units as JavaScript does ([js_length]), and
      white space is what JavaScript trims; the change of case of a string
      acts on the letters of the ASCII range.
    - JavaScript numbers are exact rationals ([Q], kept reduced) and exact
      integers ([Z]). They agree with the doubles of the code as long as no
      rounding occurs: a statement that reports a page number or a number
      of pages keeps to requests and result sets whose integers are at most
      [2 ^ 26] ([js_exact], [exact_query]), and the rounding of the one
      division made by [$avg] is not represented.
    - Dates are milliseconds ([Z]). An ObjectId is held as its 24 hex
      digits in lower case, the spelling under which the driver prints it;
      a string that names an id is converted to that spelling when it is
      cast ([castObjectId]).
    - The regular-expression engine, the text index, the clock, the id the
      driver gives to the next inserted document and the failures of the
      storage backend are read from an environment record [env].
    - [console.error] appends to the [errlog] field of the store.
    - [populate] and [select] only shape the payload of a response; the
      payload here carries the stored documents.

    What the embedding takes from Mongoose.
    - Schemas are strict: a key that the schema does not declare is dropped
      from a new document and from an update.
    - The [save] and [remove] hooks of a schema are document middleware.
      They run on [Model.create], [doc.save] and [doc.remove];
      [findByIdAndUpdate] and [findByIdAndDelete] are query operations and
      run none of them.
    - A schema with [timestamps: true] stamps [createdAt] and [updatedAt]
      on creation and sets [updatedAt] in every update.
    - A string is cast to an ObjectId when it is 24 hex digits in either
      case, or 12 characters of one byte each, which are taken as the 12
      bytes of the id; [mongoose.Types.ObjectId(x)] converts the same
      strings.
    - [Model.create] stores the version key [__v] with value 0. *)

From Stdlib Require Import ZArith QArith List Ascii String Sorting.Sorted Sorting.Permutation Lia.
From stdpp Require Import base option gmap strings list.

Local Open Scope string_scope.
Local Open Scope Z_scope.

(** ** Values *)

Inductive value :=
| VNull
| VBool (b : bool)
| VNum (q : Q)
| VStr (s : string)
| VId (oid : string)
| VDate (t : Z)
| VStrs (l : list string)
| VNaN.

Abbreviation doc := (gmap string value).

#[global] Instance Q_eq_dec : EqDecision Q.
Proof. solve_decision. Defined.

#[global] Instance value_eq_dec : EqDecision value.
Proof. solve_decision. Defined.

Definition num (z : Z) : value := VNum (inject_Z z).

(** ** Strings as JavaScript sees them *)

Definition is_digit (c : ascii) : bool :=
  let n := nat_of_ascii c in ((48 <=? n) && (n <=? 57))%nat.

Definition is_hex (c : ascii) : bool :=
  let n := nat_of_ascii c in
  (((48 <=? n) && (n <=? 57)) || ((65 <=? n) && (n <=? 70)) || ((97 <=? n) && (n <=? 102)))%nat.

(** White space of the ASCII range: TAB, LF, VT, FF, CR and SPACE. *)
Definition is_space (c : ascii) : bool :=
  let n := nat_of_ascii c in (((9 <=? n) && (n <=? 13)) || (n =? 32))%nat.

Fixpoint chars (s : string) : list ascii :=
  match s with
  | EmptyString => []
  | String c r => c :: chars r
  end.

Fixpoint unchars (l : list ascii) : string :=
  match l with
  | [] => EmptyString
  | c :: r => String c (unchars r)
  end.

(** White space beyond the ASCII range, by the bytes of its encoding:
    U+00A0 in two bytes; U+1680, U+2000 to U+200A, U+2028, U+2029, U+202F,
    U+205F, U+3000 and U+FEFF in three. *)
Definition is_space2 (a b : ascii) : bool :=
  ((nat_of_ascii a =? 194) && (nat_of_ascii b =? 160))%nat.

Definition is_space3 (a b c : ascii) : bool :=
  let x := nat_of_ascii a in
  let y := nat_of_ascii b in
  let z := nat_of_ascii c in
  (((x =? 225) && (y =? 154) && (z =? 128))
   || ((x =? 226) && (y =? 128)
       && (((128 <=? z) && (z <=? 138)) || (z =? 168) || (z =? 169) || (z =? 175)))
   || ((x =? 226) && (y =? 129) && (z =? 159))
   || ((x =? 227) && (y =? 128) && (z =? 128))
   || ((x =? 239) && (y =? 187) && (z =? 191)))%nat.

(** The list without the white space at its head; with [back] the list is
    a reversed string, whose characters come last byte first. *)
Fixpoint drop_spaces (back : bool) (l : list ascii) : list ascii :=
  match l with
  | c :: r =>
      if is_space c then drop_spaces back r
      else
        match r with
        | c2 :: r2 =>
            if (if back then is_space2 c2 c else is_space2 c c2) then drop_spaces back r2
            else
              match r2 with
              | c3 :: r3 =>
                  if (if back then is_space3 c3 c2 c else is_space3 c c2 c3)
                  then drop_spaces back r3
                  else l
              | [] => l
              end
        | [] => l
        end
  | [] => []
  end.

(** [String.prototype.trim]. *)
Definition trim (s : string) : string :=
  unchars (rev (drop_spaces true (rev (drop_spaces false (chars s))))).

(** The pattern [/^[0-9a-fA-F]{24}$/] of the validators. *)
Definition isObjectIdString (s : string) : bool :=
  (String.length s =? 24)%nat && forallb is_hex (chars s).

(** The UTF-16 code units that the character starting with a byte of UTF-8
    takes: one for a character of one, two or three bytes, two for a
    character of four bytes; a continuation byte starts no character. *)
Definition units (c : ascii) : nat :=
  let n := nat_of_ascii c in
  if (n <? 128)%nat then 1%nat
  else if (n <? 192)%nat then 0%nat
  else if (n <? 240)%nat then 1%nat
  else 2%nat.

(** [s.length]. *)
Definition js_length (s : string) : nat :=
  fold_right (fun c n => (units c + n)%nat) 0%nat (chars s).

(** The value of a character as a digit of the given radix. *)
Definition digit_of (radix : Z) (c : ascii) : option Z :=
  let n := Z.of_nat (nat_of_ascii c) in
  let d := if (48 <=? n) && (n <=? 57) then Some (n - 48)
           else if (97 <=? n) && (n <=? 122) then Some (n - 87)
           else if (65 <=? n) && (n <=? 90) then Some (n - 55)
           else None in
  match d with
  | Some v => if v <? radix then Some v else None
  | None => None
  end.

(** The longest run of digits at the head of a list; [None] if it is empty. *)
Fixpoint digits_value (radix acc : Z) (seen : bool) (l : list ascii) : option Z :=
  match l with
  | c :: r =>
      match digit_of radix c with
      | Some d => digits_value radix (radix * acc + d) true r
      | None => if seen then Some acc else None
      end
  | [] => if seen then Some acc else None
  end.

(** [parseInt(s, 10)] and [parseInt(s)]: leading white space, an optional
    sign, with no radix given an optional [0x] that selects base sixteen,
    then the longest run of digits. [None] stands for [NaN], which is also
    the result on [undefined]. *)
Definition parseInt (o : option string) (radix : option Z) : option Z :=
  match o with
  | None => None
  | Some s =>
      let l := drop_spaces false (chars s) in
      let '(neg, l) := match l with
                       | "-"%char :: r => (true, r)
                       | "+"%char :: r => (false, r)
                       | _ => (false, l)
                       end in
      let n := match radix, l with
               | None, "0"%char :: "x"%char :: r => digits_value 16 0 false r
               | None, "0"%char :: "X"%char :: r => digits_value 16 0 false r
               | None, _ => digits_value 10 0 false l
               | Some b, _ => digits_value b 0 false l
               end in
      (fun z => if neg then - z else z) <$> n
  end.

(** [parseInt(..) || d]: [NaN] and [0] are falsy. *)
Definition or_default (o : option Z) (d : Z) : Z :=
  match o with
  | Some 0 => d
  | Some n => n
  | None => d
  end.

(** [Math.ceil(a / b)] for integers [a] and [b <> 0]. *)
Definition ceil_div (a b : Z) : Z := - ((- a) / b).

(** [req.query.k] used as a condition: absent and empty are both falsy. *)
Definition param (q : gmap string string) (k : string) : option string :=
  match q !! k with
  | Some "" => None
  | o => o
  end.

(** ** The environment of a request *)

(** Operations of a Mongoose model that reach the storage backend. *)
Inductive op :=
| OpCount | OpFind | OpFindById | OpCreate | OpUpdate | OpDelete | OpAggregate.

#[global] Instance op_eq_dec : EqDecision op.
Proof. solve_decision. Defined.

Record env := {
  readyState : Z;                              (* mongoose.connection.readyState *)
  now : Z;                                     (* Date.now(), new Date() *)
  currentYear : Z;                             (* new Date().getFullYear() *)
  newObjectId : string;                        (* _id of the next inserted document *)
  regexp_valid : string -> bool;               (* new RegExp(s, 'i') does not throw *)
  regexp_test : string -> string -> bool;      (* pattern.test(subject) *)
  text_search : string -> list string -> bool; (* $text: { $search } on the indexed fields *)
  fault : string -> op -> bool                 (* the backend rejects this call of this model *)
}.

(** What a handler can catch. *)
Inductive exn :=
| CastError
| ValidationError (messages : list string)
| DuplicateKey            (* error.code === 11000 *)
| SyntaxError             (* new RegExp on a malformed pattern *)
| BSONError               (* ObjectId() on something that is no id *)
| StorageError.           (* any other rejection of the backend *)

Definition res (A : Type) : Type := exn + A.

Definition bindE {A B} (m : res A) (k : A -> res B) : res B :=
  match m with
  | inl x => inl x
  | inr a => k a
  end.

Notation "'let!' x ':=' m 'in' k" := (bindE m (fun x => k))
  (at level 10, x pattern, m at level 100, k at level 200).

(** ** Mongoose schemas *)

Inductive ptype := TString | TNumber | TDate | TObjectId | TStrings | TSubdocs.

Inductive rule :=
| Required (msg : string)
| Default (v : value)
| DefaultNow
| Min (n : Z) (msg : string)
| Max (n : Z) (msg : string)
| MaxLength (n : nat) (msg : string)
| Enum (vals : list string)
| Match (pattern msg : string)
| Trim
| Lowercase
| Uppercase.

Record path := { pname : string; ptyp : ptype; prules : list rule }.

Record schema := { paths : list path; timestamps : bool }.

Definition P (name : string) (t : ptype) (rules : list rule) : path :=
  {| pname := name; ptyp := t; prules := rules |}.

Definition genres20 : list string :=
  ["Fiction"; "Non-Fiction"; "Mystery"; "Romance"; "Science Fiction";
   "Fantasy"; "Biography"; "History"; "Self-Help"; "Poetry";
   "Drama"; "Thriller"; "Horror"; "Children"; "Young Adult";
   "Philosophy"; "Science"; "Technology"; "Academic"; "Other"].

Definition genres19 : list string :=
  ["Fiction"; "Non-Fiction"; "Mystery"; "Romance"; "Science Fiction";
   "Fantasy"; "Biography"; "History"; "Self-Help"; "Poetry";
   "Drama"; "Thriller"; "Horror"; "Children"; "Young Adult";
   "Philosophy"; "Science"; "Technology"; "Other"].

Definition languages7 : list string :=
  ["English"; "Spanish"; "French"; "German"; "Italian"; "Portuguese"; "Other"].

Definition url_pattern : string := "^https?:\/\/.+".
Definition email_pattern : string := "^\w+([.-]?\w+)*@\w+([.-]?\w+)*(\.\w{2,3})+$".

(** models/Review.js, [reviewSchema]. *)
Definition reviewSchema : schema := {|
  paths := [
    P "title" TString [Required "Review title is required"; Trim;
                       MaxLength 200 "Title cannot exceed 200 characters"];
    P "content" TString [Required "Review content is required";
                         MaxLength 5000 "Content cannot exceed 5000 characters"];
    P "rating" TNumber [Required "Rating is required";
                        Min 1 "Rating must be at least 1";
                        Max 5 "Rating cannot exceed 5"];
    P "book" TObjectId [];
    P "author" TObjectId [];
    P "reviewer" TObjectId [Required "Reviewer is required"];
    P "helpful" TNumber [Default (num 0); Min 0 "Helpful count cannot be negative"];
    P "status" TString [Enum ["Published"; "Pending"; "Hidden"; "Flagged"];
                        Default (VStr "Published")];
    P "moderatedBy" TObjectId [];
    P "moderatedAt" TDate [];
    P "moderationReason" TString [Trim;
                                  MaxLength 500 "Moderation reason cannot exceed 500 characters"];
    P "createdAt" TDate [DefaultNow];
    P "updatedAt" TDate [DefaultNow] ];
  timestamps := false |}.

(** models/Book.js, [bookSchema]. *)
Definition bookSchema : schema := {|
  paths := [
    P "title" TString [Required "Book title is required"; Trim;
                       MaxLength 200 "Title cannot exceed 200 characters"];
    P "isbn" TString [Trim; Uppercase];
    P "description" TString [MaxLength 2000 "Description cannot exceed 2000 characters"];
    P "author" TObjectId [Required "Author is required"];
    P "publisher" TObjectId [];
    P "publicationDate" TDate [Required "Publication date is required"];
    P "genre" TStrings [Enum genres19];
    P "language" TString [Default (VStr "English"); Enum languages7];
    P "pages" TNumber [Min 1 "Pages must be at least 1"];
    P "format" TString [Enum ["Hardcover"; "Paperback"; "E-book"; "Audiobook"];
                        Default (VStr "Paperback")];
    P "price" TNumber [Min 0 "Price cannot be negative"];
    P "coverImage" TString [Trim];
    P "tags" TStrings [Trim];
    P "averageRating" TNumber [Default (num 0); Min 0 "Rating cannot be negative";
                               Max 5 "Rating cannot exceed 5"];
    P "ratingCount" TNumber [Default (num 0); Min 0 "Rating count cannot be negative"];
    P "status" TString [Enum ["Published"; "Upcoming"; "Out of Print"; "Cancelled"];
                        Default (VStr "Published")];
    P "createdBy" TObjectId [] ];
  timestamps := true |}.

Definition socialMedia_paths : list path :=
  [ P "socialMedia.twitter" TString [Trim; Lowercase];
    P "socialMedia.facebook" TString [Trim; Lowercase];
    P "socialMedia.instagram" TString [Trim; Lowercase];
    P "socialMedia.linkedin" TString [Trim; Lowercase] ].

(** models/Author.js, [authorSchema]. The award subdocuments have no
    counterpart among the values of the embedding; their path is declared. *)
Definition authorSchema : schema := {|
  paths := [
    P "firstName" TString [Required "First name is required"; Trim;
                           MaxLength 50 "First name cannot exceed 50 characters"];
    P "lastName" TString [Required "Last name is required"; Trim;
                          MaxLength 50 "Last name cannot exceed 50 characters"];
    P "penName" TString [Trim; MaxLength 100 "Pen name cannot exceed 100 characters"];
    P "bio" TString [MaxLength 2000 "Bio cannot exceed 2000 characters"];
    P "birthDate" TDate [];
    P "deathDate" TDate [];
    P "nationality" TString [Trim; MaxLength 50 "Nationality cannot exceed 50 characters"];
    P "website" TString [Trim; Lowercase; Match url_pattern "Please provide a valid website URL"];
    P "email" TString [Trim; Lowercase; Match email_pattern "Please provide a valid email"];
    P "phone" TString [Trim];
    P "profileImage" TString [Trim];
    P "genres" TStrings [Enum genres20];
    P "languages" TStrings [Enum languages7];
    P "awards" TSubdocs [] ] ++ socialMedia_paths ++ [
    P "booksPublished" TNumber [Default (num 0);
                                Min 0 "Books published count cannot be negative"];
    P "status" TString [Enum ["Active"; "Inactive"; "Deceased"; "Retired"];
                        Default (VStr "Active")];
    P "createdBy" TObjectId [] ];
  timestamps := true |}.

(** models/Publisher.js, [publisherSchema]; the upper bound of
    [foundedYear] is the year in which the schema is built. *)
Definition publisherSchema (year : Z) : schema := {|
  paths := [
    P "name" TString [Required "Publisher name is required"; Trim;
                      MaxLength 100 "Name cannot exceed 100 characters"];
    P "description" TString [MaxLength 1000 "Description cannot exceed 1000 characters"];
    P "foundedYear" TNumber [Min 1400 "Founded year must be after 1400";
                             Max year "Founded year cannot be in the future"];
    P "headquarters.city" TString [Trim; MaxLength 50 "City name cannot exceed 50 characters"];
    P "headquarters.country" TString [Trim;
                                      MaxLength 50 "Country name cannot exceed 50 characters"];
    P "website" TString [Trim; Lowercase; Match url_pattern "Please provide a valid website URL"];
    P "email" TString [Trim; Lowercase; Match email_pattern "Please provide a valid email"];
    P "phone" TString [Trim];
    P "logo" TString [Trim];
    P "genres" TStrings [Enum genres20];
    P "imprint" TSubdocs [];
    P "status" TString [Enum ["Active"; "Inactive"; "Acquired"; "Defunct"];
                        Default (VStr "Active")] ] ++ socialMedia_paths ++ [
    P "booksPublished" TNumber [Default (num 0);
                                Min 0 "Books published count cannot be negative"];
    P "createdBy" TObjectId [] ];
  timestamps := true |}.

(** *** Casting, setters and defaults *)

Definition to_lower (c : ascii) : ascii :=
  let n := nat_of_ascii c in
  if ((65 <=? n) && (n <=? 90))%nat then ascii_of_nat (n + 32) else c.

Definition to_upper (c : ascii) : ascii :=
  let n := nat_of_ascii c in
  if ((97 <=? n) && (n <=? 122))%nat then ascii_of_nat (n - 32) else c.

Definition lowercase (s : string) : string := unchars (map to_lower (chars s)).
Definition uppercase (s : string) : string := unchars (map to_upper (chars s)).

Definition is_byte_char (c : ascii) : bool := (nat_of_ascii c <? 128)%nat.

Definition hex_digit (n : nat) : ascii :=
  ascii_of_nat (if (n <? 10)%nat then 48 + n else 87 + n).

(** [buffer.toString('hex')]. *)
Definition hex_of (s : string) : string :=
  unchars (flat_map (fun c => let n := nat_of_ascii c in
                              [hex_digit (n / 16); hex_digit (n mod 16)]) (chars s)).

(** The ObjectId a string is cast to, as its lower-case hex digits: 24 hex
    digits name the id in either case; 12 characters that are 12 bytes are
    the bytes of the id; no other string is an id. *)
Definition castObjectId (s : string) : option string :=
  if isObjectIdString s then Some (lowercase s)
  else if (String.length s =? 12)%nat && forallb is_byte_char (chars s) then Some (hex_of s)
  else None.

(** The value of a path after casting to its declared type. Covered are
    the values that already have the type, a string that names an id
    and one string given for an array of strings; the further conversions
    of Mongoose (numeric strings, date strings) have no counterpart among
    the values of the embedding and count as a failed cast. *)
Definition cast (t : ptype) (v : value) : option value :=
  match t, v with
  | _, VNull => Some VNull
  | _, VNaN => None
  | TString, VStr _ => Some v
  | TNumber, VNum _ => Some v
  | TDate, VDate _ => Some v
  | TObjectId, VId _ => Some v
  | TObjectId, VStr s => VId <$> castObjectId s
  | TStrings, VStrs _ => Some v
  | TStrings, VStr s => Some (VStrs [s])
  | _, _ => None
  end.

Definition set_rule (r : rule) (s : string) : string :=
  match r with
  | Trim => trim s
  | Lowercase => lowercase s
  | Uppercase => uppercase s
  | _ => s
  end.

Definition apply_setters (rules : list rule) (v : value) : value :=
  let f s := fold_left (fun acc r => set_rule r acc) rules s in
  match v with
  | VStr s => VStr (f s)
  | VStrs l => VStrs (map f l)
  | _ => v
  end.

Fixpoint default_of (e : env) (rules : list rule) : option value :=
  match rules with
  | Default v :: _ => Some v
  | DefaultNow :: _ => Some (VDate (now e))
  | _ :: r => default_of e r
  | [] => None
  end.

Definition type_name (t : ptype) : string :=
  match t with
  | TString => "string" | TNumber => "Number" | TDate => "date"
  | TObjectId => "ObjectId" | TStrings => "Array" | TSubdocs => "Array"
  end.

(** The message of a failed cast, without the rendering of the value. *)
Definition cast_message (p : path) : string :=
  "Cast to " +:+ type_name (ptyp p) +:+ " failed at path " +:+ pname p.

Definition enum_message (p : path) (s : string) : string :=
  "`" +:+ s +:+ "` is not a valid enum value for path `" +:+ pname p +:+ "`.".

(** The paths a schema declares, with the two that [timestamps: true] adds. *)
Definition schema_paths (S : schema) : list path :=
  (paths S ++ (if timestamps S then [P "createdAt" TDate []; P "updatedAt" TDate []] else []))%list.

Definition declares (S : schema) (name : string) : bool :=
  bool_decide (name ∈ map pname (schema_paths S)).

(** [new Model(body)]: declared paths are cast and run through their
    setters, undeclared keys are dropped (strict mode), absent paths take
    their default; an array of strings defaults to the empty array. A path
    whose value does not cast is left unset and recorded with its message. *)
Definition build_path (e : env) (body : doc) (acc : doc * list (string * string)) (p : path)
  : doc * list (string * string) :=
  match body !! pname p with
  | Some v =>
      match cast (ptyp p) v with
      | Some w => (<[pname p := apply_setters (prules p) w]> (fst acc), snd acc)
      | None => (fst acc, (snd acc ++ [(pname p, cast_message p)])%list)
      end
  | None =>
      match default_of e (prules p), ptyp p with
      | Some w, _ => (<[pname p := w]> (fst acc), snd acc)
      | None, TStrings => (<[pname p := VStrs []]> (fst acc), snd acc)
      | None, _ => acc
      end
  end.

Definition new_document (e : env) (S : schema) (body : doc) : doc * list (string * string) :=
  fold_left (build_path e body) (schema_paths S) (∅, []).

(** *** Validators *)

Definition Qltb (a b : Q) : bool := negb (Qle_bool b a).

Definition is_empty (v : option value) : bool :=
  match v with
  | None | Some VNull | Some (VStr "") => true
  | _ => false
  end.

Definition check_rule (e : env) (p : path) (v : option value) (r : rule) : list string :=
  match r, v with
  | Required msg, _ => if is_empty v then [msg] else []
  | Min n msg, Some (VNum q) => if Qltb q (inject_Z n) then [msg] else []
  | Max n msg, Some (VNum q) => if Qltb (inject_Z n) q then [msg] else []
  | MaxLength n msg, Some (VStr s) => if (n <? js_length s)%nat then [msg] else []
  | Enum vals, Some (VStr s) => if bool_decide (s ∈ vals) then [] else [enum_message p s]
  | Enum vals, Some (VStrs l) =>
      map (enum_message p) (filter (fun s => s ∉ vals) l)
  | Match pat msg, Some (VStr s) =>
      if bool_decide (s = "") || regexp_test e pat s then [] else [msg]
  | _, _ => []
  end.

(** The validators of a path run in order and the first failure is the
    error of the path. *)
Definition check_path (e : env) (d : doc) (p : path) : list string :=
  take 1 (flat_map (check_rule e p (d !! pname p)) (prules p)).

(** [doc.validate()], run by [save]: the paths that failed to cast keep
    their cast error and are not validated again. *)
Definition validate (e : env) (S : schema) (failed : list string) (d : doc) : list string :=
  flat_map (fun p => if bool_decide (pname p ∈ failed) then [] else check_path e d p)
    (schema_paths S).

(** The validators of an update ([runValidators: true]) look only at the
    paths the update sets. *)
Definition validate_update (e : env) (S : schema) (upd : doc) : list string :=
  flat_map (fun p => match upd !! pname p with
                     | Some _ => check_path e upd p
                     | None => []
                     end) (schema_paths S).

(** Casting of an update document: strict mode keeps the declared paths
    only; a value that does not cast raises [CastError]. *)
Definition cast_update_path (upd : doc) (acc : res doc) (p : path) : res doc :=
  let! d := acc in
  match upd !! pname p with
  | None => inr d
  | Some v =>
      match cast (ptyp p) v with
      | Some w => inr (<[pname p := apply_setters (prules p) w]> d)
      | None => inl CastError
      end
  end.

Definition cast_update (S : schema) (upd : doc) : res doc :=
  fold_left (cast_update_path upd) (schema_paths S) (inr ∅).

(** ** The store *)

Record store := {
  reviews : list doc;
  books : list doc;
  authors : list doc;
  publishers : list doc;
  errlog : list string       (* what console.error printed *)
}.

(** A unique index over [ikeys], restricted to the documents in which the
    field [ifilter] exists (a sparse index, or a partial index on
    [$exists: true]). *)
Record uindex := { ikeys : list string; ifilter : string }.

Record model := {
  mname : string;
  mschema : env -> schema;
  mtext : list string;                       (* fields of the text index *)
  munique : list uindex;
  mget : store -> list doc;
  mset : list doc -> store -> store;
  preSave : env -> doc -> doc -> doc;        (* body, document *)
  postSave : env -> doc -> store -> store
}.

(** ** Queries *)

Inductive cond :=
| CEq (v : value)
| CNe (v : value)
| CGte (v : value)
| CRegex (pattern : string).

Inductive clause :=
| CField (name : string) (c : cond)
| COr (alts : list (string * cond))
| CText (search : string).

Definition mquery := list clause.

Definition path_type (S : schema) (name : string) : option ptype :=
  ptyp <$> List.find (fun p => bool_decide (pname p = name)) (schema_paths S).

(** A value compared with a path is cast to the type of the path (to the
    type of the elements for an array). *)
Definition cast_operand (S : schema) (name : string) (v : value) : res value :=
  match path_type S name with
  | None => inr v
  | Some t =>
      match cast (match t with TStrings => TString | _ => t end) v with
      | Some w => inr w
      | None => inl CastError
      end
  end.

Definition cast_cond (S : schema) (name : string) (c : cond) : res cond :=
  match c with
  | CEq v => let! w := cast_operand S name v in inr (CEq w)
  | CNe v => let! w := cast_operand S name v in inr (CNe w)
  | CGte v => let! w := cast_operand S name v in inr (CGte w)
  | CRegex _ => inr c
  end.

Fixpoint cast_alts (S : schema) (alts : list (string * cond)) : res (list (string * cond)) :=
  match alts with
  | [] => inr []
  | (n, c) :: r =>
      let! c' := cast_cond S n c in
      let! r' := cast_alts S r in
      inr ((n, c') :: r')
  end.

Definition cast_clause (S : schema) (cl : clause) : res clause :=
  match cl with
  | CField n c => let! c' := cast_cond S n c in inr (CField n c')
  | COr alts => let! a := cast_alts S alts in inr (COr a)
  | CText _ => inr cl
  end.

Fixpoint cast_query (S : schema) (q : mquery) : res mquery :=
  match q with
  | [] => inr []
  | cl :: r =>
      let! c := cast_clause S cl in
      let! r' := cast_query S r in
      inr (c :: r')
  end.

(** Equality of a stored field with an operand: an array matches if one of
    its elements does, numbers are compared by value, [null] matches a
    missing field. *)
Definition match_eq (stored : option value) (v : value) : bool :=
  match stored, v with
  | Some (VStrs l), VStr s => bool_decide (s ∈ l)
  | Some (VNum a), VNum b => Qeq_bool a b
  | Some w, _ => bool_decide (w = v)
  | None, VNull => true
  | None, _ => false
  end.

Definition match_cond (e : env) (stored : option value) (c : cond) : bool :=
  match c with
  | CEq v => match_eq stored v
  | CNe v => negb (match_eq stored v)
  | CGte v =>
      match stored, v with
      | Some (VNum a), VNum b => Qle_bool b a
      | Some (VDate a), VDate b => b <=? a
      | _, _ => false
      end
  | CRegex pat =>
      match stored with
      | Some (VStr s) => regexp_test e pat s
      | Some (VStrs l) => existsb (regexp_test e pat) l
      | _ => false
      end
  end.

Definition text_of (d : doc) (name : string) : list string :=
  match d !! name with
  | Some (VStr s) => [s]
  | _ => []
  end.

Definition match_clause (e : env) (text : list string) (d : doc) (cl : clause) : bool :=
  match cl with
  | CField n c => match_cond e (d !! n) c
  | COr alts => existsb (fun a => match_cond e (d !! fst a) (snd a)) alts
  | CText s => text_search e s (flat_map (text_of d) text)
  end.

(** The clauses of a query combine conjunctively. *)
Definition matches (e : env) (text : list string) (q : mquery) (d : doc) : bool :=
  forallb (match_clause e text d) q.

(** ** Sorting and paging *)

(** A sort specification: field names with direction [1] or [-1]. *)
Definition sortOptions := list (string * Z).

Definition str_min (a b : string) : string :=
  match String.compare a b with Gt => b | _ => a end.

Definition str_max (a b : string) : string :=
  match String.compare a b with Lt => b | _ => a end.

(** The key under which a field is sorted: an array is represented by its
    least element in ascending order and its greatest in descending order;
    an empty array, [null] and a missing field come first. *)
Definition sort_key (dir : Z) (v : option value) : option value :=
  match v with
  | Some (VStrs []) | Some VNull => None
  | Some (VStrs (x :: r)) =>
      Some (VStr (fold_left (if dir <? 0 then str_max else str_min) r x))
  | _ => v
  end.

(** Order of the types among themselves. *)
Definition type_rank (v : option value) : Z :=
  match v with
  | None | Some VNull => 0
  | Some VNaN | Some (VNum _) => 1
  | Some (VStr _) => 2
  | Some (VStrs _) => 3
  | Some (VId _) => 4
  | Some (VBool _) => 5
  | Some (VDate _) => 6
  end.

Definition cmp_value (a b : option value) : comparison :=
  match a, b with
  | Some (VNum x), Some (VNum y) => Qcompare x y
  | Some VNaN, Some (VNum _) => Lt
  | Some (VNum _), Some VNaN => Gt
  | Some (VStr x), Some (VStr y) => String.compare x y
  | Some (VId x), Some (VId y) => String.compare x y
  | Some (VBool x), Some (VBool y) => Bool.compare x y
  | Some (VDate x), Some (VDate y) => Z.compare x y
  | _, _ => Z.compare (type_rank a) (type_rank b)
  end.

Fixpoint doc_cmp (so : sortOptions) (a b : doc) : comparison :=
  match so with
  | [] => Eq
  | (f, dir) :: r =>
      let c := cmp_value (sort_key dir (a !! f)) (sort_key dir (b !! f)) in
      match (if dir <? 0 then CompOpp c else c) with
      | Eq => doc_cmp r a b
      | c' => c'
      end
  end.

Definition doc_le (so : sortOptions) (a b : doc) : bool :=
  match doc_cmp so a b with Gt => false | _ => true end.

Fixpoint insert_sorted (so : sortOptions) (d : doc) (l : list doc) : list doc :=
  match l with
  | [] => [d]
  | x :: r => if doc_le so d x then d :: l else x :: insert_sorted so d r
  end.

(** [.sort(so)]: documents that compare equal keep their stored order. *)
Definition sort_docs (so : sortOptions) (l : list doc) : list doc :=
  fold_right (insert_sorted so) [] l.

(** [.limit(limit).skip(skip)] on a cursor: the skip is applied first. A
    negative skip is rejected by the server; a negative limit is sent by
    the driver as its absolute value and a limit of zero is no limit. *)
Definition window (skip limit : Z) (l : list doc) : res (list doc) :=
  if skip <? 0 then inl StorageError
  else
    let rest := drop (Z.to_nat skip) l in
    inr (if limit =? 0 then rest else take (Z.to_nat (Z.abs limit)) rest).

(** ** Operations of a Mongoose model *)

Definition guard (e : env) (name : string) (o : op) : res unit :=
  if fault e name o then inl StorageError else inr ().

(** An id given to a model: an ObjectId, or a string that names one. *)
Definition castId (v : value) : res string :=
  match v with
  | VId s => inr s
  | VStr s => from_option inr (inl CastError) (castObjectId s)
  | _ => inl CastError
  end.

Definition has_id (oid : string) (d : doc) : bool :=
  bool_decide (d !! "_id" = Some (VId oid)).

Definition in_index (ix : uindex) (d : doc) : bool :=
  bool_decide (is_Some (d !! ifilter ix)).

Definition same_keys (ix : uindex) (a b : doc) : bool :=
  forallb (fun k => bool_decide (default VNull (a !! k) = default VNull (b !! k))) (ikeys ix).

(** [d] would be a second entry of a unique index of the collection. *)
Definition violates (ixs : list uindex) (coll : list doc) (d : doc) : bool :=
  existsb (fun ix => in_index ix d && existsb (fun x => in_index ix x && same_keys ix x d) coll) ixs.

Definition stamp_new (e : env) (S : schema) (d : doc) : doc :=
  if timestamps S
  then <["updatedAt" := VDate (now e)]> (<["createdAt" := VDate (now e)]> d)
  else d.

(** [Model.create(body)]: build, validate, run the pre-save hooks, insert
    with the id of the driver and the version key, run the post-save hooks.
    The hooks of a schema are document middleware: they run on [create]
    and [save] only. *)
Definition Model_create (e : env) (M : model) (body : doc) (st : store) : res (store * doc) :=
  let S := mschema M e in
  let '(d0, cast_errors) := new_document e S body in
  match (map snd cast_errors ++ validate e S (map fst cast_errors) d0)%list with
  | (_ :: _) as errs => inl (ValidationError errs)
  | [] =>
      let d := <["__v" := num 0]>
                 (<["_id" := VId (newObjectId e)]> (preSave M e body (stamp_new e S d0))) in
      let! _ := guard e (mname M) OpCreate in
      if violates (munique M) (mget M st) d then inl DuplicateKey
      else inr (postSave M e d (mset M (mget M st ++ [d])%list st), d)
  end.

Definition Model_findById (e : env) (M : model) (id : value) (st : store) : res (option doc) :=
  let! oid := castId id in
  let! _ := guard e (mname M) OpFindById in
  inr (List.find (has_id oid) (mget M st)).

(** Replace the first document with the given id. *)
Fixpoint replace_doc (oid : string) (d' : doc) (l : list doc) : list doc :=
  match l with
  | [] => []
  | x :: r => if has_id oid x then d' :: r else x :: replace_doc oid d' r
  end.

Fixpoint remove_doc (oid : string) (l : list doc) : list doc :=
  match l with
  | [] => []
  | x :: r => if has_id oid x then r else x :: remove_doc oid r
  end.

(** [Model.findByIdAndUpdate(id, update, opts)], returning the document
    after the update ([new: true]). It is a query operation: no save hook
    of the schema runs. With [timestamps: true] Mongoose adds [updatedAt]
    to the update before casting it. *)
Definition Model_findByIdAndUpdate (e : env) (M : model) (runValidators : bool)
    (id : value) (update : doc) (st : store) : res (store * option doc) :=
  let S := mschema M e in
  let! oid := castId id in
  let stamped := if timestamps S then <["updatedAt" := VDate (now e)]> update else update in
  let! upd := cast_update S stamped in
  match (if runValidators then validate_update e S upd else []) with
  | (_ :: _) as errs => inl (ValidationError errs)
  | [] =>
      let! _ := guard e (mname M) OpUpdate in
      match List.find (has_id oid) (mget M st) with
      | None => inr (st, None)
      | Some d =>
          let d' := upd ∪ d in
          if violates (munique M) (remove_doc oid (mget M st)) d' then inl DuplicateKey
          else inr (mset M (replace_doc oid d' (mget M st)) st, Some d')
      end
  end.

(** [Model.findByIdAndUpdate(id, { $inc: { field: by } }, { new: true })]. *)
Definition Model_findByIdAndInc (e : env) (M : model) (id : value) (field : string) (by_ : Z)
    (st : store) : res (store * option doc) :=
  let S := mschema M e in
  let! oid := castId id in
  let! _ := guard e (mname M) OpUpdate in
  match List.find (has_id oid) (mget M st) with
  | None => inr (st, None)
  | Some d =>
      let bumped := match d !! field with
                    | Some (VNum q) => VNum (Qred (q + inject_Z by_))
                    | _ => num by_
                    end in
      let d1 := <[field := bumped]> d in
      let d' := if timestamps S then <["updatedAt" := VDate (now e)]> d1 else d1 in
      inr (mset M (replace_doc oid d' (mget M st)) st, Some d')
  end.

(** [Model.findByIdAndDelete(id)]: no remove hook of the schema runs. *)
Definition Model_findByIdAndDelete (e : env) (M : model) (id : value) (st : store)
  : res (store * option doc) :=
  let! oid := castId id in
  let! _ := guard e (mname M) OpDelete in
  match List.find (has_id oid) (mget M st) with
  | None => inr (st, None)
  | Some d => inr (mset M (remove_doc oid (mget M st)) st, Some d)
  end.

(** The documents of the collection that satisfy a query. *)
Definition select (e : env) (M : model) (q : mquery) (st : store) : list doc :=
  List.filter (matches e (mtext M) q) (mget M st).

Definition Model_countDocuments (e : env) (M : model) (q : mquery) (st : store) : res Z :=
  let! q' := cast_query (mschema M e) q in
  let! _ := guard e (mname M) OpCount in
  inr (Z.of_nat (length (select e M q' st))).

(** [Model.find(q).sort(so)], with [.limit(limit).skip(skip)] when a
    window is given. *)
Definition Model_find (e : env) (M : model) (q : mquery) (so : sortOptions)
    (win : option (Z * Z)) (st : store) : res (list doc) :=
  let! q' := cast_query (mschema M e) q in
  let! _ := guard e (mname M) OpFind in
  let sorted := sort_docs so (select e M q' st) in
  match win with
  | None => inr sorted
  | Some (skip, limit) => window skip limit sorted
  end.

(** ** The models *)

Definition set_reviews (l : list doc) (st : store) : store :=
  {| reviews := l; books := books st; authors := authors st;
     publishers := publishers st; errlog := errlog st |}.

Definition set_books (l : list doc) (st : store) : store :=
  {| reviews := reviews st; books := l; authors := authors st;
     publishers := publishers st; errlog := errlog st |}.

Definition set_authors (l : list doc) (st : store) : store :=
  {| reviews := reviews st; books := books st; authors := l;
     publishers := publishers st; errlog := errlog st |}.

Definition set_publishers (l : list doc) (st : store) : store :=
  {| reviews := reviews st; books := books st; authors := authors st;
     publishers := l; errlog := errlog st |}.

Definition console_error (msg : string) (st : store) : store :=
  {| reviews := reviews st; books := books st; authors := authors st;
     publishers := publishers st; errlog := (errlog st ++ [msg])%list |}.

(** [this.isModified(path)] in a pre-save hook of a new document. *)
Definition isModified (body : doc) (name : string) : bool :=
  bool_decide (is_Some (body !! name)).

Definition is_zero (v : option value) : bool :=
  match v with
  | Some (VNum q) => Qeq_bool q 0
  | _ => false
  end.

(** models/Book.js, [bookSchema.pre('save')]. *)
Definition bookPreSave (e : env) (body d : doc) : doc :=
  if isModified body "averageRating" || isModified body "ratingCount"
  then (if is_zero (d !! "ratingCount") then <["averageRating" := num 0]> d else d)
  else d.

Definition no_preSave (e : env) (body d : doc) : doc := d.
Definition no_postSave (e : env) (d : doc) (st : store) : store := st.

Definition Book : model := {|
  mname := "Book";
  mschema := fun _ => bookSchema;
  mtext := ["title"; "description"];
  munique := [ {| ikeys := ["isbn"]; ifilter := "isbn" |} ];
  mget := books; mset := set_books;
  preSave := bookPreSave; postSave := no_postSave |}.

Definition Author : model := {|
  mname := "Author";
  mschema := fun _ => authorSchema;
  mtext := ["firstName"; "lastName"; "penName"; "bio"];
  munique := [];
  mget := authors; mset := set_authors;
  preSave := no_preSave; postSave := no_postSave |}.

Definition Publisher : model := {|
  mname := "Publisher";
  mschema := fun e => publisherSchema (currentYear e);
  mtext := ["name"; "description"];
  munique := [];
  mget := publishers; mset := set_publishers;
  preSave := no_preSave; postSave := no_postSave |}.

(** ** The aggregate maintainer (models/Review.js) *)

(** [mongoose.Types.ObjectId(x)] on an id or on a string that names one. *)
Definition ObjectId (v : value) : res string :=
  match v with
  | VId s => inr s
  | VStr s => from_option inr (inl BSONError) (castObjectId s)
  | _ => inl BSONError
  end.

(** One group of the [$group] stage. *)
Record rating_group := {
  group_id : value;
  averageRating : value;      (* $avg: a number, or null without numeric input *)
  ratingCount : Z             (* $sum: 1 *)
}.

Definition rating_of (d : doc) : option Q :=
  match d !! "rating" with
  | Some (VNum q) => Some q
  | _ => None
  end.

Definition Qsum (l : list Q) : Q := fold_right Qplus 0%Q l.

(** [$avg: '$rating'] over a group. *)
Definition avg_rating (l : list doc) : value :=
  match omap rating_of l with
  | [] => VNull
  | qs => VNum (Qred (Qsum qs / inject_Z (Z.of_nat (length qs))))
  end.

(** The [$match] stage of both recomputations: the reviews of the target
    whose status is Published. *)
Definition published_for (field : string) (oid : string) (st : store) : list doc :=
  List.filter (fun d => match_eq (d !! field) (VId oid)
                        && match_eq (d !! "status") (VStr "Published")) (reviews st).

(** [$match] then [$group] by the target: no group when nothing matches. *)
Definition aggregate_rating (e : env) (field : string) (oid : string) (st : store)
  : res (list rating_group) :=
  let! _ := guard e "Review" OpAggregate in
  match published_for field oid st with
  | [] => inr []
  | ms => inr [ {| group_id := VId oid; averageRating := avg_rating ms;
                   ratingCount := Z.of_nat (length ms) |} ]
  end.

Definition rating_update (g : rating_group) : doc :=
  {[ "averageRating" := averageRating g; "ratingCount" := num (ratingCount g) ]}.

(** [reviewSchema.statics.calculateBookRating]. *)
Definition calculateBookRating (e : env) (bookId : value) (st : store) : res store :=
  let! oid := ObjectId bookId in
  let! result := aggregate_rating e "book" oid st in
  match result with
  | g :: _ =>
      let! r := Model_findByIdAndUpdate e Book false bookId (rating_update g) st in
      inr (fst r)
  | [] => inr st
  end.

(** [reviewSchema.statics.calculateAuthorRating]. *)
Definition calculateAuthorRating (e : env) (authorId : value) (st : store) : res store :=
  let! oid := ObjectId authorId in
  let! result := aggregate_rating e "author" oid st in
  match result with
  | g :: _ =>
      let! r := Model_findByIdAndUpdate e Author false authorId (rating_update g) st in
      inr (fst r)
  | [] => inr st
  end.

(** A field used as a condition. *)
Definition truthy (v : option value) : bool :=
  match v with
  | None | Some VNull | Some VNaN | Some (VBool false) | Some (VStr "") => false
  | Some (VNum q) => negb (Qeq_bool q 0)
  | Some _ => true
  end.

Definition field (d : doc) (name : string) : value := default VNull (d !! name).

(** The [try] block shared by the two hooks: recompute for the book, then
    for the author. The result is the store the block reached and what it
    threw, if anything. *)
Definition try_update_ratings (e : env) (d : doc) (st : store) : store * option exn :=
  match (if truthy (d !! "book") then calculateBookRating e (field d "book") st else inr st) with
  | inl x => (st, Some x)
  | inr st1 =>
      match (if truthy (d !! "author")
             then calculateAuthorRating e (field d "author") st1 else inr st1) with
      | inl x => (st1, Some x)
      | inr st2 => (st2, None)
      end
  end.

(** The hook: the [catch] logs what the block threw and returns. *)
Definition update_ratings (msg : string) (e : env) (d : doc) (st : store) : store :=
  match try_update_ratings e d st with
  | (st', Some _) => console_error msg st'
  | (st', None) => st'
  end.

(** [reviewSchema.post('save')]. *)
Definition reviewPostSave : env -> doc -> store -> store :=
  update_ratings "Error updating ratings after review save:".

(** [reviewSchema.post('remove')]. *)
Definition reviewPostRemove : env -> doc -> store -> store :=
  update_ratings "Error updating ratings after review removal:".

(** [reviewSchema.pre('save')]. *)
Definition reviewPreSave (e : env) (body d : doc) : doc :=
  <["updatedAt" := VDate (now e)]> d.

Definition Review : model := {|
  mname := "Review";
  mschema := fun _ => reviewSchema;
  mtext := [];
  munique := [ {| ikeys := ["reviewer"; "book"]; ifilter := "book" |};
               {| ikeys := ["reviewer"; "author"]; ifilter := "author" |} ];
  mget := reviews; mset := set_reviews;
  preSave := reviewPreSave; postSave := reviewPostSave |}.

(** [doc.remove()] on a review: the only operation after which the remove
    hook runs. No controller calls it. *)
Definition Review_remove (e : env) (d : doc) (st : store) : res store :=
  let! oid := castId (field d "_id") in
  let! _ := guard e "Review" OpDelete in
  inr (reviewPostRemove e d (set_reviews (remove_doc oid (reviews st)) st)).

(** ** Requests and responses *)

Record request := {
  query : gmap string string;      (* req.query *)
  params : gmap string string;     (* req.params *)
  body : doc                       (* req.body *)
}.

Module Pagination.
Record t := { current : Z; total : Z; count : Z }.
End Pagination.

Inductive payload :=
| NoData                   (* the response has no data field *)
| Null                     (* data: null *)
| EmptyObject              (* data: {} *)
| Doc (d : doc)
| Docs (l : list doc).

Record response := {
  status : Z;
  success : bool;
  count : option Z;
  pagination : option Pagination.t;
  data : payload;
  message : option string;
  error : option string
}.

Definition fail (code : Z) (msg : string) : response :=
  {| status := code; success := false; count := None; pagination := None;
     data := NoData; message := None; error := Some msg |}.

Definition ok_data (code : Z) (d : payload) (msg : option string) : response :=
  {| status := code; success := true; count := None; pagination := None;
     data := d; message := msg; error := None |}.

Definition ok_list (l : list doc) (pg : option Pagination.t) (msg : option string) : response :=
  {| status := 200; success := true; count := Some (Z.of_nat (length l)); pagination := pg;
     data := Docs l; message := msg; error := None |}.

(** The answer of every list handler while the database is not connected. *)
Definition empty_results (paged : bool) : response :=
  ok_list []
    (if paged then Some {| Pagination.current := 1; Pagination.total := 0;
                           Pagination.count := 0 |} else None)
    (Some "Database not connected - returning empty results").

Definition server_error : response := fail 500 "Server Error".

(** [messages.join('. ')]. *)
Definition join_messages (l : list string) : string := String.concat ". " l.

Definition connected (e : env) : bool := readyState e =? 1.

Definition route_param (req : request) (name : string) : value :=
  match params req !! name with
  | Some s => VStr s
  | None => VNull
  end.

(** ** The query builder shared by the four list handlers *)

(** [req.query.sortOrder === 'desc' ? -1 : 1]. *)
Definition direction (q : gmap string string) : Z :=
  if bool_decide (q !! "sortOrder" = Some "desc") then -1 else 1.

Definition page_of (q : gmap string string) : Z :=
  or_default (parseInt (q !! "page") (Some 10)) 1.

Definition limit_of (q : gmap string string) : Z :=
  or_default (parseInt (q !! "limit") (Some 10)) 10.

Definition startIndex_of (q : gmap string string) : Z :=
  (page_of q - 1) * limit_of q.

(** From [const total = await Model.countDocuments(query)] to the response. *)
Definition paged_list (e : env) (M : model) (filter : res mquery) (so : sortOptions)
    (q : gmap string string) (st : store) : response :=
  let r :=
    let! f := filter in
    let! total := Model_countDocuments e M f st in
    let! docs := Model_find e M f so (Some (startIndex_of q, limit_of q)) st in
    inr (ok_list docs
           (Some {| Pagination.current := page_of q;
                    Pagination.total := ceil_div total (limit_of q);
                    Pagination.count := Z.of_nat (length docs) |})
           None) in
  match r with
  | inr resp => resp
  | inl _ => server_error
  end.

(** An optional exact-match filter on a field. *)
Definition eq_filter (q : gmap string string) (key name : string) : mquery :=
  match param q key with
  | Some v => [CField name (CEq (VStr v))]
  | None => []
  end.

Definition text_filter (q : gmap string string) : mquery :=
  match param q "search" with
  | Some s => [CText s]
  | None => []
  end.

Definition int_value (o : option Z) : value :=
  match o with
  | Some n => num n
  | None => VNaN
  end.

(** *** Reviews (controllers/reviews.js) *)

Definition reviews_query (e : env) (q : gmap string string) : res mquery :=
  let! search :=
    match param q "search" with
    | Some s => if regexp_valid e s
                then inr [COr [("title", CRegex s); ("content", CRegex s)]]
                else inl SyntaxError
    | None => inr []
    end in
  inr (search ++ eq_filter q "book" "book" ++ eq_filter q "author" "author"
       ++ eq_filter q "reviewer" "reviewer"
       ++ match param q "rating" with
          | Some r => [CField "rating" (CEq (int_value (parseInt (Some r) None)))]
          | None => []
          end
       ++ eq_filter q "status" "status")%list.

Definition reviews_sortOptions (q : gmap string string) : sortOptions :=
  match param q "sortBy" with
  | Some s =>
      let sortField := if bool_decide (s = "title") then "title"
                       else if bool_decide (s = "rating") then "rating"
                       else if bool_decide (s = "helpful") then "helpful"
                       else "createdAt" in
      [(sortField, direction q)]
  | None => [("createdAt", -1)]
  end.

Definition getAllReviews (e : env) (req : request) (st : store) : response :=
  if negb (connected e) then empty_results true
  else paged_list e Review (reviews_query e (query req))
         (reviews_sortOptions (query req)) (query req) st.

Definition createReview (e : env) (req : request) (st : store) : store * response :=
  if negb (connected e)
  then (st, fail 503 "Database not connected - cannot create review")
  else
    match Model_create e Review (body req) st with
    | inr (st', review) => (st', ok_data 201 (Doc review) None)
    | inl DuplicateKey => (st, fail 400 "You have already reviewed this item")
    | inl (ValidationError messages) => (st, fail 400 (join_messages messages))
    | inl _ => (st, server_error)
    end.

Definition updateReview (e : env) (req : request) (st : store) : store * response :=
  if negb (connected e)
  then (st, fail 503 "Database not connected - cannot update review")
  else
    let r :=
      let! review := Model_findById e Review (route_param req "id") st in
      match review with
      | None => inr (st, fail 404 "Review not found")
      | Some _ =>
          let! u := Model_findByIdAndUpdate e Review true (route_param req "id") (body req) st in
          inr (fst u, ok_data 200 (from_option Doc Null (snd u)) None)
      end in
    match r with
    | inr out => out
    | inl CastError => (st, fail 404 "Review not found")
    | inl (ValidationError messages) => (st, fail 400 (join_messages messages))
    | inl _ => (st, server_error)
    end.

Definition deleteReview (e : env) (req : request) (st : store) : store * response :=
  if negb (connected e)
  then (st, fail 503 "Database not connected - cannot delete review")
  else
    let r :=
      let! review := Model_findById e Review (route_param req "id") st in
      match review with
      | None => inr (st, fail 404 "Review not found")
      | Some _ =>
          let! u := Model_findByIdAndDelete e Review (route_param req "id") st in
          inr (fst u, ok_data 200 EmptyObject (Some "Review deleted successfully"))
      end in
    match r with
    | inr out => out
    | inl CastError => (st, fail 404 "Review not found")
    | inl _ => (st, server_error)
    end.

Definition getReviewsByBook (e : env) (req : request) (st : store) : response :=
  if negb (connected e) then empty_results false
  else
    match Model_find e Review
            [CField "book" (CEq (route_param req "bookId"));
             CField "status" (CEq (VStr "Published"))]
            [("createdAt", -1)] None st with
    | inr found => ok_list found None None
    | inl CastError => fail 404 "Book not found"
    | inl _ => server_error
    end.

Definition getReviewsByAuthor (e : env) (req : request) (st : store) : response :=
  if negb (connected e) then empty_results false
  else
    match Model_find e Review
            [CField "author" (CEq (route_param req "authorId"));
             CField "status" (CEq (VStr "Published"))]
            [("createdAt", -1)] None st with
    | inr found => ok_list found None None
    | inl CastError => fail 404 "Author not found"
    | inl _ => server_error
    end.

Definition markReviewHelpful (e : env) (req : request) (st : store) : store * response :=
  if negb (connected e)
  then (st, fail 503 "Database not connected")
  else
    match Model_findByIdAndInc e Review (route_param req "id") "helpful" 1 st with
    | inr (st', Some review) => (st', ok_data 200 (Doc review) (Some "Review marked as helpful"))
    | inr (st', None) => (st', fail 404 "Review not found")
    | inl CastError => (st, fail 404 "Review not found")
    | inl _ => (st, server_error)
    end.

(** *** Authors (controllers/authors.js) *)

Definition authors_query (e : env) (q : gmap string string) : res mquery :=
  let! nationality :=
    match param q "nationality" with
    | Some s => if regexp_valid e s then inr [CField "nationality" (CRegex s)]
                else inl SyntaxError
    | None => inr []
    end in
  inr (text_filter q ++ eq_filter q "genre" "genres" ++ nationality
       ++ eq_filter q "status" "status")%list.

Definition authors_sortOptions (q : gmap string string) : sortOptions :=
  match param q "sortBy" with
  | Some s =>
      let sortField := if bool_decide (s = "firstName") then "firstName"
                       else if bool_decide (s = "lastName") then "lastName"
                       else if bool_decide (s = "birthDate") then "birthDate"
                       else "createdAt" in
      [(sortField, direction q)]
  | None => [("createdAt", -1)]
  end.

Definition getAllAuthors (e : env) (req : request) (st : store) : response :=
  if negb (connected e) then empty_results true
  else paged_list e Author (authors_query e (query req))
         (authors_sortOptions (query req)) (query req) st.

Definition getAuthorsByGenre (e : env) (req : request) (st : store) : response :=
  if negb (connected e) then empty_results false
  else
    match Model_find e Author
            [CField "genres" (CEq (route_param req "genre"));
             CField "status" (CNe (VStr "Deceased"))]
            [("lastName", 1); ("firstName", 1)] None st with
    | inr found => ok_list found None None
    | inl _ => server_error
    end.

(** *** Publishers (controllers/publishers.js) *)

Definition publishers_query (q : gmap string string) : res mquery :=
  inr (text_filter q ++ eq_filter q "genre" "genres" ++ eq_filter q "status" "status"
       ++ match param q "foundedAfter" with
          | Some y => [CField "foundedYear" (CGte (int_value (parseInt (Some y) None)))]
          | None => []
          end)%list.

Definition publishers_sortOptions (q : gmap string string) : sortOptions :=
  match param q "sortBy" with
  | Some s => [(s, direction q)]
  | None => [("name", 1)]
  end.

Definition getAllPublishers (e : env) (req : request) (st : store) : response :=
  if negb (connected e) then empty_results true
  else paged_list e Publisher (publishers_query (query req))
         (publishers_sortOptions (query req)) (query req) st.

Definition getPublishersByGenre (e : env) (req : request) (st : store) : response :=
  if negb (connected e) then empty_results false
  else
    match Model_find e Publisher
            [CField "genres" (CEq (route_param req "genre"));
             CField "status" (CEq (VStr "Active"))]
            [("name", 1)] None st with
    | inr found => ok_list found None None
    | inl _ => server_error
    end.

Definition getPublisherBooks (e : env) (req : request) (st : store) : response :=
  if negb (connected e) then empty_results false
  else
    match Model_find e Book [CField "publisher" (CEq (route_param req "id"))]
            [("publicationDate", -1)] None st with
    | inr found => ok_list found None None
    | inl CastError => fail 404 "Publisher not found"
    | inl _ => server_error
    end.

(** *** Books (controllers/books.js) *)

Definition books_query (q : gmap string string) : res mquery :=
  inr (text_filter q ++ eq_filter q "author" "author" ++ eq_filter q "publisher" "publisher"
       ++ eq_filter q "genre" "genre")%list.

Definition books_sortOptions (q : gmap string string) : sortOptions :=
  match param q "sortBy" with
  | Some s => [(s, direction q)]
  | None => [("createdAt", -1)]
  end.

Definition getAllBooks (e : env) (req : request) (st : store) : response :=
  if negb (connected e) then empty_results true
  else paged_list e Book (books_query (query req))
         (books_sortOptions (query req)) (query req) st.

Definition getBooksByAuthor (e : env) (req : request) (st : store) : response :=
  if negb (connected e) then empty_results false
  else
    match Model_find e Book [CField "author" (CEq (route_param req "authorId"))]
            [("publicationDate", -1)] None st with
    | inr found => ok_list found None None
    | inl CastError => fail 404 "Author not found"
    | inl _ => server_error
    end.

(** *** Create, update and delete of books, authors and publishers

    The nine handlers are the same text up to the model, the names in the
    messages and the cases their [catch] distinguishes: [on_cast] is the
    answer to a [CastError] and [on_duplicate] the answer to error code
    11000, where the handler has that case. *)

Definition handle (on_cast on_duplicate : option string) (on_validation : bool)
    (st : store) (x : exn) : store * response :=
  match x, on_cast, on_duplicate, on_validation with
  | CastError, Some m, _, _ => (st, fail 404 m)
  | DuplicateKey, _, Some m, _ => (st, fail 400 m)
  | ValidationError messages, _, _, true => (st, fail 400 (join_messages messages))
  | _, _, _, _ => (st, server_error)
  end.

Definition create_handler (M : model) (label : string) (on_duplicate : option string)
    (e : env) (req : request) (st : store) : store * response :=
  if negb (connected e)
  then (st, fail 503 ("Database not connected - cannot create " +:+ label))
  else
    match Model_create e M (body req) st with
    | inr (st', d) => (st', ok_data 201 (Doc d) None)
    | inl x => handle None on_duplicate true st x
    end.

Definition update_handler (M : model) (label Label : string) (on_duplicate : option string)
    (e : env) (req : request) (st : store) : store * response :=
  if negb (connected e)
  then (st, fail 503 ("Database not connected - cannot update " +:+ label))
  else
    let r :=
      let! found := Model_findById e M (route_param req "id") st in
      match found with
      | None => inr (st, fail 404 (Label +:+ " not found"))
      | Some _ =>
          let! u := Model_findByIdAndUpdate e M true (route_param req "id") (body req) st in
          inr (fst u, ok_data 200 (from_option Doc Null (snd u)) None)
      end in
    match r with
    | inr out => out
    | inl x => handle (Some (Label +:+ " not found")) on_duplicate true st x
    end.

Definition delete_handler (M : model) (label Label : string)
    (e : env) (req : request) (st : store) : store * response :=
  if negb (connected e)
  then (st, fail 503 ("Database not connected - cannot delete " +:+ label))
  else
    let r :=
      let! found := Model_findById e M (route_param req "id") st in
      match found with
      | None => inr (st, fail 404 (Label +:+ " not found"))
      | Some _ =>
          let! u := Model_findByIdAndDelete e M (route_param req "id") st in
          inr (fst u, ok_data 200 EmptyObject (Some (Label +:+ " deleted successfully")))
      end in
    match r with
    | inr out => out
    | inl x => handle (Some (Label +:+ " not found")) None false st x
    end.

Definition createBook := create_handler Book "book" (Some "Book with this ISBN already exists").
Definition updateBook :=
  update_handler Book "book" "Book" (Some "Book with this ISBN already exists").
Definition deleteBook := delete_handler Book "book" "Book".

Definition createAuthor := create_handler Author "author" None.
Definition updateAuthor := update_handler Author "author" "Author" None.
Definition deleteAuthor := delete_handler Author "author" "Author".

Definition createPublisher := create_handler Publisher "publisher" None.
Definition updatePublisher := update_handler Publisher "publisher" "Publisher" None.
Definition deletePublisher := delete_handler Publisher "publisher" "Publisher".

(** ** The Joi validators (utils/validators.js) *)

Definition dq : string := String (ascii_of_nat 34) EmptyString.

(** The label of a key in a default message of Joi. *)
Definition quoted (k : string) : string := dq +:+ k +:+ dq.

(** One entry of [error.details]: the path and the message. *)
Definition detail := (string * string)%type.

Definition on_key (b : doc) (k : string) (required : bool) (check : value -> list string)
  : list detail :=
  match b !! k with
  | None => if required then [(k, quoted k +:+ " is required")] else []
  | Some v => map (pair k) (check v)
  end.

(** [Joi.string().max(n)], with [.trim()] when [trimmed]. *)
Definition joi_text (k : string) (trimmed : bool) (n : nat) (empty_msg max_msg : string)
    (v : value) : list string :=
  match v with
  | VStr s =>
      let s' := if trimmed then trim s else s in
      if bool_decide (s' = "") then [empty_msg]
      else if (n <? js_length s')%nat then [max_msg] else []
  | _ => [quoted k +:+ " must be a string"]
  end.

Definition is_integer (q : Q) : bool := bool_decide (Qden (Qred q) = 1%positive).

(** [Joi.number().integer().min(1).max(5)] on a JSON number. *)
Definition joi_rating (v : value) : list string :=
  match v with
  | VNum q =>
      ((if is_integer q then [] else [quoted "rating" +:+ " must be an integer"])
       ++ (if Qltb q 1 then ["Rating must be at least 1"] else [])
       ++ (if Qltb 5 q then ["Rating cannot exceed 5"] else []))%list
  | _ => ["Rating must be a number"]
  end.

(** [Joi.string().pattern(/^[0-9a-fA-F]{24}$/)]. *)
Definition joi_objectid (k msg : string) (v : value) : list string :=
  match v with
  | VStr s =>
      if bool_decide (s = "") then [quoted k +:+ " is not allowed to be empty"]
      else if isObjectIdString s then [] else [msg]
  | _ => [quoted k +:+ " must be a string"]
  end.

Definition review_statuses : list string := ["Published"; "Pending"; "Hidden"; "Flagged"].

(** [Joi.string().valid(...)]. *)
Definition joi_valid (k : string) (vals : list string) (v : value) : list string :=
  match v with
  | VStr s =>
      if bool_decide (s ∈ vals) then []
      else [quoted k +:+ " must be one of [" +:+ String.concat ", " vals +:+ "]"]
  | _ => [quoted k +:+ " must be one of [" +:+ String.concat ", " vals +:+ "]"]
  end.

(** Keys that the object schema does not declare are not allowed. *)
Definition unknown_keys (known : list string) (b : doc) : list detail :=
  omap (fun kv => if bool_decide (fst kv ∈ known) then None
                  else Some (fst kv, quoted (fst kv) +:+ " is not allowed"))
       (map_to_list b).

Definition review_keys : list string :=
  ["title"; "content"; "rating"; "book"; "author"; "status"].

(** [.or('book', 'author')]: at least one of the two keys is present. *)
Definition joi_or_book_author (b : doc) : list detail :=
  match b !! "book", b !! "author" with
  | None, None => [("", "Review must be for either a book or an author")]
  | _, _ => []
  end.

(** [reviewValidation.create], run with [abortEarly: false]: the details
    of the error, empty when the body is accepted. *)
Definition reviewValidation_create (b : doc) : list detail :=
  (on_key b "title" true
     (joi_text "title" true 200 "Review title is required" "Title cannot exceed 200 characters")
   ++ on_key b "content" true
        (joi_text "content" false 5000 "Review content is required"
           "Content cannot exceed 5000 characters")
   ++ on_key b "rating" true joi_rating
   ++ on_key b "book" false (joi_objectid "book" "Book must be a valid ObjectId")
   ++ on_key b "author" false (joi_objectid "author" "Author must be a valid ObjectId")
   ++ on_key b "status" false (joi_valid "status" review_statuses)
   ++ unknown_keys review_keys b
   ++ joi_or_book_author b)%list.

(** [reviewValidation.update]: every key optional, no [.or]. *)
Definition reviewValidation_update (b : doc) : list detail :=
  (on_key b "title" false
     (joi_text "title" true 200 (quoted "title" +:+ " is not allowed to be empty")
        "Title cannot exceed 200 characters")
   ++ on_key b "content" false
        (joi_text "content" false 5000 (quoted "content" +:+ " is not allowed to be empty")
           "Content cannot exceed 5000 characters")
   ++ on_key b "rating" false joi_rating
   ++ on_key b "book" false (joi_objectid "book" "Book must be a valid ObjectId")
   ++ on_key b "author" false (joi_objectid "author" "Author must be a valid ObjectId")
   ++ on_key b "status" false (joi_valid "status" review_statuses)
   ++ unknown_keys review_keys b)%list.

(** middleware/validation.js, [validateBody]: [None] is the call of
    [next()]; the details are not part of the response record. *)
Definition validateBody (check : doc -> list detail) (req : request) : option response :=
  match check (body req) with
  | [] => None
  | _ => Some (fail 400 "Validation failed")
  end.

(** ** The four listable resources *)

Inductive resource := Books | Authors | Publishers | Reviews.

Definition model_of (R : resource) : model :=
  match R with
  | Books => Book | Authors => Author | Publishers => Publisher | Reviews => Review
  end.

(** The values of [sortBy] in [queryValidation] (the allow-list of the
    resource) and the bounds it puts on [limit]. *)
Definition sortBy_valid (R : resource) : list string :=
  match R with
  | Books => ["title"; "publicationDate"; "averageRating"; "createdAt"]
  | Authors => ["firstName"; "lastName"; "birthDate"; "createdAt"]
  | Publishers => ["name"; "foundedYear"; "createdAt"]
  | Reviews => ["title"; "rating"; "helpful"; "createdAt"]
  end.

Definition limit_min : Z := 1.
Definition limit_max : Z := 100.

(** The sort of a list request without [sortBy]. *)
Definition default_sort (R : resource) : sortOptions :=
  match R with
  | Publishers => [("name", 1)]
  | _ => [("createdAt", -1)]
  end.

Definition sortOptions_of (R : resource) : gmap string string -> sortOptions :=
  match R with
  | Books => books_sortOptions
  | Authors => authors_sortOptions
  | Publishers => publishers_sortOptions
  | Reviews => reviews_sortOptions
  end.

Definition query_of (R : resource) (e : env) (q : gmap string string) : res mquery :=
  match R with
  | Books => books_query q
  | Authors => authors_query e q
  | Publishers => publishers_query q
  | Reviews => reviews_query e q
  end.

(** The routes [GET /api/books], [/api/authors], [/api/publishers] and
    [/api/reviews]: each is the list handler alone, no middleware before it. *)
Definition getAll (R : resource) : env -> request -> store -> response :=
  match R with
  | Books => getAllBooks
  | Authors => getAllAuthors
  | Publishers => getAllPublishers
  | Reviews => getAllReviews
  end.

(** The filtered result set of a list request: the documents that satisfy
    the query built from it, when the query can be built and cast. *)
Definition filtered (R : resource) (e : env) (q : gmap string string) (st : store)
  : res (list doc) :=
  let! f := query_of R e q in
  let! f' := cast_query (mschema (model_of R) e) f in
  inr (select e (model_of R) f' st).

(** No call of the model is rejected by the backend. *)
Definition healthy (e : env) (M : model) : Prop := forall o, fault e (mname M) o = false.

(** ** The handlers by kind *)

(** Every handler that answers with a list. *)
Definition list_handlers : list (env -> request -> store -> response) :=
  [ getAllBooks; getBooksByAuthor;
    getAllAuthors; getAuthorsByGenre;
    getAllPublishers; getPublishersByGenre; getPublisherBooks;
    getAllReviews; getReviewsByBook; getReviewsByAuthor ].

(** Every handler that writes. *)
Definition mutation_handlers : list (env -> request -> store -> store * response) :=
  [ createBook; updateBook; deleteBook;
    createAuthor; updateAuthor; deleteAuthor;
    createPublisher; updatePublisher; deletePublisher;
    createReview; updateReview; deleteReview; markReviewHelpful ].

(** An empty result set with the explanatory message, and no error. *)
Definition degraded (r : response) : Prop :=
  status r = 200 /\ success r = true /\ count r = Some 0 /\ data r = Docs [] /\
  message r = Some "Database not connected - returning empty results" /\ error r = None.

(** An explicit failure that leaves the store as it was. *)
Definition refused (st : store) (out : store * response) : Prop :=
  fst out = st /\ status (snd out) = 503 /\ success (snd out) = false /\
  data (snd out) = NoData /\ is_Some (error (snd out)).

(** ** Vocabulary of the statements *)

Definition sorted_by (so : sortOptions) : list doc -> Prop :=
  Sorted (fun a b => doc_le so a b = true).

(** An integer on which the doubles of the code agree with the exact
    arithmetic used here: at most [2 ^ 26] in absolute value, so that the
    product of two such integers is below [2 ^ 53] and the double nearest
    to the quotient of two of them has the ceiling of the exact quotient. *)
Definition js_exact (z : Z) : Prop := Z.abs z <= 2 ^ 26.

(** The integers that a list request carries are of that kind: its page,
    its page size and the numbers it filters on. *)
Definition exact_query (q : gmap string string) : Prop :=
  js_exact (page_of q) /\ js_exact (limit_of q) /\
  from_option js_exact True (parseInt (q !! "rating") None) /\
  from_option js_exact True (parseInt (q !! "foundedAfter") None).

(** A stored value has the type of its path. *)
Definition has_type (t : ptype) (v : value) : bool :=
  match t, v with
  | _, VNull => true
  | TString, VStr _ | TNumber, VNum _ | TDate, VDate _
  | TObjectId, VId _ | TStrings, VStrs _ => true
  | _, _ => false
  end.

(** Every declared path that a document carries holds a value of its type,
    as in every document that went through the casting of its model. *)
Definition conforms (S : schema) (d : doc) : Prop :=
  Forall (fun p => from_option (has_type (ptyp p)) true (d !! pname p) = true) (schema_paths S).

(** A schema whose path names are distinct and whose defaults have the
    type of their path. *)
Definition well_formed (e : env) (S : schema) : Prop :=
  NoDup (map pname (schema_paths S)) /\
  Forall (fun p => from_option (has_type (ptyp p)) true (default_of e (prules p)) = true)
    (schema_paths S).

Definition reviews_conform (st : store) : Prop := Forall (conforms reviewSchema) (reviews st).

(** A Published review of the given target. *)
Definition published_review_of (name oid : string) (d : doc) : bool :=
  bool_decide (d !! name = Some (VId oid)) &&
  bool_decide (d !! "status" = Some (VStr "Published")).

Definition created (d : doc) : option Z :=
  match d !! "createdAt" with
  | Some (VDate t) => Some t
  | _ => None
  end.

(** [a] may stand before [b] in a listing that is newest first; a document
    without a creation date stands after the dated ones. *)
Definition newest_first (a b : doc) : Prop :=
  match created a, created b with
  | Some ta, Some tb => tb <= ta
  | None, Some _ => False
  | _, None => True
  end.

(** Two documents agree on every field but [k]. *)
Definition same_but (k : string) (a a' : doc) : Prop :=
  forall f, f <> k -> a' !! f = a !! f.

(** The two targets a stored review refers to. *)
Definition targets (d : doc) : option value * option value := (d !! "book", d !! "author").

(** The calls of the storage backend that only a recomputation makes. *)
Definition recompute_call (name : string) (o : op) : bool :=
  bool_decide ((name, o) ∈ [("Review", OpAggregate); ("Book", OpUpdate); ("Author", OpUpdate)]).


(** The environment with another failure oracle. *)
Definition with_fault (e : env) (f : string -> op -> bool) : env := {|
  readyState := readyState e; now := now e; currentYear := currentYear e;
  newObjectId := newObjectId e;
  regexp_valid := regexp_valid e;
  regexp_test := regexp_test e;
  text_search := text_search e;
  fault := f |}.

(** ** Sample data of the closed statements *)

Definition no_fault (name : string) (o : op) : bool := false.

(** A backend at time 1000 that rejects nothing; the regular expression
    engine and the text index accept everything. *)
Definition sample_env (ready : Z) (next_id : string) : env := {|
  readyState := ready; now := 1000; currentYear := 2026;
  newObjectId := next_id;
  regexp_valid := fun _ => true;
  regexp_test := fun _ _ => true;
  text_search := fun _ _ => true;
  fault := no_fault |}.

Definition book_b1 : string := "0000000000000000000000b1".
Definition author_c1 : string := "0000000000000000000000c1".
Definition user_d1 : string := "0000000000000000000000d1".
Definition user_d2 : string := "0000000000000000000000d2".
Definition review_e1 : string := "0000000000000000000000e1".
Definition review_e2 : string := "0000000000000000000000e2".
Definition review_e3 : string := "0000000000000000000000e3".

Definition env0 : env := sample_env 1 review_e1.
Definition env_down : env := sample_env 0 review_e1.

Definition empty_store : store :=
  {| reviews := []; books := []; authors := []; publishers := []; errlog := [] |}.

Definition get_request (q : gmap string string) : request :=
  {| query := q; params := ∅; body := ∅ |}.

Definition request_for (name value : string) (b : doc) : request :=
  {| query := ∅; params := {[ name := value ]}; body := b |}.

Definition post_request (b : doc) : request :=
  {| query := ∅; params := ∅; body := b |}.

Definition review_at (oid target tid : string) (rating : Z) (st : string) (t : Z) : doc :=
  {[ "_id" := VId oid; "title" := VStr "A review"; "content" := VStr "Text";
     "rating" := num rating; target := VId tid; "reviewer" := VId user_d1;
     "helpful" := num 0; "status" := VStr st;
     "createdAt" := VDate t; "updatedAt" := VDate t ]}.

Definition review_body (target tid reviewer : string) (rating : Z) : doc :=
  {[ "title" := VStr "A review"; "content" := VStr "Text"; "rating" := num rating;
     target := VStr tid; "reviewer" := VStr reviewer ]}.

(** A body that names a book and an author at once. *)
Definition body_both : doc :=
  {[ "title" := VStr "Both"; "content" := VStr "Text"; "rating" := num 5;
     "book" := VStr book_b1; "author" := VStr author_c1 ]}.

Definition author1 : doc :=
  {[ "_id" := VId author_c1; "firstName" := VStr "Frank"; "lastName" := VStr "Herbert";
     "status" := VStr "Active"; "booksPublished" := num 0;
     "createdAt" := VDate 0; "updatedAt" := VDate 0 ]}.

Definition book1 (avg n : Z) : doc :=
  {[ "_id" := VId book_b1; "title" := VStr "Dune"; "author" := VId author_c1;
     "publicationDate" := VDate 0; "averageRating" := num avg; "ratingCount" := num n;
     "createdAt" := VDate 0; "updatedAt" := VDate 0 ]}.

(** One book whose stored aggregate is 4 over 1 rating, with the given reviews. *)
Definition rated_store (rs : list doc) : store :=
  {| reviews := rs; books := [book1 4 1]; authors := [author1]; publishers := [];
     errlog := [] |}.

(** The same book before any review. *)
Definition fresh_store : store :=
  {| reviews := []; books := [book1 0 0]; authors := [author1]; publishers := [];
     errlog := [] |}.

Definition the_review (rating : Z) (st : string) : doc :=
  review_at review_e1 "book" book_b1 rating st 10.

(** What the store holds as aggregate of the book. *)
Definition stored_rating (st : store) : option (option value * option value) :=
  (fun b : doc => (b !! "averageRating", b !! "ratingCount"))
    <$> List.find (has_id book_b1) (books st).

Definition author_store : store :=
  {| reviews := [ review_at review_e1 "author" author_c1 5 "Published" 10 ];
     books := []; authors := [author1]; publishers := []; errlog := [] |}.

Definition listing_store : store :=
  set_reviews [ review_at review_e1 "book" book_b1 4 "Published" 10;
                review_at review_e2 "book" book_b1 1 "Hidden" 20;
                review_at review_e3 "book" book_b1 5 "Published" 30 ] empty_store.

Definition sample_review (i : nat) : doc :=
  {[ "title" := VStr "A review"; "content" := VStr "Text"; "rating" := num 5;
     "book" := VId book_b1; "reviewer" := VId user_d1; "status" := VStr "Published";
     "createdAt" := VDate (Z.of_nat i) ]}.

Definition store_of_reviews (n : nat) : store :=
  set_reviews (map sample_review (seq 0 n)) empty_store.

Ltac decide_closed := apply (bool_decide_unpack _); vm_compute; exact I.

(** ** Further handlers *)

(** *** Reading one document

[GET /api/reviews/:id], [/api/books/:id] and [/api/authors/:id]: the
    three handlers are the same text up to the model and the name in the
    messages. While the database is not connected they answer 404. *)
Definition get_handler (M : model) (Label : string)
    (e : env) (req : request) (st : store) : response :=
  if negb (connected e) then fail 404 "Database not connected"
  else
    match Model_findById e M (route_param req "id") st with
    | inr (Some d) => ok_data 200 (Doc d) None
    | inr None => fail 404 (Label +:+ " not found")
    | inl CastError => fail 404 (Label +:+ " not found")
    | inl _ => server_error
    end.

Definition getReviewById := get_handler Review "Review".
Definition getBookById := get_handler Book "Book".
Definition getAuthorById := get_handler Author "Author".

(** models/Book.js, [bookSchema.statics.calculateAverageRating], called
    with an ObjectId: the [$match] stage takes every review of the book,
    whatever its status. Nothing in the repository calls it. *)
Definition Book_calculateAverageRating (e : env) (bookId : string) (st : store) : res store :=
  let! _ := guard e "Review" OpAggregate in
  match List.filter (fun d => match_eq (d !! "book") (VId bookId)) (reviews st) with
  | [] => inr st
  | ms =>
      let! r := Model_findByIdAndUpdate e Book false (VId bookId)
                  {[ "averageRating" := avg_rating ms;
                     "ratingCount" := num (Z.of_nat (length ms)) ]} st in
      inr (fst r)
  end.

(** ** Authentication (config/auth.js) *)

(** What the handlers take from the [jsonwebtoken] library and from the
    language: the signing and the verification under the secret of the
    process, and the conversion of a value to a string. *)
Record auth_env := {
  sign : doc -> string;               (* jwt.sign(payload, secret, options) *)
  verify : string -> option doc;      (* jwt.verify(token, secret); None when it throws *)
  to_text : value -> string           (* String(v) *)
}.

(** [s.split(c)] for a separator of one character. *)
Fixpoint split (sep : ascii) (s : string) : list string :=
  match s with
  | EmptyString => [""]
  | String c r =>
      if Ascii.eqb c sep then "" :: split sep r
      else match split sep r with
           | p :: ps => String c p :: ps
           | [] => [String c ""]
           end
  end.

(** The payload [generateToken] signs: a key whose value is [undefined]
    is not serialized. *)
Definition token_claims (user : doc) : doc :=
  from_option (fun v => {[ "id" := v ]}) ∅ (user !! "googleId")
  ∪ from_option (fun v => {[ "email" := v ]}) ∅ (user !! "email")
  ∪ from_option (fun v => {[ "name" := v ]}) ∅ (user !! "name").

Definition generateToken (a : auth_env) (user : doc) : string := sign a (token_claims user).

Definition unauthorized : response := fail 401 "Not authorized to access this route".

(** [protect], given [req.headers.authorization]: the response it sends,
    or the [req.user] with which it calls [next()]. *)
Definition protect (a : auth_env) (authorization : option string) : response + doc :=
  let token :=
    match authorization with
    | Some h => if String.prefix "Bearer" h then split " " h !! 1%nat else None
    | None => None
    end in
  match token with
  | None | Some "" => inl unauthorized
  | Some t =>
      match verify a t with
      | Some decoded => inr decoded
      | None => inl unauthorized
      end
  end.

(** The text of a value inside a template literal. *)
Definition template (a : auth_env) (v : option value) : string :=
  match v with
  | None => "undefined"
  | Some (VStr s) => s
  | Some w => to_text a w
  end.

(** [authorize(...roles)] on the [req.user] that [protect] set: the
    response it sends, or [()] for the call of [next()]. *)
Definition authorize (a : auth_env) (roles : list string) (user : doc) : response + unit :=
  if match user !! "role" with
     | Some (VStr r) => bool_decide (r ∈ roles)
     | _ => false
     end
  then inr ()
  else inl (fail 403 ("User role " +:+ template a (user !! "role")
                      +:+ " is not authorized to access this route")).

(** ** Vocabulary of the further statements *)

(** No call of any model is rejected by the backend; the reads that
    [populate] adds to a handler are among these calls. *)
Definition reliable (e : env) : Prop := forall name o, fault e name o = false.

(** The documents a response carries. *)
Definition items (r : response) : list doc :=
  match data r with
  | Docs l => l
  | _ => []
  end.

(** The date a document holds in a field. *)
Definition dated (k : string) (d : doc) : option Z :=
  match d !! k with
  | Some (VDate t) => Some t
  | _ => None
  end.

(** [a] may stand before [b] in a listing with the latest date of field [k]
    first; a document without that date stands after the dated ones. *)
Definition latest_first (k : string) (a b : doc) : Prop :=
  match dated k a, dated k b with
  | Some ta, Some tb => tb <= ta
  | None, Some _ => False
  | _, None => True
  end.

(** No two different documents of the list tie under the sort, so that
    the sort fixes their order. *)
Definition no_ties (so : sortOptions) (l : list doc) : Prop :=
  forall a b, a ∈ l -> b ∈ l -> doc_cmp so a b = Eq -> a = b.

(** The document refers to [oid] in its field [k]. *)
Definition refers_to (k oid : string) (d : doc) : bool :=
  bool_decide (d !! k = Some (VId oid)).

(** The stored array of genres holds [g]. *)
Definition lists_genre (g : string) (d : doc) : bool :=
  match d !! "genres" with
  | Some (VStrs l) => bool_decide (g ∈ l)
  | _ => false
  end.

Definition has_status (s : string) (d : doc) : bool :=
  bool_decide (d !! "status" = Some (VStr s)).

Definition books_conform (st : store) : Prop := Forall (conforms bookSchema) (books st).
Definition authors_conform (st : store) : Prop := Forall (conforms authorSchema) (authors st).
Definition publishers_conform (e : env) (st : store) : Prop :=
  Forall (conforms (publisherSchema (currentYear e))) (publishers st).

(** Every stored document conforms to the schema of its collection. *)
Definition store_conforms (e : env) (st : store) : Prop :=
  reviews_conform st /\ books_conform st /\ authors_conform st /\ publishers_conform e st.

(** No two documents of the collection carry the same id. *)
Definition unique_ids (l : list doc) : Prop :=
  forall oid, (length (List.filter (has_id oid) l) <= 1)%nat.

(** The number a document holds in a field. *)
Definition number_at (k : string) (d : doc) : option Q :=
  match d !! k with
  | Some (VNum q) => Some q
  | _ => None
  end.

(** The value a new document holds at a declared path: the value of the
    body after the cast and the setters, else the default of the path. *)
Definition built_value (e : env) (body : doc) (p : path) : option value :=
  match body !! pname p with
  | Some v => apply_setters (prules p) <$> cast (ptyp p) v
  | None =>
      match default_of e (prules p), ptyp p with
      | Some w, _ => Some w
      | None, TStrings => Some (VStrs [])
      | None, _ => None
      end
  end.

(** The cast error a body raises at a path, if any. *)
Definition cast_error_of (body : doc) (p : path) : list (string * string) :=
  match body !! pname p with
  | Some v =>
      match cast (ptyp p) v with
      | Some _ => []
      | None => [(pname p, cast_message p)]
      end
  | None => []
  end.

(** The query parameters from which the list handler of a resource builds
    its filter. *)
Definition filter_keys (R : resource) : list string :=
  match R with
  | Books => ["search"; "author"; "publisher"; "genre"]
  | Authors => ["search"; "genre"; "nationality"; "status"]
  | Publishers => ["search"; "genre"; "status"; "foundedAfter"]
  | Reviews => ["search"; "book"; "author"; "reviewer"; "rating"; "status"]
  end.

(** The handlers that delete, each with the model it deletes from. *)
Definition delete_handlers : list (model * (env -> request -> store -> store * response)) :=
  [ (Book, deleteBook); (Author, deleteAuthor); (Publisher, deletePublisher);
    (Review, deleteReview) ].


(** The handlers that read or write the one document named by [:id]. *)
Definition by_id_readers : list (env -> request -> store -> response) :=
  [ getReviewById; getBookById; getAuthorById; getPublisherBooks ].

Definition by_id_writers : list (env -> request -> store -> store * response) :=
  [ updateBook; deleteBook; updateAuthor; deleteAuthor; updatePublisher; deletePublisher;
    updateReview; deleteReview; markReviewHelpful ].

(** ** Further sample data *)

Definition book_at (oid author : string) (published : Z) : doc :=
  {[ "_id" := VId oid; "title" := VStr "A book"; "author" := VId author;
     "publisher" := VId user_d2;
     "publicationDate" := VDate published; "averageRating" := num 0; "ratingCount" := num 0 ]}.

Definition author_at (oid last : string) (genres : list string) (st : string) : doc :=
  {[ "_id" := VId oid; "firstName" := VStr "A"; "lastName" := VStr last;
     "genres" := VStrs genres; "status" := VStr st ]}.

Definition publisher_at (oid name : string) (genres : list string) (st : string) : doc :=
  {[ "_id" := VId oid; "name" := VStr name; "genres" := VStrs genres; "status" := VStr st ]}.

Definition library_store : store :=
  {| reviews := [ review_at review_e1 "author" author_c1 4 "Published" 10;
                  review_at review_e2 "author" author_c1 1 "Flagged" 20;
                  review_at review_e3 "author" author_c1 5 "Published" 30 ];
     books := [ book_at book_b1 author_c1 100; book_at review_e1 user_d1 300;
                book_at review_e2 author_c1 200 ];
     authors := [ author_at author_c1 "Herbert" ["Fiction"; "Science Fiction"] "Active";
                  author_at user_d1 "Asimov" ["Science Fiction"] "Deceased";
                  author_at user_d2 "Banks" ["Science Fiction"] "Retired" ];
     publishers := [ publisher_at user_d1 "Ace" ["Fantasy"] "Active";
                     publisher_at user_d2 "Orbit" ["Fantasy"] "Defunct" ];
     errlog := [] |}.

(** The sample backend with a regular-expression engine that rejects the
    pattern of one open parenthesis. *)
Definition env_strict : env := {|
  readyState := 1; now := 1000; currentYear := 2026;
  newObjectId := review_e1;
  regexp_valid := fun s => negb (bool_decide (s = "("));
  regexp_test := fun _ _ => true;
  text_search := fun _ _ => true;
  fault := no_fault |}.

(** A library that gives back what it signed and takes nothing else. *)
Definition sample_auth : auth_env := {|
  sign := fun _ => "signed";
  verify := fun t => if bool_decide (t = "signed")
                     then Some {[ "id" := VStr "g-1"; "email" := VStr "a@b.cd";
                                  "name" := VStr "Ann"; "iat" := num 1; "exp" := num 2 ]}
                     else None;
  to_text := fun _ => "" |}.

Definition sample_user : doc :=
  {[ "googleId" := VStr "g-1"; "email" := VStr "a@b.cd"; "name" := VStr "Ann";
     "role" := VStr "admin" ]}.

(** * Properties *)

(** ** JavaScript helpers *)

Example parseInt_samples :
  parseInt (Some "42") (Some 10) = Some 42 /\
  parseInt (Some " -7px") (Some 10) = Some (-7) /\
  parseInt (Some "abc") (Some 10) = None /\
  parseInt None (Some 10) = None /\
  parseInt (Some "0x1F") None = Some 31 /\
  parseInt (Some "0x1F") (Some 10) = Some 0 /\
  or_default (parseInt (Some "0") (Some 10)) 10 = 10 /\
  ceil_div 5 2 = 3 /\ ceil_div 4 2 = 2 /\ ceil_div 0 10 = 0.
Proof. repeat split; reflexivity. Qed.

(** White space of two and three bytes is skipped by [parseInt] and
    removed by [trim]: a no-break space, then U+2003 and U+FEFF. *)
Example unicode_space_samples :
  let nbsp := String (ascii_of_nat 194) (String (ascii_of_nat 160) "") in
  let em := String (ascii_of_nat 226) (String (ascii_of_nat 128) (String (ascii_of_nat 131) "")) in
  let bom := String (ascii_of_nat 239) (String (ascii_of_nat 187) (String (ascii_of_nat 191) "")) in
  parseInt (Some (nbsp +:+ em +:+ "5")) (Some 10) = Some 5 /\
  trim (nbsp +:+ " a b " +:+ bom +:+ em) = "a b" /\
  trim (em +:+ nbsp) = "".
Proof. repeat split; reflexivity. Qed.

Lemma bindE_inr {A B} (m : res A) (k : A -> res B) b :
  bindE m k = inr b -> exists a, m = inr a /\ k a = inr b.
Proof. destruct m; simpl; [done|eauto]. Qed.

Lemma guard_healthy e M o : healthy e M -> guard e (mname M) o = inr ().
Proof. intros H. unfold guard. by rewrite H. Qed.

(** *** Strings that name an id *)

Lemma castObjectId_hex s : isObjectIdString s = true -> castObjectId s = Some (lowercase s).
Proof. intros H. unfold castObjectId. by rewrite H. Qed.

Lemma castId_string s oid : castObjectId s = Some oid -> castId (VStr s) = inr oid.
Proof. intros H. simpl. by rewrite H. Qed.

Lemma castId_malformed s : castObjectId s = None -> castId (VStr s) = inl CastError.
Proof. intros H. simpl. by rewrite H. Qed.

Lemma cast_id_string s oid :
  castObjectId s = Some oid -> cast TObjectId (VStr s) = Some (VId oid).
Proof. intros H. simpl. by rewrite H. Qed.

Lemma cast_id_malformed s : castObjectId s = None -> cast TObjectId (VStr s) = None.
Proof. intros H. simpl. by rewrite H. Qed.

(** Characters of one byte are one code unit each. *)
Lemma js_length_bytes s :
  forallb is_byte_char (chars s) = true -> js_length s = String.length s.
Proof.
  unfold js_length. induction s as [|c r IH]; simpl; [done|].
  intros [Hc Hr]%andb_true_iff. rewrite (IH Hr).
  unfold is_byte_char in Hc. unfold units. by rewrite Hc.
Qed.

(** A string that is neither 24 hex digits nor 12 code units long names no id. *)
Lemma castObjectId_malformed s :
  isObjectIdString s = false -> js_length s <> 12%nat -> castObjectId s = None.
Proof.
  intros H24 H12. unfold castObjectId. rewrite H24.
  destruct (String.length s =? 12)%nat eqn:El; [|done].
  destruct (forallb is_byte_char (chars s)) eqn:Eb; [|done].
  apply Nat.eqb_eq in El. rewrite js_length_bytes in H12 by done. done.
Qed.

(** The spellings of one id, the id of twelve letters, and a string that is
    no id. *)
Example castObjectId_samples :
  castObjectId "0000000000000000000000B1" = Some "0000000000000000000000b1" /\
  castObjectId "0000000000000000000000b1" = Some "0000000000000000000000b1" /\
  castObjectId "abcdefghijkl" = Some "6162636465666768696a6b6c" /\
  castObjectId "42" = None /\
  castObjectId "00000000000000000000000g" = None.
Proof. repeat split; reflexivity. Qed.

Example js_length_samples :
  js_length "abc" = 3%nat /\
  js_length (String (ascii_of_nat 195) (String (ascii_of_nat 169) "")) = 1%nat /\
  js_length (String (ascii_of_nat 240) (String (ascii_of_nat 159)
              (String (ascii_of_nat 152) (String (ascii_of_nat 128) "")))) = 2%nat.
Proof. repeat split; reflexivity. Qed.

(** ** Sorting *)

Lemma insert_sorted_perm so d l : Permutation (insert_sorted so d l) (d :: l).
Proof.
  induction l as [|x r IH]; simpl; [reflexivity|].
  destruct (doc_le so d x); [reflexivity|].
  rewrite IH. apply perm_swap.
Qed.

Lemma sort_docs_perm so l : Permutation (sort_docs so l) l.
Proof.
  induction l as [|x r IH]; simpl; [reflexivity|].
  rewrite insert_sorted_perm. by constructor.
Qed.

Lemma sort_docs_length so l : length (sort_docs so l) = length l.
Proof. apply Permutation_length, sort_docs_perm. Qed.

Lemma bool_compare_antisym a b : Bool.compare b a = CompOpp (Bool.compare a b).
Proof. by destruct a, b. Qed.

Lemma cmp_value_antisym a b : cmp_value b a = CompOpp (cmp_value a b).
Proof.
  destruct a as [[]|], b as [[]|]; simpl; try reflexivity;
    first [ apply Z.compare_antisym | apply bool_compare_antisym
          | apply String.compare_antisym | symmetry; apply Qcompare_antisym ].
Qed.

Lemma doc_cmp_antisym so a b : doc_cmp so b a = CompOpp (doc_cmp so a b).
Proof.
  induction so as [|[f dir] r IH]; simpl; [reflexivity|].
  rewrite (cmp_value_antisym (sort_key dir (a !! f)) (sort_key dir (b !! f))).
  destruct (cmp_value (sort_key dir (a !! f)) (sort_key dir (b !! f))), (dir <? 0);
    simpl; auto.
Qed.

(** The order of a sort specification is total. *)
Lemma doc_le_total so a b : doc_le so a b = false -> doc_le so b a = true.
Proof.
  unfold doc_le. rewrite (doc_cmp_antisym so a b).
  by destruct (doc_cmp so a b).
Qed.

Lemma insert_sorted_HdRel so d x l :
  doc_le so x d = true -> HdRel (fun a b => doc_le so a b = true) x l ->
  HdRel (fun a b => doc_le so a b = true) x (insert_sorted so d l).
Proof.
  intros Hxd H. destruct l as [|y r]; simpl; [by constructor|].
  destruct (doc_le so d y); constructor; [done|]. by inversion H.
Qed.

Lemma insert_sorted_sorted so d l : sorted_by so l -> sorted_by so (insert_sorted so d l).
Proof.
  induction 1 as [|x r Hs IH Hhd]; simpl.
  - repeat constructor.
  - destruct (doc_le so d x) eqn:E.
    + constructor; [by constructor|by constructor].
    + constructor; [done|]. apply insert_sorted_HdRel; [|done]. by apply doc_le_total.
Qed.

(** [.sort(so)] returns its input, reordered and in order. *)
Lemma sort_docs_sorted so l : sorted_by so (sort_docs so l).
Proof.
  induction l; simpl; [constructor|]. by apply insert_sorted_sorted.
Qed.

Lemma Sorted_weaken {A} (Q : A -> Prop) (R R' : A -> A -> Prop) l :
  (forall a b, Q a -> Q b -> R a b -> R' a b) ->
  Forall Q l -> Sorted R l -> Sorted R' l.
Proof.
  intros Himp HQ Hs. induction Hs as [|x r Hs IH Hhd]; [constructor|].
  apply Forall_cons in HQ as [Hx Hr]. constructor; [by apply IH|].
  destruct Hhd as [|y r' Hxy]; constructor.
  apply Forall_cons in Hr as [Hy _]. by apply Himp.
Qed.

Lemma filter_Forall {A} (Q : A -> Prop) f (l : list A) :
  Forall Q l -> Forall Q (List.filter f l).
Proof.
  rewrite !Forall_forall.
  intros H x Hx%list_elem_of_In%filter_In. apply H, list_elem_of_In, Hx.
Qed.

(** ** Paging *)

Lemma ceil_div_bound a b : 0 < b -> a <= b * ceil_div a b.
Proof.
  intros Hb. unfold ceil_div.
  pose proof (Z.mul_div_le (- a) b Hb). lia.
Qed.


(** A page holds at most [|limit|] documents. *)
Lemma window_length skip limit (l page : list doc) :
  limit <> 0 -> window skip limit l = inr page -> Z.of_nat (length page) <= Z.abs limit.
Proof.
  unfold window. intros Hl. destruct (skip <? 0); [done|].
  destruct (limit =? 0) eqn:E; [lia|]. intros [= <-].
  rewrite length_take. lia.
Qed.

Lemma getAll_connected R e req st :
  readyState e = 1 ->
  getAll R e req st =
  paged_list e (model_of R) (query_of R e (query req)) (sortOptions_of R (query req))
    (query req) st.
Proof.
  intros H. destruct R; simpl;
    unfold getAllBooks, getAllAuthors, getAllPublishers, getAllReviews, connected;
    by rewrite H.
Qed.

Lemma filtered_inv R e q st docs :
  filtered R e q st = inr docs ->
  exists f f', query_of R e q = inr f /\
               cast_query (mschema (model_of R) e) f = inr f' /\
               docs = select e (model_of R) f' st.
Proof.
  unfold filtered. destruct (query_of R e q) as [x|f]; simpl; [done|].
  destruct (cast_query _ f) as [x|f'] eqn:Hc; simpl; [done|].
  intros [= <-]. exists f, f'. auto.
Qed.

(** The response of a list handler in terms of the filtered result set. *)
Lemma paged_list_filtered R e q so st docs :
  healthy e (model_of R) ->
  filtered R e q st = inr docs ->
  paged_list e (model_of R) (query_of R e q) so q st =
  match window (startIndex_of q) (limit_of q) (sort_docs so docs) with
  | inr page =>
      ok_list page
        (Some {| Pagination.current := page_of q;
                 Pagination.total := ceil_div (Z.of_nat (length docs)) (limit_of q);
                 Pagination.count := Z.of_nat (length page) |}) None
  | inl _ => server_error
  end.
Proof.
  intros Hh (f & f' & Hq & Hc & ->)%filtered_inv.
  unfold paged_list, Model_countDocuments, Model_find.
  rewrite Hq. simpl. rewrite Hc. simpl.
  rewrite !guard_healthy by done. simpl.
  by destruct (window _ _ _).
Qed.




(** ** Page size *)

(** Without a [limit] the page size is 10. *)
Lemma limit_absent (q : gmap string string) : q !! "limit" = None -> limit_of q = 10.
Proof. intros H. unfold limit_of. by rewrite H. Qed.

(** The page size is never zero. *)
Lemma limit_nonzero (q : gmap string string) : limit_of q <> 0.
Proof.
  unfold limit_of, or_default.
  destruct (parseInt (q !! "limit") (Some 10)) as [[]|]; lia.
Qed.

(** C7. [GET /api/reviews?limit=101] over 101 reviews: the limit is above
    the documented maximum of 100, the request is served, and the page
    carries 101 items. *)
Theorem limit_above_maximum_served :
  let req := get_request {[ "limit" := "101" ]} in
  limit_of (query req) = 101 /\ limit_max < limit_of (query req) /\
  status (getAll Reviews env0 req (store_of_reviews 101)) = 200 /\
  count (getAll Reviews env0 req (store_of_reviews 101)) = Some 101.
Proof. vm_compute. repeat split; congruence. Qed.

(** ** Sort options *)

(** Without a [sortBy] every list handler uses its default sort. *)
Lemma sortBy_absent (R : resource) (q : gmap string string) :
  param q "sortBy" = None -> sortOptions_of R q = default_sort R.
Proof.
  intros H. destruct R; simpl;
    unfold books_sortOptions, authors_sortOptions, publishers_sortOptions,
      reviews_sortOptions; by rewrite H.
Qed.

(** C5, as stated, fails: [sortBy=popularity] is in no allow-list; the
    reviews handler then sorts by [createdAt] ascending, which is not its
    default (descending), and the books handler sorts by [popularity]. *)
Lemma sortBy_unknown_counterexample :
  let q : gmap string string := {[ "sortBy" := "popularity" ]} in
  param q "sortBy" = Some "popularity" /\
  ("popularity" ∉ sortBy_valid Reviews) /\
  sortOptions_of Reviews q = [("createdAt", 1)] /\
  sortOptions_of Reviews q <> default_sort Reviews /\
  ("popularity" ∉ sortBy_valid Books) /\
  sortOptions_of Books q = [("popularity", 1)] /\
  sortOptions_of Books q <> default_sort Books.
Proof. repeat split; try reflexivity; try discriminate; decide_closed. Qed.

(** C5, amended. For reviews and authors, a [sortBy] outside the allow-list
    of the resource is never the sort field: the sort is by [createdAt], in
    the direction [sortOrder] gives (descending for [desc], ascending
    otherwise). *)
Theorem sortBy_unknown_reviews_authors (R : resource) (q : gmap string string) (s : string) :
  R = Reviews \/ R = Authors ->
  param q "sortBy" = Some s ->
  s ∉ sortBy_valid R ->
  sortOptions_of R q = [("createdAt", direction q)] /\
  (s ∉ map fst (sortOptions_of R q)).
Proof.
  intros HR Hs Hn.
  assert (sortOptions_of R q = [("createdAt", direction q)]) as ->.
  { destruct HR as [-> | ->]; simpl in *;
      unfold reviews_sortOptions, authors_sortOptions; rewrite Hs;
      repeat case_bool_decide; subst; try reflexivity;
      exfalso; apply Hn; set_solver. }
  split; [done|]. simpl. intros ->%list_elem_of_singleton.
  apply Hn. destruct HR as [-> | ->]; set_solver.
Qed.

Lemma sortBy_unknown_reviews_authors_witness :
  let q : gmap string string := {[ "sortBy" := "popularity"; "sortOrder" := "desc" ]} in
  param q "sortBy" = Some "popularity" /\
  ("popularity" ∉ sortBy_valid Reviews) /\
  sortOptions_of Reviews q = [("createdAt", direction q)] /\
  ("popularity" ∉ map fst (sortOptions_of Reviews q)).
Proof.
  intros q.
  assert (H1 : Reviews = Reviews \/ Reviews = Authors) by (by left).
  assert (H2 : param q "sortBy" = Some "popularity") by reflexivity.
  assert (H3 : "popularity" ∉ sortBy_valid Reviews) by decide_closed.
  split; [exact H2|]. split; [exact H3|].
  exact (sortBy_unknown_reviews_authors Reviews q "popularity" H1 H2 H3).
Defined.

(** ** A backend that is not connected *)

Lemma disconnected e : readyState e <> 1 -> connected e = false.
Proof. intros H. unfold connected. by apply Z.eqb_neq. Qed.

(** C8. While the connection is not in the connected state, every list
    handler answers 200 with an empty result set and the explanatory
    message, and every mutation handler answers 503 with an error and
    leaves the store untouched. *)
Theorem backend_unavailable (e : env) (req : request) (st : store) :
  readyState e <> 1 ->
  Forall (fun h => degraded (h e req st)) list_handlers /\
  Forall (fun h => refused st (h e req st)) mutation_handlers.
Proof.
  intros H%disconnected. split.
  - repeat constructor;
      unfold getAllBooks, getBooksByAuthor, getAllAuthors, getAuthorsByGenre,
        getAllPublishers, getPublishersByGenre, getPublisherBooks, getAllReviews,
        getReviewsByBook, getReviewsByAuthor; rewrite H; reflexivity.
  - repeat constructor;
      unfold createBook, updateBook, deleteBook, createAuthor, updateAuthor, deleteAuthor,
        createPublisher, updatePublisher, deletePublisher, create_handler, update_handler,
        delete_handler, createReview, updateReview, deleteReview, markReviewHelpful;
      rewrite H; simpl; eauto.
Qed.

Lemma backend_unavailable_witness :
  readyState env_down <> 1 /\
  Forall (fun h => degraded (h env_down (get_request ∅) (rated_store []))) list_handlers /\
  Forall (fun h => refused (rated_store []) (h env_down (get_request ∅) (rated_store [])))
    mutation_handlers.
Proof.
  assert (H : readyState env_down <> 1) by (simpl; lia).
  split; [exact H|].
  exact (backend_unavailable env_down (get_request ∅) (rated_store []) H).
Defined.

(** ** The reviews of a book *)

Lemma conforms_path S d p :
  conforms S d -> In p (schema_paths S) ->
  from_option (has_type (ptyp p)) true (d !! pname p) = true.
Proof.
  intros H Hin. unfold conforms in H. rewrite Forall_forall in H.
  by apply H, list_elem_of_In.
Qed.

Lemma match_eq_id stored oid :
  match_eq stored (VId oid) = bool_decide (stored = Some (VId oid)).
Proof.
  destruct stored as [[]|]; simpl; try reflexivity;
    apply bool_decide_ext; split; congruence.
Qed.

Lemma match_eq_status d s :
  conforms reviewSchema d ->
  match_eq (d !! "status") (VStr s) = bool_decide (d !! "status" = Some (VStr s)).
Proof.
  intros H.
  pose proof (conforms_path _ _ (P "status" TString
    [Enum ["Published"; "Pending"; "Hidden"; "Flagged"]; Default (VStr "Published")]) H) as Hs.
  simpl in Hs. specialize (Hs ltac:(tauto)).
  destruct (d !! "status") as [[]|]; simpl in *; try discriminate; try reflexivity;
    apply bool_decide_ext; split; congruence.
Qed.

(** On reviews, the order of [{ createdAt: -1 }] is newest first. *)
Lemma newest_first_doc_le a b :
  conforms reviewSchema a -> conforms reviewSchema b ->
  doc_le [("createdAt", -1)] a b = true -> newest_first a b.
Proof.
  intros Ha Hb.
  pose proof (conforms_path _ _ (P "createdAt" TDate [DefaultNow]) Ha) as Hca.
  pose proof (conforms_path _ _ (P "createdAt" TDate [DefaultNow]) Hb) as Hcb.
  simpl in Hca, Hcb. specialize (Hca ltac:(tauto)). specialize (Hcb ltac:(tauto)).
  unfold doc_le, newest_first, created. simpl.
  destruct (a !! "createdAt") as [[]|], (b !! "createdAt") as [[]|];
    simpl in *; try discriminate; try done.
  destruct (t ?= t0) eqn:E; simpl; try done.
  - apply Z.compare_eq in E. lia.
  - apply Z.compare_gt_iff in E. lia.
Qed.

Lemma newest_first_trans : Relations_1.Transitive newest_first.
Proof.
  intros a b c. unfold newest_first.
  destruct (created a), (created b), (created c); try done. lia.
Qed.

(** C10. On a connected backend that rejects no call and whose stored
    reviews conform to their schema, the listing of a book, for a [bookId]
    that names an id [oid] in any spelling (24 hex digits in either case,
    or 12 characters of one byte), is a reordering of exactly the stored
    reviews whose book is [oid] and whose status is Published, it is sorted
    newest first, and it holds no review of any other status. *)
Theorem reviews_by_book (e : env) (req : request) (st : store) (bookId oid : string) :
  readyState e = 1 ->
  reliable e ->
  params req !! "bookId" = Some bookId ->
  castObjectId bookId = Some oid ->
  reviews_conform st ->
  exists found,
    getReviewsByBook e req st = ok_list found None None /\
    Permutation found (List.filter (published_review_of "book" oid) (reviews st)) /\
    StronglySorted newest_first found /\
    Forall (fun d => d !! "status" = Some (VStr "Published")) found.
Proof.
  intros Hc Hr Hp Hid Hconf. unfold reviews_conform in Hconf.
  assert (Hh : healthy e Review) by (intros o; apply Hr).
  set (wanted := List.filter (published_review_of "book" oid) (reviews st)).
  assert (Hsel : select e Review
            [CField "book" (CEq (VId oid)); CField "status" (CEq (VStr "Published"))] st
          = wanted).
  { unfold select, wanted. simpl. apply filter_ext_in. intros d Hd.
    unfold matches, published_review_of. simpl.
    rewrite match_eq_id, match_eq_status, andb_true_r; [done|].
    rewrite Forall_forall in Hconf. by apply Hconf, list_elem_of_In. }
  exists (sort_docs [("createdAt", -1)] wanted).
  assert (Hw : Forall (conforms reviewSchema) (sort_docs [("createdAt", -1)] wanted)).
  { rewrite (sort_docs_perm _ wanted). by apply filter_Forall. }
  repeat split.
  - unfold getReviewsByBook, connected, Model_find, route_param.
    rewrite Hc, Hp. cbn [cast_query cast_clause cast_cond bindE]. unfold cast_operand.
    change (path_type (mschema Review e) "book") with (Some TObjectId).
    change (path_type (mschema Review e) "status") with (Some TString).
    cbv iota. rewrite (cast_id_string bookId oid Hid). simpl.
    rewrite (guard_healthy e Review) by done. simpl. by rewrite Hsel.
  - apply sort_docs_perm.
  - apply Sorted_StronglySorted; [apply newest_first_trans|].
    eapply Sorted_weaken; [|exact Hw|apply sort_docs_sorted].
    intros a b Ha Hb. by apply newest_first_doc_le.
  - rewrite (sort_docs_perm _ wanted). unfold wanted.
    rewrite Forall_forall. intros d Hd%list_elem_of_In%filter_In.
    destruct Hd as [_ Hd]. unfold published_review_of in Hd.
    apply andb_true_iff in Hd as [_ Hd]. by apply bool_decide_eq_true in Hd.
Qed.

(** Three reviews of one book, the second one hidden; the request spells
    the id of the book in upper case. *)
Lemma reviews_by_book_witness :
  exists found,
    getReviewsByBook env0 (request_for "bookId" "0000000000000000000000B1" ∅) listing_store
      = ok_list found None None /\
    Permutation found
      (List.filter (published_review_of "book" book_b1) (reviews listing_store)) /\
    StronglySorted newest_first found /\
    Forall (fun d => d !! "status" = Some (VStr "Published")) found.
Proof.
  apply (reviews_by_book env0 (request_for "bookId" "0000000000000000000000B1" ∅)
           listing_store "0000000000000000000000B1" book_b1).
  - reflexivity.
  - intros name o. reflexivity.
  - reflexivity.
  - reflexivity.
  - unfold reviews_conform. repeat constructor.
Defined.

(** What the listing of the sample store is: the newest review first, the
    hidden one left out. *)
Example reviews_by_book_sample :
  data (getReviewsByBook env0 (request_for "bookId" book_b1 ∅) listing_store)
  = Docs [ review_at review_e3 "book" book_b1 5 "Published" 30;
           review_at review_e1 "book" book_b1 4 "Published" 10 ] /\
  getReviewsByBook env0 (request_for "bookId" "0000000000000000000000B1" ∅) listing_store
  = getReviewsByBook env0 (request_for "bookId" book_b1 ∅) listing_store.
Proof. split; vm_compute; reflexivity. Qed.

(** A string that names no id is answered as not found. *)
Lemma reviews_by_book_malformed (e : env) (req : request) (st : store) (s : string) :
  readyState e = 1 ->
  params req !! "bookId" = Some s ->
  castObjectId s = None ->
  getReviewsByBook e req st = fail 404 "Book not found".
Proof.
  intros Hc Hp Hid. unfold getReviewsByBook, connected, Model_find, route_param.
  rewrite Hc, Hp. cbn [cast_query cast_clause cast_cond bindE]. unfold cast_operand.
  change (path_type (mschema Review e) "book") with (Some TObjectId).
  cbv iota. by rewrite (cast_id_malformed s Hid).
Qed.

(** ** The aggregate maintainer *)

Lemma find_replace_doc oid d' l :
  has_id oid d' = true -> is_Some (List.find (has_id oid) l) ->
  List.find (has_id oid) (replace_doc oid d' l) = Some d'.
Proof.
  intros Hd. induction l as [|x r IH]; simpl; [by intros [? ?]|].
  destruct (has_id oid x) eqn:E; simpl; [by rewrite Hd|]. by rewrite E.
Qed.

Lemma replace_doc_same_but k oid d d' l :
  same_but k d d' -> List.find (has_id oid) l = Some d ->
  Forall2 (same_but k) l (replace_doc oid d' l).
Proof.
  intros Hd. induction l as [|x r IH]; simpl; [done|].
  destruct (has_id oid x).
  - intros [= ->]. constructor; [done|]. apply Forall2_same_length_lookup_2; [done|].
    intros i a b Ha Hb. assert (a = b) as -> by congruence. by intros f _.
  - intros H. constructor; [by intros f _|]. by apply IH.
Qed.

Lemma Forall2_same_but_refl k l : Forall2 (same_but k) l l.
Proof. induction l; constructor; [by intros f _|done]. Qed.

Lemma avg_rating_cast l : cast TNumber (avg_rating l) = Some (avg_rating l).
Proof. unfold avg_rating. by destruct (omap rating_of l). Qed.

(** What is left of the update of a recomputation after the casting of the
    Book model: the two aggregate fields and the timestamp. *)
Lemma book_update_cast t a n :
  cast TNumber a = Some a ->
  cast_update bookSchema
    (<["updatedAt" := VDate t]> {[ "averageRating" := a; "ratingCount" := num n ]})
  = inr {[ "averageRating" := a; "ratingCount" := num n; "updatedAt" := VDate t ]}.
Proof. intros H. destruct a; try discriminate; by vm_compute. Qed.

(** What is left of it after the casting of the Author model: the
    timestamp alone. *)
Lemma author_update_cast t g :
  cast_update authorSchema (<["updatedAt" := VDate t]> (rating_update g))
  = inr {[ "updatedAt" := VDate t ]}.
Proof. vm_compute. reflexivity. Qed.

(** The book-side recomputation writes to the books only. *)
Lemma calculateBookRating_frame e id st st' :
  calculateBookRating e id st = inr st' ->
  reviews st' = reviews st /\ authors st' = authors st /\
  publishers st' = publishers st /\ errlog st' = errlog st.
Proof.
  unfold calculateBookRating. intros H.
  apply bindE_inr in H as (oid & _ & H).
  apply bindE_inr in H as (result & _ & H).
  destruct result as [|g gs]; [by injection H as <-|].
  apply bindE_inr in H as ([st1 o] & H & [= <-]).
  unfold Model_findByIdAndUpdate in H.
  apply bindE_inr in H as (oid' & _ & H).
  apply bindE_inr in H as (upd & _ & H).
  apply bindE_inr in H as (? & _ & H).
  destruct (List.find _ _); [|by injection H as <-].
  destruct (violates _ _ _); [done|]. by injection H as <-.
Qed.

(** The author-side recomputation leaves everything as it was, up to the
    [updatedAt] of authors. *)
Lemma calculateAuthorRating_frame e id st st' :
  calculateAuthorRating e id st = inr st' ->
  reviews st' = reviews st /\ books st' = books st /\
  publishers st' = publishers st /\ errlog st' = errlog st /\
  Forall2 (same_but "updatedAt") (authors st) (authors st').
Proof.
  intros H. unfold calculateAuthorRating in H.
  apply bindE_inr in H as (oid & _ & H).
  apply bindE_inr in H as (result & _ & H).
  destruct result as [|g gs].
  { injection H as <-. repeat split; try done. apply Forall2_same_but_refl. }
  apply bindE_inr in H as ([st1 o] & H & [= <-]).
  unfold Model_findByIdAndUpdate in H.
  apply bindE_inr in H as (oid' & _ & H).
  change (timestamps (mschema Author e)) with true in H. cbv iota in H.
  change (mschema Author e) with authorSchema in H.
  rewrite author_update_cast in H.
  apply bindE_inr in H as (upd & [= <-] & H).
  cbv iota in H.
  apply bindE_inr in H as (? & _ & H).
  change (mget Author st) with (authors st) in H.
  destruct (List.find (has_id oid') (authors st)) as [d|] eqn:Hfind.
  - change (munique Author) with (@nil uindex) in H. simpl violates in H.
    injection H as <-. simpl. repeat split; try done.
    eapply replace_doc_same_but; [|done].
    intros f Hf. rewrite lookup_union, lookup_singleton_ne by done.
    by destruct (d !! f).
  - injection H as <-. repeat split; try done. apply Forall2_same_but_refl.
Qed.

(** The [try] block of the hooks touches neither the reviews nor the log. *)
Lemma try_update_ratings_frame e d st :
  reviews (fst (try_update_ratings e d st)) = reviews st /\
  errlog (fst (try_update_ratings e d st)) = errlog st.
Proof.
  unfold try_update_ratings.
  destruct (if truthy (d !! "book") then _ else _) as [x|st1] eqn:H1; [done|].
  assert (reviews st1 = reviews st /\ errlog st1 = errlog st) as [<- <-].
  { destruct (truthy (d !! "book")); [|by injection H1 as <-].
    by apply calculateBookRating_frame in H1 as (? & _ & _ & ?). }
  destruct (if truthy (d !! "author") then _ else _) as [x|st2] eqn:H2; [done|].
  destruct (truthy (d !! "author")); [|by injection H2 as <-].
  by apply calculateAuthorRating_frame in H2 as (? & _ & _ & ? & _).
Qed.

Lemma update_ratings_reviews msg e d st : reviews (update_ratings msg e d st) = reviews st.
Proof.
  unfold update_ratings. pose proof (try_update_ratings_frame e d st) as [H _].
  by destruct (try_update_ratings e d st) as [st' [x|]].
Qed.


(** Without a Published review of the target the recomputation writes
    nothing, whatever the target holds. *)
Lemma recompute_without_published e bookId st oid :
  ObjectId bookId = inr oid -> published_for "book" oid st = [] ->
  calculateBookRating e bookId st = inr st \/
  calculateBookRating e bookId st = inl StorageError.
Proof.
  intros Ho Hp. unfold calculateBookRating, aggregate_rating, guard.
  rewrite Ho. simpl. destruct (fault e "Review" OpAggregate); simpl; [by right|].
  rewrite Hp. by left.
Qed.

(** With at least one Published review of an existing book, a
    recomputation that completes stores their mean (the exact one, see the
    conventions) and their number on the book and leaves the reviews as
    they were. *)
Lemma recompute_writes_mean (e : env) (oid : string) (st st' : store) (b : doc) :
  published_for "book" oid st <> [] ->
  List.find (has_id oid) (books st) = Some b ->
  calculateBookRating e (VId oid) st = inr st' ->
  reviews st' = reviews st /\
  exists b', List.find (has_id oid) (books st') = Some b' /\
    b' !! "averageRating" = Some (avg_rating (published_for "book" oid st)) /\
    b' !! "ratingCount" = Some (num (Z.of_nat (length (published_for "book" oid st)))).
Proof.
  intros Hne Hb H. split; [by apply calculateBookRating_frame in H as (? & _)|].
  unfold calculateBookRating in H. cbn [ObjectId bindE] in H.
  unfold aggregate_rating in H.
  apply bindE_inr in H as (result & Hr & H).
  apply bindE_inr in Hr as (? & _ & Hr).
  destruct (published_for "book" oid st) as [|r0 rs] eqn:Hp; [done|].
  injection Hr as <-.
  apply bindE_inr in H as ([st1 o] & H & [= <-]).
  unfold Model_findByIdAndUpdate in H. cbn [castId bindE] in H.
  change (mschema Book e) with bookSchema in H.
  change (timestamps bookSchema) with true in H. cbv iota in H.
  unfold rating_update in H. cbn [averageRating ratingCount] in H.
  rewrite book_update_cast in H by apply avg_rating_cast.
  cbn [bindE] in H. cbv iota in H.
  apply bindE_inr in H as (? & _ & H).
  change (mget Book st) with (books st) in H. rewrite Hb in H.
  destruct (violates _ _ _); [done|]. injection H as <- <-.
  eexists. split; [|split].
  - cbn [fst]. change (books (mset Book ?l st)) with l.
    apply find_replace_doc; [|by rewrite Hb].
    apply find_some in Hb as [_ Hb]. unfold has_id in *.
    apply bool_decide_eq_true in Hb. apply bool_decide_eq_true.
    rewrite lookup_union_r; [done|]. by vm_compute.
  - apply lookup_union_Some_l. reflexivity.
  - apply lookup_union_Some_l. reflexivity.
Qed.

(** X1. With at least one Published review of an existing book, a
    recomputation that completes stores their number as [ratingCount] of
    the book, an [averageRating] and the time of the call as [updatedAt];
    every other field of the book and the reviews are as they were. *)
Theorem recompute_writes_count (e : env) (oid : string) (st st' : store) (b : doc) :
  published_for "book" oid st <> [] ->
  List.find (has_id oid) (books st) = Some b ->
  calculateBookRating e (VId oid) st = inr st' ->
  reviews st' = reviews st /\
  exists b', List.find (has_id oid) (books st') = Some b' /\
    b' !! "ratingCount" = Some (num (Z.of_nat (length (published_for "book" oid st)))) /\
    is_Some (b' !! "averageRating") /\
    b' !! "updatedAt" = Some (VDate (now e)) /\
    (forall k, k <> "ratingCount" -> k <> "averageRating" -> k <> "updatedAt" ->
       b' !! k = b !! k).
Proof.
  intros Hne Hb H. split; [by apply calculateBookRating_frame in H as (? & _)|].
  unfold calculateBookRating in H. cbn [ObjectId bindE] in H.
  unfold aggregate_rating in H.
  apply bindE_inr in H as (result & Hr & H).
  apply bindE_inr in Hr as (? & _ & Hr).
  destruct (published_for "book" oid st) as [|r0 rs] eqn:Hp; [done|].
  injection Hr as <-.
  apply bindE_inr in H as ([st1 o] & H & [= <-]).
  unfold Model_findByIdAndUpdate in H. cbn [castId bindE] in H.
  change (mschema Book e) with bookSchema in H.
  change (timestamps bookSchema) with true in H. cbv iota in H.
  unfold rating_update in H. cbn [averageRating ratingCount] in H.
  rewrite book_update_cast in H by apply avg_rating_cast.
  cbn [bindE] in H. cbv iota in H.
  apply bindE_inr in H as (? & _ & H).
  change (mget Book st) with (books st) in H. rewrite Hb in H.
  destruct (violates _ _ _); [done|]. injection H as <- <-.
  eexists. split; [|split; [|split; [|split]]].
  - cbn [fst]. change (books (mset Book ?l st)) with l.
    apply find_replace_doc; [|by rewrite Hb].
    apply find_some in Hb as [_ Hb]. unfold has_id in *.
    apply bool_decide_eq_true in Hb. apply bool_decide_eq_true.
    rewrite lookup_union_r; [done|]. by vm_compute.
  - apply lookup_union_Some_l. reflexivity.
  - eexists. apply lookup_union_Some_l. reflexivity.
  - apply lookup_union_Some_l. reflexivity.
  - intros k H1 H2 H3. rewrite lookup_union_r; [done|].
    rewrite !lookup_insert_ne by done. by apply lookup_singleton_ne.
Qed.

(** One Published review rated 2 on the book whose aggregate was 4 over 1. *)
Lemma recompute_writes_count_witness :
  let st := rated_store [the_review 2 "Published"] in
  exists st',
    calculateBookRating env0 (VId book_b1) st = inr st' /\
    reviews st' = reviews st /\
    exists b', List.find (has_id book_b1) (books st') = Some b' /\
      b' !! "ratingCount" = Some (num 1) /\
      is_Some (b' !! "averageRating") /\
      b' !! "updatedAt" = Some (VDate 1000) /\
      (forall k, k <> "ratingCount" -> k <> "averageRating" -> k <> "updatedAt" ->
         b' !! k = book1 4 1 !! k).
Proof.
  intros st.
  destruct (calculateBookRating env0 (VId book_b1) st) as [x|st'] eqn:H;
    [by vm_compute in H|].
  exists st'. split; [reflexivity|].
  apply (recompute_writes_count env0 book_b1 st st' (book1 4 1)).
  - vm_compute. discriminate.
  - reflexivity.
  - exact H.
Defined.

(** The create path: two Published reviews of a fresh book, rated 4 and 2,
    bring its aggregate to 4 over 1 and then to 3 over 2. *)
Example create_path_recomputes :
  let st1 := fst (createReview (sample_env 1 review_e1)
                    (post_request (review_body "book" book_b1 user_d1 4)) fresh_store) in
  let st2 := fst (createReview (sample_env 1 review_e2)
                    (post_request (review_body "book" book_b1 user_d2 2)) st1) in
  stored_rating fresh_store = Some (Some (num 0), Some (num 0)) /\
  stored_rating st1 = Some (Some (num 4), Some (num 1)) /\
  stored_rating st2 = Some (Some (num 3), Some (num 2)).
Proof. by vm_compute. Qed.

(** C2. The recomputation for a book that holds a stored aggregate of 4
    over 1 and has no Published review (none at all, or one that is Hidden)
    returns the store as it was: the aggregate stays 4 over 1. *)
Theorem stale_rating_kept :
  published_for "book" book_b1 (rated_store []) = [] /\
  calculateBookRating env0 (VId book_b1) (rated_store []) = inr (rated_store []) /\
  published_for "book" book_b1 (rated_store [the_review 4 "Hidden"]) = [] /\
  calculateBookRating env0 (VId book_b1) (rated_store [the_review 4 "Hidden"])
    = inr (rated_store [the_review 4 "Hidden"]) /\
  stored_rating (rated_store []) = Some (Some (num 4), Some (num 1)).
Proof. by vm_compute. Qed.

(** C1. A book with one Published review rated 4 and the aggregate 4 over
    1. Updating the rating to 2 through [updateReview] succeeds, the mean of
    the Published reviews becomes 2, and the stored aggregate stays 4 over
    1. Deleting the review through [deleteReview] succeeds, no review is
    left, and the stored aggregate stays 4 over 1. *)
Theorem review_mutations_leave_rating_stale :
  let upd := updateReview env0 (request_for "id" review_e1 {[ "rating" := num 2 ]})
               (rated_store [the_review 4 "Published"]) in
  let del := deleteReview env0 (request_for "id" review_e1 ∅)
               (rated_store [the_review 4 "Published"]) in
  (status (snd upd) = 200 /\
   rating_of <$> reviews (fst upd) = [Some 2%Q] /\
   avg_rating (published_for "book" book_b1 (fst upd)) = num 2 /\
   stored_rating (fst upd) = Some (Some (num 4), Some (num 1))) /\
  (status (snd del) = 200 /\
   reviews (fst del) = [] /\
   stored_rating (fst del) = Some (Some (num 4), Some (num 1))).
Proof. by vm_compute. Qed.

(** Hiding the review through [updateReview] has the same outcome. *)
Example hidden_review_still_counted :
  let upd := updateReview env0 (request_for "id" review_e1 {[ "status" := VStr "Hidden" ]})
               (rated_store [the_review 4 "Published"]) in
  status (snd upd) = 200 /\
  published_for "book" book_b1 (fst upd) = [] /\
  stored_rating (fst upd) = Some (Some (num 4), Some (num 1)).
Proof. by vm_compute. Qed.

(** [doc.remove()], which runs the remove hook, is also left with the stale
    aggregate when it removes the last Published review. *)
Example remove_hook_keeps_stale_rating :
  Review_remove env0 (the_review 4 "Published") (rated_store [the_review 4 "Published"])
  = inr (rated_store []).
Proof. by vm_compute. Qed.

(** C9, as stated, fails: an author with one Published review; the
    recomputation leaves the author with a new [updatedAt]. *)
Lemma author_recompute_counterexample :
  calculateAuthorRating env0 (VId author_c1) author_store
    = inr (set_authors [ <["updatedAt" := VDate 1000]> author1 ] author_store) /\
  <["updatedAt" := VDate 1000]> author1 <> author1.
Proof.
  split; [by vm_compute|].
  intros H. apply (f_equal (fun d : doc => d !! "updatedAt")) in H. by vm_compute in H.
Qed.

Lemma ObjectId_castId v oid : ObjectId v = inr oid -> castId v = inr oid.
Proof.
  destruct v; simpl; try done. by destruct (castObjectId s).
Qed.

(** With a Published review of a stored author, a recomputation that
    completes has set the [updatedAt] of that author to the time of the
    call. *)
Lemma calculateAuthorRating_stamps e authorId oid st st' a :
  calculateAuthorRating e authorId st = inr st' ->
  ObjectId authorId = inr oid ->
  published_for "author" oid st <> [] ->
  List.find (has_id oid) (authors st) = Some a ->
  exists a', List.find (has_id oid) (authors st') = Some a' /\
             a' !! "updatedAt" = Some (VDate (now e)).
Proof.
  intros H Ho Hne Ha. unfold calculateAuthorRating in H.
  rewrite Ho in H. cbn [bindE] in H. unfold aggregate_rating in H.
  apply bindE_inr in H as (result & Hr & H).
  apply bindE_inr in Hr as (? & _ & Hr).
  destruct (published_for "author" oid st) as [|r0 rs]; [done|].
  injection Hr as <-.
  apply bindE_inr in H as ([st1 o] & H & [= <-]).
  unfold Model_findByIdAndUpdate in H.
  rewrite (ObjectId_castId _ _ Ho) in H. cbn [bindE] in H.
  change (timestamps (mschema Author e)) with true in H. cbv iota in H.
  change (mschema Author e) with authorSchema in H.
  rewrite author_update_cast in H. cbn [bindE] in H. cbv iota in H.
  apply bindE_inr in H as (? & _ & H).
  change (mget Author st) with (authors st) in H. rewrite Ha in H.
  change (munique Author) with (@nil uindex) in H. simpl violates in H.
  injection H as <- <-. cbn [fst]. change (authors (mset Author ?l st)) with l.
  eexists. split.
  - apply find_replace_doc; [|by rewrite Ha].
    apply find_some in Ha as [_ Ha]. unfold has_id in *.
    apply bool_decide_eq_true in Ha. apply bool_decide_eq_true.
    rewrite lookup_union_r; [done|]. by apply lookup_singleton_ne.
  - apply lookup_union_Some_l. apply lookup_singleton_eq.
Qed.

(** C9, amended. The Author schema declares neither [averageRating] nor
    [ratingCount]; a recomputation for an author that completes leaves the
    reviews, the books, the publishers and the log as they were, and every
    stored author keeps every field other than [updatedAt]; when at least
    one Published review targets an author that is stored, the
    [updatedAt] of that author is set to the time of the call. *)
Theorem author_recompute_frame (e : env) (authorId : value) (st st' : store) :
  calculateAuthorRating e authorId st = inr st' ->
  declares authorSchema "averageRating" = false /\
  declares authorSchema "ratingCount" = false /\
  reviews st' = reviews st /\ books st' = books st /\
  publishers st' = publishers st /\ errlog st' = errlog st /\
  Forall2 (same_but "updatedAt") (authors st) (authors st') /\
  (forall oid a,
     ObjectId authorId = inr oid ->
     published_for "author" oid st <> [] ->
     List.find (has_id oid) (authors st) = Some a ->
     exists a', List.find (has_id oid) (authors st') = Some a' /\
                a' !! "updatedAt" = Some (VDate (now e))).
Proof.
  intros H. do 2 (split; [reflexivity|]).
  pose proof (calculateAuthorRating_frame e authorId st st' H) as (? & ? & ? & ? & ?).
  repeat split; try done.
  intros oid a Ho Hne Ha. by apply (calculateAuthorRating_stamps e authorId oid st st' a).
Qed.

(** The author of the sample store has one Published review; the stored
    [updatedAt] was 0 and the call is made at time 1000. *)
Lemma author_recompute_frame_witness :
  calculateAuthorRating env0 (VId author_c1) author_store
    = inr (set_authors [ <["updatedAt" := VDate 1000]> author1 ] author_store) /\
  Forall2 (same_but "updatedAt") (authors author_store)
    [ <["updatedAt" := VDate 1000]> author1 ] /\
  author1 !! "updatedAt" = Some (VDate 0) /\
  exists a', List.find (has_id author_c1) [ <["updatedAt" := VDate 1000]> author1 ] = Some a' /\
             a' !! "updatedAt" = Some (VDate 1000).
Proof.
  assert (H : calculateAuthorRating env0 (VId author_c1) author_store
              = inr (set_authors [ <["updatedAt" := VDate 1000]> author1 ] author_store))
    by (by vm_compute).
  split; [exact H|].
  pose proof (author_recompute_frame env0 (VId author_c1) author_store _ H)
    as (_ & _ & _ & _ & _ & _ & Hframe & Hstamp).
  split; [exact Hframe|]. split; [reflexivity|].
  apply (Hstamp author_c1 author1).
  - reflexivity.
  - vm_compute. discriminate.
  - reflexivity.
Defined.

(** Without a Published review of the author nothing at all is written. *)
Lemma author_recompute_without_published e authorId st oid :
  ObjectId authorId = inr oid -> published_for "author" oid st = [] ->
  calculateAuthorRating e authorId st = inr st \/
  calculateAuthorRating e authorId st = inl StorageError.
Proof.
  intros Ho Hp. unfold calculateAuthorRating, aggregate_rating, guard.
  rewrite Ho. simpl. destruct (fault e "Review" OpAggregate); simpl; [by right|].
  rewrite Hp. by left.
Qed.

(** ** The target of a review *)

(** What the create validation does enforce: at least one target. *)
Lemma create_validation_needs_a_target (b : doc) :
  reviewValidation_create b = [] -> is_Some (b !! "book") \/ is_Some (b !! "author").
Proof.
  unfold reviewValidation_create. intros H.
  repeat (apply app_eq_nil in H as [_ H]).
  unfold joi_or_book_author in H.
  destruct (b !! "book"); [by left|]. destruct (b !! "author"); [by right|done].
Qed.

(** A body without any target is rejected. *)
Example create_validation_rejects_no_target :
  reviewValidation_create
    {[ "title" := VStr "None"; "content" := VStr "Text"; "rating" := num 5 ]}
  = [("", "Review must be for either a book or an author")].
Proof. by vm_compute. Qed.

(** The route [POST /api/reviews] stores no review of the body that names
    both targets: the validation lets it pass and refuses every body with
    a reviewer, [createReview] sets none, and the schema requires one. *)
Example both_targets_post_refused :
  validateBody reviewValidation_create (post_request body_both) = None /\
  createReview env0 (post_request body_both) (rated_store [])
  = (rated_store [], fail 400 "Reviewer is required").
Proof. split; vm_compute; reflexivity. Qed.

(** [Review.create] on a body with a reviewer and both targets, as a
    caller of the model makes it: the schema has no rule on the pair and
    the review is stored with both. *)
Example schema_stores_both_targets :
  exists st' d,
    Model_create env0 Review (<["reviewer" := VStr user_d1]> body_both) (rated_store [])
    = inr (st', d) /\
    targets <$> reviews st' = [ (Some (VId book_b1), Some (VId author_c1)) ].
Proof. do 2 eexists. split; vm_compute; reflexivity. Qed.


(** ** Failures of the recomputation *)












(** The same creation on the rejecting backend: the review is stored, the
    answer is 201, the failure is logged and the aggregate is not written. *)
Example failed_recompute_is_logged :
  let out := createReview (with_fault env0 recompute_call)
               (post_request (review_body "book" book_b1 user_d1 4)) fresh_store in
  status (snd out) = 201 /\
  length (reviews (fst out)) = 1%nat /\
  errlog (fst out) = ["Error updating ratings after review save:"] /\
  stored_rating (fst out) = Some (Some (num 0), Some (num 0)).
Proof. by vm_compute. Qed.

(** ** Stored reviews conform to their schema *)

Lemma cast_has_type t v w : cast t v = Some w -> has_type t w = true.
Proof.
  destruct t, v; simpl; intros H; try discriminate; try (by injection H as <-).
  destruct (castObjectId s); [by injection H as <-|done].
Qed.

Lemma setters_has_type t rules v : has_type t (apply_setters rules v) = has_type t v.
Proof. by destruct t, v. Qed.

Lemma conforms_empty S : conforms S ∅.
Proof. unfold conforms. apply Forall_forall. intros p _. by rewrite lookup_empty. Qed.

Lemma conforms_insert S d p v :
  NoDup (map pname (schema_paths S)) -> p ∈ schema_paths S ->
  has_type (ptyp p) v = true -> conforms S d -> conforms S (<[pname p := v]> d).
Proof.
  intros Hnd Hp Hv Hd. unfold conforms in *. rewrite Forall_forall in *.
  intros p' Hp'. destruct (decide (pname p = pname p')) as [E|E].
  - rewrite E, lookup_insert_eq. simpl.
    assert (p = p') as <-; [|done].
    apply list_elem_of_lookup in Hp as [i Hi]. apply list_elem_of_lookup in Hp' as [j Hj].
    assert (i = j) as ->; [|congruence].
    eapply NoDup_lookup; [exact Hnd| |]; rewrite list_lookup_fmap.
    + by rewrite Hi.
    + by rewrite Hj, E.
  - rewrite lookup_insert_ne by done. by apply Hd.
Qed.

Lemma conforms_insert_undeclared S d name v :
  name ∉ map pname (schema_paths S) -> conforms S d -> conforms S (<[name := v]> d).
Proof.
  intros Hn Hd. unfold conforms in *. rewrite Forall_forall in *.
  intros p Hp. rewrite lookup_insert_ne; [by apply Hd|].
  intros ->. apply Hn. by apply list_elem_of_fmap_2.
Qed.

Lemma build_path_conforms e S body acc p :
  well_formed e S -> p ∈ schema_paths S ->
  conforms S (fst acc) -> conforms S (fst (build_path e body acc p)).
Proof.
  intros [Hnd Hdef] Hp Hacc. unfold build_path.
  destruct (body !! pname p) as [v|].
  - destruct (cast (ptyp p) v) as [w|] eqn:Hc; simpl; [|done].
    apply conforms_insert; try done.
    rewrite setters_has_type. by eapply cast_has_type.
  - rewrite Forall_forall in Hdef. specialize (Hdef p Hp).
    destruct (default_of e (prules p)) as [w|]; simpl in *.
    + by apply conforms_insert.
    + destruct (ptyp p) eqn:Ht; simpl; try done.
      apply conforms_insert; try done. by rewrite Ht.
Qed.

Lemma new_document_conforms e S body :
  well_formed e S -> conforms S (fst (new_document e S body)).
Proof.
  intros Hwf. unfold new_document.
  assert (H : forall l acc, (forall p, p ∈ l -> p ∈ schema_paths S) -> conforms S (fst acc) ->
                conforms S (fst (fold_left (build_path e body) l acc))).
  { induction l as [|p r IH]; intros acc Hl Hacc; simpl; [done|].
    apply IH; [intros q Hq; apply Hl; by right|].
    apply build_path_conforms; [done| |done]. apply Hl. by left. }
  apply H; [done|apply conforms_empty].
Qed.

Lemma reviewSchema_well_formed e : well_formed e reviewSchema.
Proof.
  split.
  - apply (bool_decide_unpack _). vm_compute. exact I.
  - repeat constructor.
Qed.

Lemma cast_update_conforms S upd u :
  NoDup (map pname (schema_paths S)) -> cast_update S upd = inr u -> conforms S u.
Proof.
  intros Hnd. unfold cast_update.
  assert (H : forall l acc u, (forall p, p ∈ l -> p ∈ schema_paths S) ->
                (forall a, acc = inr a -> conforms S a) ->
                fold_left (cast_update_path upd) l acc = inr u -> conforms S u).
  { induction l as [|p r IH]; intros acc u' Hl Hacc; simpl; [by apply Hacc|].
    apply IH; [intros q Hq; apply Hl; by right|].
    intros a Ha. unfold cast_update_path in Ha.
    destruct acc as [x|d]; simpl in Ha; [done|].
    destruct (upd !! pname p) as [v|]; [|injection Ha as <-; by apply Hacc].
    destruct (cast (ptyp p) v) as [w|] eqn:Hc; [|done]. injection Ha as <-.
    apply conforms_insert; [done|apply Hl; by left| |by apply Hacc].
    rewrite setters_has_type. by eapply cast_has_type. }
  apply H; [done|]. intros a [= <-]. apply conforms_empty.
Qed.

Lemma conforms_union S u d : conforms S u -> conforms S d -> conforms S (u ∪ d).
Proof.
  unfold conforms. rewrite !Forall_forall. intros Hu Hd p Hp.
  rewrite lookup_union. specialize (Hu p Hp). specialize (Hd p Hp).
  by destruct (u !! pname p), (d !! pname p).
Qed.

Lemma replace_doc_Forall (Q : doc -> Prop) oid d' l :
  Q d' -> Forall Q l -> Forall Q (replace_doc oid d' l).
Proof.
  intros Hd. induction 1 as [|x r Hx Hr IH]; simpl; [done|].
  destruct (has_id oid x); by constructor.
Qed.

Lemma remove_doc_Forall (Q : doc -> Prop) oid l :
  Forall Q l -> Forall Q (remove_doc oid l).
Proof.
  induction 1 as [|x r Hx Hr IH]; simpl; [done|].
  destruct (has_id oid x); [done|by constructor].
Qed.

Lemma find_Forall (Q : doc -> Prop) f l d :
  Forall Q l -> List.find f l = Some d -> Q d.
Proof.
  intros H Hf. apply find_some in Hf as [Hin _].
  rewrite Forall_forall in H. by apply H, list_elem_of_In.
Qed.

Lemma Model_create_review_conforms e b st st' d :
  Model_create e Review b st = inr (st', d) ->
  reviews_conform st -> reviews_conform st'.
Proof.
  unfold Model_create, reviews_conform. intros H Hst.
  change (mschema Review e) with reviewSchema in H.
  pose proof (new_document_conforms e reviewSchema b (reviewSchema_well_formed e)) as Hd0.
  destruct (new_document e reviewSchema b) as [d0 ce]. simpl in Hd0.
  destruct (map snd ce ++ _)%list; [|done].
  apply bindE_inr in H as (? & _ & H).
  destruct (violates _ _ _); [done|]. injection H as <- <-.
  change (postSave Review) with reviewPostSave. unfold reviewPostSave.
  rewrite update_ratings_reviews. simpl.
  apply Forall_app. split; [done|]. constructor; [|done].
  do 2 (apply conforms_insert_undeclared; [apply (bool_decide_unpack _); vm_compute; exact I|]).
  unfold reviewPreSave, stamp_new. simpl.
  apply (conforms_insert reviewSchema _ (P "updatedAt" TDate [DefaultNow]));
    [apply reviewSchema_well_formed; exact e|apply list_elem_of_In; simpl; tauto
    |done|done].
Qed.

Lemma Model_findByIdAndUpdate_review_conforms e rv id upd st st' o :
  Model_findByIdAndUpdate e Review rv id upd st = inr (st', o) ->
  reviews_conform st -> reviews_conform st'.
Proof.
  unfold Model_findByIdAndUpdate, reviews_conform. intros H Hst.
  apply bindE_inr in H as (oid & _ & H).
  change (mschema Review e) with reviewSchema in H.
  change (timestamps reviewSchema) with false in H. cbv iota in H.
  apply bindE_inr in H as (u & Hu & H).
  destruct (if rv then _ else _); [|done].
  apply bindE_inr in H as (? & _ & H).
  apply cast_update_conforms in Hu; [|apply reviewSchema_well_formed; exact e].
  change (mget Review st) with (reviews st) in H.
  destruct (List.find (has_id oid) (reviews st)) as [d|] eqn:Hf; [|by injection H as <-].
  destruct (violates _ _ _); [done|]. injection H as <- _. simpl.
  apply replace_doc_Forall; [|done].
  apply conforms_union; [done|]. by eapply find_Forall.
Qed.

(** The stored reviews conform to their schema after every review mutation. *)
Theorem review_mutations_keep_conformity (e : env) (req : request) (st : store) :
  reviews_conform st ->
  reviews_conform (fst (createReview e req st)) /\
  reviews_conform (fst (updateReview e req st)) /\
  reviews_conform (fst (deleteReview e req st)) /\
  reviews_conform (fst (markReviewHelpful e req st)).
Proof.
  intros Hst. repeat split.
  - unfold createReview. destruct (negb (connected e)); [done|].
    destruct (Model_create e Review (body req) st) as [x|[st' d]] eqn:H.
    + by destruct x.
    + simpl. by eapply Model_create_review_conforms.
  - unfold updateReview. destruct (negb (connected e)); [done|].
    destruct (Model_findById e Review (route_param req "id") st) as [x|[d|]]; simpl.
    + by destruct x.
    + destruct (Model_findByIdAndUpdate e Review true (route_param req "id") (body req) st)
        as [x|[st' o]] eqn:H; simpl.
      * by destruct x.
      * by eapply Model_findByIdAndUpdate_review_conforms.
    + done.
  - unfold deleteReview. destruct (negb (connected e)); [done|].
    destruct (Model_findById e Review (route_param req "id") st) as [x|[d|]]; simpl.
    + by destruct x.
    + unfold Model_findByIdAndDelete.
      destruct (castId (route_param req "id")) as [x|oid]; simpl; [by destruct x|].
      destruct (guard e "Review" OpDelete) as [x|]; simpl; [by destruct x|].
      destruct (List.find _ _); simpl; [|done].
      by apply remove_doc_Forall.
    + done.
  - unfold markReviewHelpful. destruct (negb (connected e)); [done|].
    unfold Model_findByIdAndInc.
    destruct (castId (route_param req "id")) as [x|oid]; simpl; [by destruct x|].
    destruct (guard e "Review" OpUpdate) as [x|]; simpl; [by destruct x|].
    change (mget Review st) with (reviews st).
    destruct (List.find (has_id oid) (reviews st)) as [d|] eqn:Hf; simpl; [|done].
    apply replace_doc_Forall; [|done].
    apply (conforms_insert reviewSchema _
             (P "helpful" TNumber [Default (num 0); Min 0 "Helpful count cannot be negative"]));
      [apply reviewSchema_well_formed; exact e|apply list_elem_of_In; simpl; tauto
      | |by eapply find_Forall].
    by destruct (d !! "helpful") as [[]|].
Qed.

(** ** Pages of a listing *)

Lemma window_page skip limit (l : list doc) :
  0 <= skip -> 1 <= limit ->
  window skip limit l = inr (take (Z.to_nat limit) (drop (Z.to_nat skip) l)).
Proof.
  intros Hs Hl. unfold window.
  destruct (skip <? 0) eqn:E; [lia|].
  destruct (limit =? 0) eqn:E'; [lia|].
  by rewrite Z.abs_eq by lia.
Qed.

(** Cutting a list into consecutive pieces of [n] elements loses nothing. *)
Lemma pieces_cover {A} (n k : nat) (l : list A) :
  (length l <= k * n)%nat ->
  flat_map (fun i => take n (drop (i * n) l)) (seq 0 k) = l.
Proof.
  revert l. induction k as [|k IH]; intros l Hl.
  - destruct l; [done|simpl in Hl; lia].
  - cbn [seq flat_map]. rewrite <- seq_shift, flat_map_concat_map, map_map,
      <- flat_map_concat_map.
    rewrite drop_0.
    rewrite (flat_map_ext _ (fun i => take n (drop (i * n) (drop n l)))).
    + rewrite IH by (rewrite length_drop; lia). apply take_drop.
    + intros i. by rewrite drop_drop.
Qed.

Lemma flat_map_lookup {A B} (g : A -> list B) (h : nat -> list B) (l : list A) :
  (forall (i : nat) x, l !! i = Some x -> g x = h i) ->
  flat_map g l = flat_map h (seq 0 (length l)).
Proof.
  revert h. induction l as [|x r IH]; intros h H; [done|].
  cbn [length seq flat_map]. rewrite (H 0%nat x) by done. f_equal.
  rewrite <- seq_shift, (flat_map_concat_map h), map_map, <- flat_map_concat_map.
  apply IH. intros i y Hi. by apply (H (S i)).
Qed.

(** What page [p] of a listing holds, for a page and a page size of at
    least 1. *)
Lemma page_content (R : resource) (e : env) (req : request) (st : store) (docs : list doc) :
  readyState e = 1 ->
  healthy e (model_of R) ->
  filtered R e (query req) st = inr docs ->
  1 <= page_of (query req) ->
  1 <= limit_of (query req) ->
  items (getAll R e req st)
  = take (Z.to_nat (limit_of (query req)))
      (drop (Z.to_nat ((page_of (query req) - 1) * limit_of (query req)))
         (sort_docs (sortOptions_of R (query req)) docs)).
Proof.
  intros Hc Hh Hf Hp Hl.
  rewrite getAll_connected by done.
  rewrite (paged_list_filtered R e (query req) _ st docs) by done.
  unfold startIndex_of. rewrite window_page by nia. reflexivity.
Qed.

(** X2. Walking the pages [1, 2, ...] of a listing with one page size, one
    filter and one sort under which no two documents of the result set
    tie, far enough to cover the number of matches, gives every document of
    the filtered result set once, in the order of the sort. The integers
    of the requests and the number of pages are at most [2 ^ 26]. *)
Theorem pages_cover_result_set (R : resource) (e : env) (st : store) (docs : list doc)
    (so : sortOptions) (L : Z) (reqs : list request) :
  readyState e = 1 ->
  reliable e ->
  1 <= L ->
  js_exact (Z.of_nat (length reqs)) ->
  Forall (fun req => exact_query (query req)) reqs ->
  no_ties so docs ->
  (forall (i : nat) req, reqs !! i = Some req ->
     page_of (query req) = Z.of_nat i + 1 /\ limit_of (query req) = L /\
     sortOptions_of R (query req) = so /\ filtered R e (query req) st = inr docs) ->
  Z.of_nat (length docs) <= Z.of_nat (length reqs) * L ->
  flat_map (fun req => items (getAll R e req st)) reqs = sort_docs so docs.
Proof.
  intros Hc Hr HL _ _ _ Hreqs Hlen.
  assert (Hh : healthy e (model_of R)) by (intros o; apply Hr).
  rewrite (flat_map_lookup _
             (fun i => take (Z.to_nat L) (drop (i * Z.to_nat L) (sort_docs so docs)))).
  - apply pieces_cover. rewrite sort_docs_length. nia.
  - intros i req Hi. destruct (Hreqs i req Hi) as (Hp & Hl & Hs & Hf).
    rewrite (page_content R e req st docs) by (done || lia).
    rewrite Hp, Hl, Hs. do 2 f_equal. nia.
Qed.

Lemma pages_cover_result_set_witness :
  let reqs := [ get_request {[ "page" := "1"; "limit" := "2" ]};
                get_request {[ "page" := "2"; "limit" := "2" ]} ] in
  flat_map (fun req => items (getAll Reviews env0 req listing_store)) reqs
  = sort_docs [("createdAt", -1)] (reviews listing_store).
Proof.
  intros reqs.
  apply (pages_cover_result_set Reviews env0 listing_store (reviews listing_store)
           [("createdAt", -1)] 2 reqs).
  - reflexivity.
  - intros name o. reflexivity.
  - lia.
  - vm_compute. discriminate.
  - repeat (apply Forall_cons; split); try apply Forall_nil_2;
      repeat split; vm_compute; discriminate.
  - intros a b Ha Hb Hcmp. unfold listing_store in Ha, Hb. cbn [reviews set_reviews] in Ha, Hb.
    rewrite !elem_of_cons, elem_of_nil in Ha, Hb.
    destruct Ha as [->|[->|[->|[]]]], Hb as [->|[->|[->|[]]]];
      try reflexivity; vm_compute in Hcmp; discriminate Hcmp.
  - intros [|[|i]] req Hi; [| |discriminate Hi];
      injection Hi as <-; repeat split; vm_compute; reflexivity.
  - simpl. lia.
Defined.

(** X3. A list handler answers [Server Error], or 200 with a list whose
    length is the [count] of the response and of its pagination and is at
    most the absolute value of the page size. *)
Theorem list_response_shape (R : resource) (e : env) (req : request) (st : store) :
  getAll R e req st = server_error \/
  exists l pg,
    status (getAll R e req st) = 200 /\
    data (getAll R e req st) = Docs l /\
    count (getAll R e req st) = Some (Z.of_nat (length l)) /\
    pagination (getAll R e req st) = Some pg /\
    Pagination.count pg = Z.of_nat (length l) /\
    Z.of_nat (length l) <= Z.abs (limit_of (query req)).
Proof.
  assert (Hd : exists l pg,
    status (empty_results true) = 200 /\ data (empty_results true) = Docs l /\
    count (empty_results true) = Some (Z.of_nat (length l)) /\
    pagination (empty_results true) = Some pg /\
    Pagination.count pg = Z.of_nat (length l) /\
    Z.of_nat (length l) <= Z.abs (limit_of (query req))).
  { exists [], {| Pagination.current := 1; Pagination.total := 0; Pagination.count := 0 |}.
    repeat split. simpl. lia. }
  assert (Hp : forall M f so,
    paged_list e M f so (query req) st = server_error \/
    exists l pg,
      status (paged_list e M f so (query req) st) = 200 /\
      data (paged_list e M f so (query req) st) = Docs l /\
      count (paged_list e M f so (query req) st) = Some (Z.of_nat (length l)) /\
      pagination (paged_list e M f so (query req) st) = Some pg /\
      Pagination.count pg = Z.of_nat (length l) /\
      Z.of_nat (length l) <= Z.abs (limit_of (query req))).
  { intros M f so. unfold paged_list.
    destruct f as [x|f]; [by left|]. cbn [bindE].
    destruct (Model_countDocuments e M f st) as [x|total]; [by left|]. cbn [bindE].
    destruct (Model_find e M f so _ st) as [x|page] eqn:Hfind; [by left|]. cbn [bindE].
    right. eexists _, _. repeat split.
    unfold Model_find in Hfind.
    apply bindE_inr in Hfind as (q' & _ & Hfind).
    apply bindE_inr in Hfind as (? & _ & Hfind).
    eapply window_length; [|exact Hfind]. apply limit_nonzero. }
  destruct R; simpl; unfold getAllBooks, getAllAuthors, getAllPublishers, getAllReviews;
    destruct (negb (connected e)); try (right; exact Hd); apply Hp.
Qed.

(** X4. On a connected backend a request whose start index
    [(page - 1) * limit] is negative is answered [Server Error]. *)
Theorem negative_start_index (R : resource) (e : env) (req : request) (st : store) :
  readyState e = 1 ->
  startIndex_of (query req) < 0 ->
  getAll R e req st = server_error.
Proof.
  intros Hc Hs. rewrite getAll_connected by done.
  unfold paged_list.
  destruct (query_of R e (query req)) as [x|f]; [done|]. cbn [bindE].
  destruct (Model_countDocuments _ _ _ _) as [x|total]; [done|]. cbn [bindE].
  unfold Model_find.
  destruct (cast_query _ f) as [x|f']; [done|]. cbn [bindE].
  destruct (guard _ _ _) as [x|]; [done|]. cbn [bindE].
  unfold window. destruct (startIndex_of (query req) <? 0) eqn:E; [done|lia].
Qed.

Lemma negative_start_index_witness :
  let req := get_request {[ "page" := "-1" ]} in
  startIndex_of (query req) = -20 /\
  getAll Reviews env0 req listing_store = server_error.
Proof.
  intros req. split; [reflexivity|].
  apply (negative_start_index Reviews env0 req listing_store).
  - reflexivity.
  - vm_compute. reflexivity.
Defined.

(** ** Listings by target *)

Lemma latest_first_trans k : Relations_1.Transitive (latest_first k).
Proof.
  intros a b c. unfold latest_first.
  destruct (dated k a), (dated k b), (dated k c); try done. lia.
Qed.

(** On documents whose field [k] is a date, when set, the order of
    [{ k: -1 }] is latest first. *)
Lemma latest_first_doc_le k a b :
  from_option (has_type TDate) true (a !! k) = true ->
  from_option (has_type TDate) true (b !! k) = true ->
  doc_le [(k, -1)] a b = true -> latest_first k a b.
Proof.
  unfold doc_le, latest_first, dated. simpl.
  destruct (a !! k) as [[]|], (b !! k) as [[]|]; simpl; try discriminate; try done.
  destruct (t ?= t0) eqn:E; simpl; try done.
  - apply Z.compare_eq in E. lia.
  - apply Z.compare_gt_iff in E. lia.
Qed.

(** A [find] without window on a healthy backend. *)
Lemma Model_find_all e M q q' so st :
  healthy e M -> cast_query (mschema M e) q = inr q' ->
  Model_find e M q so None st = inr (sort_docs so (select e M q' st)).
Proof.
  intros Hh Hq. unfold Model_find. rewrite Hq. cbn [bindE].
  by rewrite guard_healthy.
Qed.

Lemma sorted_latest_first S k (l : list doc) :
  (exists rules, In (P k TDate rules) (schema_paths S)) ->
  Forall (conforms S) l ->
  StronglySorted (latest_first k) (sort_docs [(k, -1)] l).
Proof.
  intros Hin Hl.
  assert (Hk : forall d, conforms S d -> from_option (has_type TDate) true (d !! k) = true).
  { intros d Hd. destruct Hin as [rules Hin].
    apply (conforms_path _ _ _ Hd) in Hin. exact Hin. }
  apply Sorted_StronglySorted; [apply latest_first_trans|].
  eapply (Sorted_weaken (conforms S)); [| |apply sort_docs_sorted].
  - intros a b Ha Hb. apply latest_first_doc_le; by apply Hk.
  - by rewrite sort_docs_perm.
Qed.

(** X5. The reviews of an author: on a connected backend that rejects no
    call and whose stored reviews conform to their schema, the listing for
    an [authorId] that names an id [oid], in any spelling, is a reordering
    of exactly the stored reviews of the author [oid] whose status is
    Published, newest first. *)
Theorem reviews_by_author (e : env) (req : request) (st : store) (authorId oid : string) :
  readyState e = 1 ->
  reliable e ->
  params req !! "authorId" = Some authorId ->
  castObjectId authorId = Some oid ->
  reviews_conform st ->
  exists found,
    getReviewsByAuthor e req st = ok_list found None None /\
    Permutation found (List.filter (published_review_of "author" oid) (reviews st)) /\
    StronglySorted (latest_first "createdAt") found.
Proof.
  intros Hc Hr Hp Hid Hconf.
  assert (Hh : healthy e Review) by (intros o; apply Hr). unfold reviews_conform in Hconf.
  set (wanted := List.filter (published_review_of "author" oid) (reviews st)).
  assert (Hsel : select e Review
            [CField "author" (CEq (VId oid)); CField "status" (CEq (VStr "Published"))] st
          = wanted).
  { unfold select, wanted. simpl. apply filter_ext_in. intros d Hd.
    unfold matches, published_review_of. simpl.
    rewrite match_eq_id, match_eq_status, andb_true_r; [done|].
    rewrite Forall_forall in Hconf. by apply Hconf, list_elem_of_In. }
  exists (sort_docs [("createdAt", -1)] wanted). repeat split.
  - unfold getReviewsByAuthor, connected, route_param. rewrite Hc, Hp. simpl negb. cbv iota.
    rewrite (Model_find_all e Review _
               [CField "author" (CEq (VId oid)); CField "status" (CEq (VStr "Published"))]);
      [by rewrite Hsel|done|].
    cbn [cast_query cast_clause cast_cond bindE]. unfold cast_operand.
    change (path_type (mschema Review e) "author") with (Some TObjectId).
    change (path_type (mschema Review e) "status") with (Some TString).
    cbv iota. by rewrite (cast_id_string authorId oid Hid).
  - apply sort_docs_perm.
  - apply (sorted_latest_first reviewSchema); [eexists; simpl; eauto 20|].
    by apply filter_Forall.
Qed.

(** The request spells the id of the author in upper case. *)
Lemma reviews_by_author_witness :
  exists found,
    getReviewsByAuthor env0 (request_for "authorId" "0000000000000000000000C1" ∅) library_store
      = ok_list found None None /\
    Permutation found
      (List.filter (published_review_of "author" author_c1) (reviews library_store)) /\
    StronglySorted (latest_first "createdAt") found.
Proof.
  apply (reviews_by_author env0 (request_for "authorId" "0000000000000000000000C1" ∅)
           library_store "0000000000000000000000C1" author_c1).
  - reflexivity.
  - intros name o. reflexivity.
  - reflexivity.
  - reflexivity.
  - unfold reviews_conform. repeat constructor.
Defined.

(** The books that refer to an id in one of their fields, latest
    publication first. *)
Lemma books_by_reference e st k s oid rules :
  healthy e Book ->
  In (P k TObjectId rules) (schema_paths bookSchema) ->
  castObjectId s = Some oid ->
  books_conform st ->
  exists found,
    Model_find e Book [CField k (CEq (VStr s))] [("publicationDate", -1)] None st
      = inr found /\
    Permutation found (List.filter (refers_to k oid) (books st)) /\
    StronglySorted (latest_first "publicationDate") found.
Proof.
  intros Hh Hk Hid Hconf.
  exists (sort_docs [("publicationDate", -1)] (List.filter (refers_to k oid) (books st))).
  split; [|split].
  - rewrite (Model_find_all e Book _ [CField k (CEq (VId oid))]); [|done|].
    + do 2 f_equal. unfold select. apply filter_ext. intros d.
      unfold matches, refers_to. simpl. by rewrite match_eq_id, andb_true_r.
    + simpl in Hk. cbn [cast_query cast_clause cast_cond bindE]. unfold cast_operand.
      change (mschema Book e) with bookSchema.
      decompose [or] Hk; try done;
        match goal with H : P _ _ _ = P _ _ _ |- _ => injection H as <- <- end;
        match goal with
        | |- context [path_type bookSchema ?k] =>
            change (path_type bookSchema k) with (Some TObjectId)
        end;
        cbv iota; by rewrite (cast_id_string s oid Hid).
  - apply sort_docs_perm.
  - apply (sorted_latest_first bookSchema); [eexists; simpl; eauto 20|].
    by apply filter_Forall.
Qed.

(** X6. The books of an author: on a connected backend that rejects no
    call and whose stored books conform to their schema, the listing for
    an [authorId] that names an id [oid], in any spelling, is a reordering
    of exactly the stored books whose author is [oid], latest publication
    first; whether an author with that id exists is not looked at. *)
Theorem books_by_author (e : env) (req : request) (st : store) (authorId oid : string) :
  readyState e = 1 ->
  reliable e ->
  params req !! "authorId" = Some authorId ->
  castObjectId authorId = Some oid ->
  books_conform st ->
  exists found,
    getBooksByAuthor e req st = ok_list found None None /\
    Permutation found (List.filter (refers_to "author" oid) (books st)) /\
    StronglySorted (latest_first "publicationDate") found.
Proof.
  intros Hc Hr Hp Hid Hconf.
  assert (Hh : healthy e Book) by (intros o; apply Hr).
  destruct (books_by_reference e st "author" authorId oid [Required "Author is required"])
    as (found & Hf & Hperm & Hs); try done; [simpl; tauto|].
  exists found. split; [|done].
  unfold getBooksByAuthor, connected, route_param. rewrite Hc, Hp. simpl negb. cbv iota.
  by rewrite Hf.
Qed.

(** The request spells the id of the author in upper case. *)
Lemma books_by_author_witness :
  exists found,
    getBooksByAuthor env0 (request_for "authorId" "0000000000000000000000C1" ∅) library_store
      = ok_list found None None /\
    Permutation found (List.filter (refers_to "author" author_c1) (books library_store)) /\
    StronglySorted (latest_first "publicationDate") found.
Proof.
  apply (books_by_author env0 (request_for "authorId" "0000000000000000000000C1" ∅)
           library_store "0000000000000000000000C1" author_c1).
  - reflexivity.
  - intros name o. reflexivity.
  - reflexivity.
  - reflexivity.
  - unfold books_conform. repeat constructor.
Defined.

(** X7. The books of a publisher, in the same way: for an [id] that
    names an id [oid], in any spelling, a reordering of exactly the stored
    books whose publisher is [oid], latest publication first. *)
Theorem books_of_publisher (e : env) (req : request) (st : store) (publisherId oid : string) :
  readyState e = 1 ->
  reliable e ->
  params req !! "id" = Some publisherId ->
  castObjectId publisherId = Some oid ->
  books_conform st ->
  exists found,
    getPublisherBooks e req st = ok_list found None None /\
    Permutation found (List.filter (refers_to "publisher" oid) (books st)) /\
    StronglySorted (latest_first "publicationDate") found.
Proof.
  intros Hc Hr Hp Hid Hconf.
  assert (Hh : healthy e Book) by (intros o; apply Hr).
  destruct (books_by_reference e st "publisher" publisherId oid [])
    as (found & Hf & Hperm & Hs); try done; [simpl; tauto|].
  exists found. split; [|done].
  unfold getPublisherBooks, connected, route_param. rewrite Hc, Hp. simpl negb. cbv iota.
  by rewrite Hf.
Qed.

(** The request spells the id of the publisher in upper case. *)
Lemma books_of_publisher_witness :
  exists found,
    getPublisherBooks env0 (request_for "id" "0000000000000000000000D2" ∅) library_store
      = ok_list found None None /\
    Permutation found (List.filter (refers_to "publisher" user_d2) (books library_store)) /\
    StronglySorted (latest_first "publicationDate") found.
Proof.
  apply (books_of_publisher env0 (request_for "id" "0000000000000000000000D2" ∅)
           library_store "0000000000000000000000D2" user_d2).
  - reflexivity.
  - intros name o. reflexivity.
  - reflexivity.
  - reflexivity.
  - unfold books_conform. repeat constructor.
Defined.

Ltac in_paths := simpl; repeat first [left; reflexivity | right].


Lemma match_eq_genre S d g rules :
  In (P "genres" TStrings rules) (schema_paths S) -> conforms S d ->
  match_eq (d !! "genres") (VStr g) = lists_genre g d.
Proof.
  intros Hin Hd. apply (conforms_path _ _ _ Hd) in Hin. simpl in Hin.
  unfold lists_genre.
  destruct (d !! "genres") as [[]|]; simpl in *; try discriminate; reflexivity.
Qed.

Lemma match_eq_has_status S d s rules :
  In (P "status" TString rules) (schema_paths S) -> conforms S d ->
  match_eq (d !! "status") (VStr s) = has_status s d.
Proof.
  intros Hin Hd. apply (conforms_path _ _ _ Hd) in Hin. simpl in Hin.
  unfold has_status.
  destruct (d !! "status") as [[]|]; simpl in *; try discriminate; try reflexivity;
    apply bool_decide_ext; split; congruence.
Qed.

(** X8. The authors of a genre: on a connected and healthy backend whose
    stored authors conform to their schema, the listing is a reordering of
    exactly the stored authors whose genres hold the requested one and whose
    status is not Deceased, in the order of last name, then first name. *)
Theorem authors_by_genre (e : env) (req : request) (st : store) (g : string) :
  readyState e = 1 ->
  healthy e Author ->
  params req !! "genre" = Some g ->
  authors_conform st ->
  exists found,
    getAuthorsByGenre e req st = ok_list found None None /\
    Permutation found
      (List.filter (fun d => lists_genre g d && negb (has_status "Deceased" d)) (authors st)) /\
    sorted_by [("lastName", 1); ("firstName", 1)] found /\
    Forall (fun d => d !! "status" <> Some (VStr "Deceased")) found.
Proof.
  intros Hc Hh Hp Hconf. unfold authors_conform in Hconf.
  set (wanted := List.filter (fun d => lists_genre g d && negb (has_status "Deceased" d))
                   (authors st)).
  exists (sort_docs [("lastName", 1); ("firstName", 1)] wanted). repeat split.
  - unfold getAuthorsByGenre, connected, route_param. rewrite Hc, Hp. simpl negb. cbv iota.
    rewrite (Model_find_all e Author _
               [CField "genres" (CEq (VStr g)); CField "status" (CNe (VStr "Deceased"))]);
      [|done|reflexivity].
    do 3 f_equal. unfold select, wanted. apply filter_ext_in. intros d Hd.
    assert (Hcd : conforms authorSchema d).
    { rewrite Forall_forall in Hconf. by apply Hconf, list_elem_of_In. }
    unfold matches. simpl.
    rewrite (match_eq_genre authorSchema d g [Enum genres20]) by (done || in_paths).
    rewrite (match_eq_has_status authorSchema d "Deceased"
               [Enum ["Active"; "Inactive"; "Deceased"; "Retired"]; Default (VStr "Active")])
      by (done || in_paths).
    by rewrite andb_true_r.
  - apply sort_docs_perm.
  - apply sort_docs_sorted.
  - rewrite (sort_docs_perm _ wanted). unfold wanted.
    rewrite Forall_forall. intros d Hd%list_elem_of_In%filter_In.
    destruct Hd as [_ Hd]. apply andb_true_iff in Hd as [_ Hd].
    apply negb_true_iff in Hd. by apply bool_decide_eq_false in Hd.
Qed.

Lemma authors_by_genre_witness :
  exists found,
    getAuthorsByGenre env0 (request_for "genre" "Science Fiction" ∅) library_store
      = ok_list found None None /\
    Permutation found
      (List.filter (fun d => lists_genre "Science Fiction" d && negb (has_status "Deceased" d))
         (authors library_store)) /\
    sorted_by [("lastName", 1); ("firstName", 1)] found /\
    Forall (fun d => d !! "status" <> Some (VStr "Deceased")) found.
Proof.
  apply (authors_by_genre env0 (request_for "genre" "Science Fiction" ∅) library_store
           "Science Fiction").
  - reflexivity.
  - intros o. reflexivity.
  - reflexivity.
  - unfold authors_conform. repeat constructor.
Defined.

(** X9. The publishers of a genre: on a connected and healthy backend
    whose stored publishers conform to their schema, the listing is a
    reordering of exactly the stored publishers whose genres hold the
    requested one and whose status is Active, in the order of their names. *)
Theorem publishers_by_genre (e : env) (req : request) (st : store) (g : string) :
  readyState e = 1 ->
  healthy e Publisher ->
  params req !! "genre" = Some g ->
  publishers_conform e st ->
  exists found,
    getPublishersByGenre e req st = ok_list found None None /\
    Permutation found
      (List.filter (fun d => lists_genre g d && has_status "Active" d) (publishers st)) /\
    sorted_by [("name", 1)] found /\
    Forall (fun d => d !! "status" = Some (VStr "Active")) found.
Proof.
  intros Hc Hh Hp Hconf. unfold publishers_conform in Hconf.
  set (wanted := List.filter (fun d => lists_genre g d && has_status "Active" d)
                   (publishers st)).
  exists (sort_docs [("name", 1)] wanted). repeat split.
  - unfold getPublishersByGenre, connected, route_param. rewrite Hc, Hp. simpl negb. cbv iota.
    rewrite (Model_find_all e Publisher _
               [CField "genres" (CEq (VStr g)); CField "status" (CEq (VStr "Active"))]);
      [|done|reflexivity].
    do 3 f_equal. unfold select, wanted. apply filter_ext_in. intros d Hd.
    assert (Hcd : conforms (publisherSchema (currentYear e)) d).
    { rewrite Forall_forall in Hconf. by apply Hconf, list_elem_of_In. }
    unfold matches. simpl.
    rewrite (match_eq_genre (publisherSchema (currentYear e)) d g [Enum genres20])
      by (done || in_paths).
    rewrite (match_eq_has_status (publisherSchema (currentYear e)) d "Active"
               [Enum ["Active"; "Inactive"; "Acquired"; "Defunct"]; Default (VStr "Active")])
      by (done || in_paths).
    by rewrite andb_true_r.
  - apply sort_docs_perm.
  - apply sort_docs_sorted.
  - rewrite (sort_docs_perm _ wanted). unfold wanted.
    rewrite Forall_forall. intros d Hd%list_elem_of_In%filter_In.
    destruct Hd as [_ Hd]. apply andb_true_iff in Hd as [_ Hd].
    by apply bool_decide_eq_true in Hd.
Qed.

Lemma publishers_by_genre_witness :
  exists found,
    getPublishersByGenre env0 (request_for "genre" "Fantasy" ∅) library_store
      = ok_list found None None /\
    Permutation found
      (List.filter (fun d => lists_genre "Fantasy" d && has_status "Active" d)
         (publishers library_store)) /\
    sorted_by [("name", 1)] found /\
    Forall (fun d => d !! "status" = Some (VStr "Active")) found.
Proof.
  apply (publishers_by_genre env0 (request_for "genre" "Fantasy" ∅) library_store "Fantasy").
  - reflexivity.
  - intros o. reflexivity.
  - reflexivity.
  - unfold publishers_conform. repeat constructor.
Defined.

(** ** What a review mutation changes *)



Lemma remove_doc_perm oid d l :
  List.find (has_id oid) l = Some d -> Permutation l (d :: remove_doc oid l).
Proof.
  induction l as [|x r IH]; simpl; [done|].
  destruct (has_id oid x).
  - by intros [= ->].
  - intros H. rewrite (IH H) at 1. apply perm_swap.
Qed.

Lemma find_has_id oid l d : List.find (has_id oid) l = Some d -> has_id oid d = true.
Proof. intros H. by apply find_some in H as [_ H]. Qed.

(** X10. [POST /api/reviews/:id/helpful] on a stored review with a helpful
    count, named by the request in any spelling of its id: the answer is
    200 with the review, whose count is one more; every other field of that
    review, every other review, the books, the authors, the publishers and
    the log are as before. *)
Theorem mark_helpful_increments (e : env) (req : request) (st : store) (s oid : string)
    (d : doc) (q : Q) :
  readyState e = 1 ->
  fault e "Review" OpUpdate = false ->
  params req !! "id" = Some s ->
  castObjectId s = Some oid ->
  List.find (has_id oid) (reviews st) = Some d ->
  d !! "helpful" = Some (VNum q) ->
  exists d' q',
    snd (markReviewHelpful e req st)
      = ok_data 200 (Doc d') (Some "Review marked as helpful") /\
    number_at "helpful" d' = Some q' /\ (q' == q + 1)%Q /\
    same_but "helpful" d d' /\
    List.find (has_id oid) (reviews (fst (markReviewHelpful e req st))) = Some d' /\
    Forall2 (same_but "helpful") (reviews st) (reviews (fst (markReviewHelpful e req st))) /\
    fst (markReviewHelpful e req st)
      = set_reviews (reviews (fst (markReviewHelpful e req st))) st.
Proof.
  intros Hc Hf Hp Hid Hfind Hh.
  exists (<["helpful" := VNum (Qred (q + inject_Z 1))]> d), (Qred (q + inject_Z 1)).
  assert (Hsame : same_but "helpful" d (<["helpful" := VNum (Qred (q + inject_Z 1))]> d)).
  { intros k Hk. by rewrite lookup_insert_ne. }
  assert (Hout : markReviewHelpful e req st
    = (set_reviews (replace_doc oid (<["helpful" := VNum (Qred (q + inject_Z 1))]> d)
                      (reviews st)) st,
       ok_data 200 (Doc (<["helpful" := VNum (Qred (q + inject_Z 1))]> d))
         (Some "Review marked as helpful"))).
  { unfold markReviewHelpful, connected, Model_findByIdAndInc, route_param, guard.
    rewrite Hc, Hp. simpl negb. cbv iota. rewrite (castId_string s oid Hid). cbn [bindE].
    change (mname Review) with "Review". rewrite Hf. cbn [bindE].
    change (mget Review st) with (reviews st). rewrite Hfind, Hh.
    reflexivity. }
  rewrite Hout. cbn [fst snd]. repeat split.
  - unfold number_at. by rewrite lookup_insert_eq.
  - apply Qred_correct.
  - exact Hsame.
  - apply find_replace_doc; [|by rewrite Hfind].
    apply find_has_id in Hfind. unfold has_id in *.
    apply bool_decide_eq_true in Hfind. apply bool_decide_eq_true.
    by rewrite lookup_insert_ne.
  - by apply (replace_doc_same_but "helpful" oid d).
Qed.

Lemma mark_helpful_increments_witness :
  exists d' q',
    snd (markReviewHelpful env0 (request_for "id" review_e1 ∅)
           (rated_store [the_review 4 "Published"]))
      = ok_data 200 (Doc d') (Some "Review marked as helpful") /\
    number_at "helpful" d' = Some q' /\ (q' == 0 + 1)%Q.
Proof.
  destruct (mark_helpful_increments env0 (request_for "id" review_e1 ∅)
              (rated_store [the_review 4 "Published"]) review_e1 review_e1
              (the_review 4 "Published") 0%Q)
    as (d' & q' & H1 & H2 & H3 & _); try reflexivity.
  by exists d', q'.
Defined.

Lemma cast_update_keys S upd u k :
  cast_update S upd = inr u -> is_Some (u !! k) ->
  is_Some (upd !! k) /\ declares S k = true.
Proof.
  unfold cast_update, declares.
  assert (H : forall l acc,
            (forall p, p ∈ l -> p ∈ schema_paths S) ->
            (forall a, acc = inr a -> is_Some (a !! k) ->
               is_Some (upd !! k) /\ k ∈ map pname (schema_paths S)) ->
            fold_left (cast_update_path upd) l acc = inr u -> is_Some (u !! k) ->
            is_Some (upd !! k) /\ k ∈ map pname (schema_paths S)).
  { induction l as [|p r IH]; intros acc Hl Hacc; simpl; [by apply Hacc|].
    apply IH; [intros q Hq; apply Hl; by right|].
    intros a Ha. unfold cast_update_path in Ha.
    destruct acc as [x|d]; simpl in Ha; [done|].
    destruct (upd !! pname p) as [v|] eqn:Hv; [|injection Ha as <-; by apply Hacc].
    destruct (cast (ptyp p) v) as [w|]; [|done]. injection Ha as <-.
    destruct (decide (k = pname p)) as [->|Hne].
    - intros _. split; [by rewrite Hv|]. apply list_elem_of_fmap_2, Hl. by left.
    - rewrite lookup_insert_ne by done. by apply Hacc. }
  intros Hu Hk. destruct (H (schema_paths S) (inr ∅)) as [H1 H2]; try done.
  - intros a [= <-]. rewrite lookup_empty. by intros [? ?].
  - split; [done|]. by apply bool_decide_eq_true.
Qed.


(** X12. Each of the four delete handlers either fails and leaves the store as
    it was, or answers 200 after removing exactly one document, which
    carries the id that the request names, from the collection of its own
    model; every other collection is untouched, so the documents that refer
    to the deleted one stay. *)
Theorem delete_removes_one (e : env) (req : request) (st : store) :
  Forall (fun Mh =>
            let out := snd Mh e req st in
            (success (snd out) = false /\ fst out = st) \/
            (status (snd out) = 200 /\
             exists s oid d,
               params req !! "id" = Some s /\ castObjectId s = Some oid /\
               has_id oid d = true /\
               Permutation (mget (fst Mh) st) (d :: mget (fst Mh) (fst out)) /\
               fst out = mset (fst Mh) (mget (fst Mh) (fst out)) st))
    delete_handlers.
Proof.
  assert (Hlens : forall Mh, Mh ∈ delete_handlers ->
            forall l s, mget (fst Mh) (mset (fst Mh) l s) = l).
  { intros Mh H. unfold delete_handlers in H.
    by repeat (apply elem_of_cons in H as [->|H]); [..|by apply elem_of_nil in H]. }
  apply Forall_forall. intros Mh HMh. pose proof (Hlens Mh HMh) as Hget.
  assert (Hcore : forall s oid d,
    params req !! "id" = Some s -> castObjectId s = Some oid ->
    List.find (has_id oid) (mget (fst Mh) st) = Some d ->
    let st' := mset (fst Mh) (remove_doc oid (mget (fst Mh) st)) st in
    exists s oid d,
      params req !! "id" = Some s /\ castObjectId s = Some oid /\
      has_id oid d = true /\
      Permutation (mget (fst Mh) st) (d :: mget (fst Mh) st') /\
      st' = mset (fst Mh) (mget (fst Mh) st') st).
  { intros s oid d Hp Hid Hf st'. exists s, oid, d. unfold st'. rewrite Hget.
    split; [done|]. split; [done|]. split; [by eapply find_has_id|].
    split; [by apply remove_doc_perm|done]. }
  unfold delete_handlers in HMh.
  repeat (apply elem_of_cons in HMh as [->|HMh]); [..|by apply elem_of_nil in HMh];
    cbn [fst snd] in *;
    unfold deleteBook, deleteAuthor, deletePublisher, delete_handler, deleteReview,
      Model_findById, Model_findByIdAndDelete, route_param, guard;
    (destruct (negb (connected e)); [by left|]);
    (destruct (params req !! "id") as [s|] eqn:Hp; [|by left]);
    cbn [castId]; (destruct (castObjectId s) as [oid|] eqn:Hid; [|by left]);
    cbn [from_option bindE];
    (destruct (fault e _ OpFindById); [by left|]); cbn [bindE];
    (match goal with |- context [List.find (has_id oid) ?l] =>
       destruct (List.find (has_id oid) l) as [d|] eqn:Hf end; [|by left]);
    (destruct (fault e _ OpDelete); [by left|]); cbn [bindE fst snd];
    right; (split; [reflexivity|]); by apply (Hcore s oid d).
Qed.

(** ** New documents *)

Lemma build_path_fst e b acc p :
  fst (build_path e b acc p)
  = match built_value e b p with
    | Some v => <[pname p := v]> (fst acc)
    | None => fst acc
    end.
Proof.
  unfold build_path, built_value. destruct (b !! pname p) as [v|].
  - by destruct (cast (ptyp p) v).
  - by destruct (default_of e (prules p)), (ptyp p).
Qed.

Lemma build_path_snd e b acc p :
  snd (build_path e b acc p) = (snd acc ++ cast_error_of b p)%list.
Proof.
  unfold build_path, cast_error_of. destruct (b !! pname p) as [v|].
  - destruct (cast (ptyp p) v); simpl; by rewrite ?app_nil_r.
  - destruct (default_of e (prules p)), (ptyp p); simpl; by rewrite ?app_nil_r.
Qed.

Lemma fold_build_snd e b l acc :
  snd (fold_left (build_path e b) l acc) = (snd acc ++ flat_map (cast_error_of b) l)%list.
Proof.
  revert acc. induction l as [|p r IH]; intros acc; simpl; [by rewrite app_nil_r|].
  by rewrite IH, build_path_snd, <- app_assoc.
Qed.

Lemma fold_build_other e b l acc k :
  k ∉ map pname l -> fst (fold_left (build_path e b) l acc) !! k = fst acc !! k.
Proof.
  revert acc. induction l as [|p r IH]; intros acc Hk; simpl; [done|].
  simpl in Hk. apply not_elem_of_cons in Hk as [Hp Hr].
  rewrite IH by done. rewrite build_path_fst.
  destruct (built_value e b p); [|done]. by rewrite lookup_insert_ne.
Qed.

Lemma fold_build_at e b l acc p :
  NoDup (map pname l) -> p ∈ l ->
  fst (fold_left (build_path e b) l acc) !! pname p
  = match built_value e b p with
    | Some v => Some v
    | None => fst acc !! pname p
    end.
Proof.
  revert acc. induction l as [|p' r IH]; intros acc Hnd Hp; [by apply elem_of_nil in Hp|].
  simpl in Hnd. apply NoDup_cons in Hnd as [Hp' Hnd]. simpl.
  apply elem_of_cons in Hp as [->|Hp].
  - rewrite fold_build_other by done. rewrite build_path_fst.
    destruct (built_value e b p'); [by rewrite lookup_insert_eq|done].
  - rewrite IH by done. destruct (built_value e b p); [done|].
    rewrite build_path_fst. destruct (built_value e b p'); [|done].
    rewrite lookup_insert_ne; [done|]. intros E. apply Hp'. rewrite E.
    by apply list_elem_of_fmap_2.
Qed.

(** A new document holds, at each declared path, the cast value of the
    body or the default, and nothing at any other key. *)
Lemma new_document_at e S b p :
  NoDup (map pname (schema_paths S)) -> p ∈ schema_paths S ->
  fst (new_document e S b) !! pname p = built_value e b p.
Proof.
  intros Hnd Hp. unfold new_document. rewrite fold_build_at by done.
  by destruct (built_value e b p).
Qed.

Lemma new_document_strict e S b k :
  declares S k = false -> fst (new_document e S b) !! k = None.
Proof.
  intros Hk. unfold new_document. rewrite fold_build_other; [done|].
  unfold declares in Hk. by apply bool_decide_eq_false in Hk.
Qed.

Lemma new_document_errors e S b :
  snd (new_document e S b) = flat_map (cast_error_of b) (schema_paths S).
Proof. unfold new_document. by rewrite fold_build_snd. Qed.

(** What [Model.create] stores when it succeeds. *)
Lemma Model_create_inr e M b st st' d :
  Model_create e M b st = inr (st', d) ->
  let S := mschema M e in
  let d0 := fst (new_document e S b) in
  snd (new_document e S b) = [] /\
  validate e S [] d0 = [] /\
  d = <["__v" := num 0]>
        (<["_id" := VId (newObjectId e)]> (preSave M e b (stamp_new e S d0))) /\
  violates (munique M) (mget M st) d = false /\
  st' = postSave M e d (mset M (mget M st ++ [d])%list st).
Proof.
  unfold Model_create. destruct (new_document e (mschema M e) b) as [d0 ce] eqn:Hnd.
  destruct (map snd ce ++ _)%list eqn:Herr; [|done]. intros H.
  apply bindE_inr in H as (? & _ & H).
  destruct (violates _ _ _) eqn:Hv; [done|]. injection H as <- <-.
  apply app_eq_nil in Herr as [Hce Hval]. apply map_eq_nil in Hce. subst ce.
  cbn [fst snd]. by repeat split.
Qed.

Lemma flat_map_nil {A B} (f : A -> list B) (l : list A) x :
  flat_map f l = [] -> In x l -> f x = [].
Proof.
  induction l as [|y r IH]; [done|]. simpl.
  intros [H1 H2]%app_eq_nil [->|Hx]; [done|by apply IH].
Qed.

Lemma validate_nil e S d p :
  validate e S [] d = [] -> In p (schema_paths S) ->
  Forall (fun r => check_rule e p (d !! pname p) r = []) (prules p).
Proof.
  unfold validate. intros H Hp.
  apply (flat_map_nil _ _ p) in H; [|done]. cbv beta in H.
  rewrite bool_decide_eq_false_2 in H by (apply not_elem_of_nil).
  unfold check_path in H.
  assert (Hf : flat_map (check_rule e p (d !! pname p)) (prules p) = []).
  { by destruct (flat_map _ _). }
  apply Forall_forall. intros r Hr%list_elem_of_In.
  by apply (flat_map_nil _ _ r) in Hf.
Qed.

Lemma createReview_created e req st :
  status (snd (createReview e req st)) = 201 ->
  exists st' d, Model_create e Review (body req) st = inr (st', d) /\
    createReview e req st = (st', ok_data 201 (Doc d) None).
Proof.
  unfold createReview. destruct (negb (connected e)); [done|].
  destruct (Model_create e Review (body req) st) as [x|[st' d]].
  - by destruct x.
  - intros _. by exists st', d.
Qed.

(** X13. A review that [createReview] stored (answer 201) from a body
    that sets neither [_id] nor [__v] is the last of the collection; it
    carries the id the driver gave it, the version key with value 0, the
    current time as [updatedAt], no other key that the schema does not
    declare, and what the schema validates: a rating from 1 to 5, a
    reviewer id, a title of 1 to 200 code units, a content of 1 to 5000
    code units and, as status, one of the four of the schema or null. *)
Theorem created_review_is_valid (e : env) (req : request) (st : store) :
  status (snd (createReview e req st)) = 201 ->
  body req !! "_id" = None ->
  body req !! "__v" = None ->
  exists d q r t c,
    reviews (fst (createReview e req st)) = (reviews st ++ [d])%list /\
    d !! "_id" = Some (VId (newObjectId e)) /\
    d !! "__v" = Some (num 0) /\
    d !! "updatedAt" = Some (VDate (now e)) /\
    (forall k, is_Some (d !! k) ->
       k = "_id" \/ k = "__v" \/ declares reviewSchema k = true) /\
    d !! "rating" = Some (VNum q) /\ (1 <= q)%Q /\ (q <= 5)%Q /\
    d !! "reviewer" = Some (VId r) /\
    d !! "title" = Some (VStr t) /\ t <> "" /\ (js_length t <= 200)%nat /\
    d !! "content" = Some (VStr c) /\ c <> "" /\ (js_length c <= 5000)%nat /\
    (forall s, d !! "status" = Some (VStr s) -> s ∈ review_statuses).
Proof.
  intros H _ _. apply createReview_created in H as (st' & d & Hc & ->). cbn [fst snd data].
  apply Model_create_inr in Hc as (_ & Hval & Hd & _ & ->).
  change (mschema Review e) with reviewSchema in *.
  set (d0 := fst (new_document e reviewSchema (body req))) in *.
  pose proof (new_document_conforms e reviewSchema (body req) (reviewSchema_well_formed e))
    as Hconf. fold d0 in Hconf.
  assert (Hd0 : forall k, k <> "__v" -> k <> "_id" -> k <> "updatedAt" -> d !! k = d0 !! k).
  { intros k H0 H1 H2. rewrite Hd. simpl. unfold reviewPreSave.
    by rewrite !lookup_insert_ne. }
  assert (Hrule : forall name t rules r, In (P name t rules) (schema_paths reviewSchema) ->
            In r rules -> check_rule e (P name t rules) (d0 !! name) r = []).
  { intros name t rules r Hp Hr.
    pose proof (validate_nil e reviewSchema d0 _ Hval Hp) as Hall.
    rewrite Forall_forall in Hall. by apply Hall, list_elem_of_In. }
  assert (Htype : forall name t rules, In (P name t rules) (schema_paths reviewSchema) ->
            from_option (has_type t) true (d0 !! name) = true).
  { intros name t rules Hp. apply (conforms_path _ _ _ Hconf Hp). }
  pose proof (Htype "rating" _ _ ltac:(in_paths)) as Trating.
  pose proof (Hrule "rating" _ _ (Required "Rating is required")
                ltac:(in_paths) ltac:(in_paths)) as R1.
  pose proof (Hrule "rating" _ _ (Min 1 "Rating must be at least 1")
                ltac:(in_paths) ltac:(in_paths)) as R2.
  pose proof (Hrule "rating" _ _ (Max 5 "Rating cannot exceed 5")
                ltac:(in_paths) ltac:(in_paths)) as R3.
  destruct (d0 !! "rating") as [[| |q| | | | |]|] eqn:Erating; try discriminate.
  pose proof (Htype "reviewer" _ _ ltac:(in_paths)) as Treviewer.
  pose proof (Hrule "reviewer" _ _ (Required "Reviewer is required")
                ltac:(in_paths) ltac:(in_paths)) as V1.
  destruct (d0 !! "reviewer") as [[| | | |r| | |]|] eqn:Ereviewer; try discriminate.
  pose proof (Htype "title" _ _ ltac:(in_paths)) as Ttitle.
  pose proof (Hrule "title" _ _ (Required "Review title is required")
                ltac:(in_paths) ltac:(in_paths)) as T1.
  pose proof (Hrule "title" _ _ (MaxLength 200 "Title cannot exceed 200 characters")
                ltac:(in_paths) ltac:(in_paths)) as T2.
  destruct (d0 !! "title") as [[| | |t| | | |]|] eqn:Etitle; try discriminate.
  pose proof (Htype "content" _ _ ltac:(in_paths)) as Tcontent.
  pose proof (Hrule "content" _ _ (Required "Review content is required")
                ltac:(in_paths) ltac:(in_paths)) as C1.
  pose proof (Hrule "content" _ _ (MaxLength 5000 "Content cannot exceed 5000 characters")
                ltac:(in_paths) ltac:(in_paths)) as C2.
  destruct (d0 !! "content") as [[| | |c| | | |]|] eqn:Econtent; try discriminate.
  pose proof (Hrule "status" _ _ (Enum ["Published"; "Pending"; "Hidden"; "Flagged"])
                ltac:(in_paths) ltac:(in_paths)) as S1.
  exists d, q, r, t, c.
  split.
  { change (postSave Review) with reviewPostSave. unfold reviewPostSave.
    by rewrite update_ratings_reviews. }
  split; [by rewrite Hd, lookup_insert_ne, lookup_insert_eq|].
  split; [by rewrite Hd, lookup_insert_eq|].
  split.
  { rewrite Hd, !lookup_insert_ne by done. simpl. unfold reviewPreSave.
    by rewrite lookup_insert_eq. }
  split.
  { intros k Hk. destruct (decide (k = "_id")) as [->|H1]; [by left|]. right.
    destruct (decide (k = "__v")) as [->|H0]; [by left|]. right.
    destruct (decide (k = "updatedAt")) as [->|H2]; [reflexivity|].
    rewrite Hd0 in Hk by done.
    destruct (declares reviewSchema k) eqn:E; [done|].
    unfold d0 in Hk. rewrite new_document_strict in Hk by done. by destruct Hk. }
  split; [by rewrite Hd0|].
  split.
  { cbn [check_rule] in R2. destruct (Qltb q (inject_Z 1)) eqn:E; [done|].
    unfold Qltb in E. apply negb_false_iff in E. by apply Qle_bool_iff in E. }
  split.
  { cbn [check_rule] in R3. destruct (Qltb (inject_Z 5) q) eqn:E; [done|].
    unfold Qltb in E. apply negb_false_iff in E. by apply Qle_bool_iff in E. }
  split; [by rewrite Hd0|].
  split; [by rewrite Hd0|].
  split; [intros ->; discriminate T1|].
  split.
  { cbn [check_rule] in T2. destruct (200 <? js_length t)%nat eqn:E; [done|].
    apply Nat.ltb_ge in E. exact E. }
  split; [by rewrite Hd0|].
  split; [intros ->; discriminate C1|].
  split.
  { cbn [check_rule] in C2. destruct (5000 <? js_length c)%nat eqn:E; [done|].
    apply Nat.ltb_ge in E. exact E. }
  intros s Hs. rewrite Hd0 in Hs by done. rewrite Hs in S1. cbn [check_rule] in S1.
  unfold review_statuses. by case_bool_decide.
Qed.

Lemma created_review_is_valid_witness :
  let req := post_request (review_body "book" book_b1 user_d1 4) in
  exists d q r t c,
    reviews (fst (createReview env0 req fresh_store)) = (reviews fresh_store ++ [d])%list /\
    d !! "_id" = Some (VId (newObjectId env0)) /\
    d !! "__v" = Some (num 0) /\
    d !! "updatedAt" = Some (VDate (now env0)) /\
    (forall k, is_Some (d !! k) ->
       k = "_id" \/ k = "__v" \/ declares reviewSchema k = true) /\
    d !! "rating" = Some (VNum q) /\ (1 <= q)%Q /\ (q <= 5)%Q /\
    d !! "reviewer" = Some (VId r) /\
    d !! "title" = Some (VStr t) /\ t <> "" /\ (js_length t <= 200)%nat /\
    d !! "content" = Some (VStr c) /\ c <> "" /\ (js_length c <= 5000)%nat /\
    (forall s, d !! "status" = Some (VStr s) -> s ∈ review_statuses).
Proof.
  intros req. apply (created_review_is_valid env0 req fresh_store); by vm_compute.
Defined.

(** X14. One review per reviewer and target: when a stored review has the
    reviewer and the book (or the author) that the body names, in any
    spelling of their ids, [createReview] on a connected backend that
    accepts the insert stores nothing and answers 400, with [You have
    already reviewed this item] unless the body fails the validation of the
    schema. *)
Theorem duplicate_review_refused (e : env) (req : request) (st : store) (x : doc)
    (target t tid r rid : string) :
  readyState e = 1 ->
  fault e "Review" OpCreate = false ->
  target = "book" \/ target = "author" ->
  body req !! target = Some (VStr t) -> castObjectId t = Some tid ->
  body req !! "reviewer" = Some (VStr r) -> castObjectId r = Some rid ->
  In x (reviews st) ->
  x !! target = Some (VId tid) -> x !! "reviewer" = Some (VId rid) ->
  fst (createReview e req st) = st /\
  (snd (createReview e req st) = fail 400 "You have already reviewed this item" \/
   exists messages, snd (createReview e req st) = fail 400 (join_messages messages)).
Proof.
  intros Hc Hf Ht Hb Hbid Hr Hrid Hx Hxt Hxr.
  unfold createReview, connected. rewrite Hc. simpl negb. cbv iota.
  unfold Model_create. change (mschema Review e) with reviewSchema.
  pose proof (new_document_at e reviewSchema (body req)) as Hat.
  destruct (new_document e reviewSchema (body req)) as [d0 ce]. cbn [fst] in Hat.
  destruct (map snd ce ++ _)%list as [|m ms]; [|split; [done|right; by eexists]].
  unfold guard. change (mname Review) with "Review". rewrite Hf. cbn [bindE].
  assert (Hd0t : d0 !! target = Some (VId tid)).
  { destruct Ht as [-> | ->].
    - pose proof (Hat (P "book" TObjectId []) (proj1 (reviewSchema_well_formed e))
                    ltac:(apply list_elem_of_In; in_paths)) as Hk.
      change (d0 !! "book" = built_value e (body req) (P "book" TObjectId [])) in Hk.
      rewrite Hk. unfold built_value. cbn [pname ptyp prules P]. rewrite Hb.
      by rewrite (cast_id_string t tid Hbid).
    - pose proof (Hat (P "author" TObjectId []) (proj1 (reviewSchema_well_formed e))
                    ltac:(apply list_elem_of_In; in_paths)) as Hk.
      change (d0 !! "author" = built_value e (body req) (P "author" TObjectId [])) in Hk.
      rewrite Hk. unfold built_value. cbn [pname ptyp prules P]. rewrite Hb.
      by rewrite (cast_id_string t tid Hbid). }
  assert (Hd0r : d0 !! "reviewer" = Some (VId rid)).
  { pose proof (Hat (P "reviewer" TObjectId [Required "Reviewer is required"])
                  (proj1 (reviewSchema_well_formed e))
                  ltac:(apply list_elem_of_In; in_paths)) as Hk.
    change (d0 !! "reviewer" = built_value e (body req)
                                 (P "reviewer" TObjectId [Required "Reviewer is required"]))
      in Hk.
    rewrite Hk. unfold built_value. cbn [pname ptyp prules P]. rewrite Hr.
    by rewrite (cast_id_string r rid Hrid). }
  set (d := <["__v" := num 0]> _).
  assert (Hdt : d !! target = Some (VId tid)).
  { unfold d. simpl. unfold reviewPreSave.
    destruct Ht as [-> | ->]; by rewrite !lookup_insert_ne. }
  assert (Hdr : d !! "reviewer" = Some (VId rid)).
  { unfold d. simpl. unfold reviewPreSave. by rewrite !lookup_insert_ne. }
  assert (Hv : violates (munique Review) (mget Review st) d = true).
  { unfold violates. apply existsb_exists.
    exists {| ikeys := ["reviewer"; target]; ifilter := target |}. split.
    - destruct Ht as [-> | ->]; simpl; tauto.
    - apply andb_true_iff. split.
      + unfold in_index. cbn [ifilter]. apply bool_decide_eq_true. by rewrite Hdt.
      + apply existsb_exists. exists x. split; [done|].
        apply andb_true_iff. split.
        * unfold in_index. cbn [ifilter]. apply bool_decide_eq_true. by rewrite Hxt.
        * unfold same_keys. cbn [ikeys forallb].
          rewrite Hxt, Hxr, Hdt, Hdr. simpl.
          by rewrite !bool_decide_eq_true_2. }
  rewrite Hv. split; [done|by left].
Qed.

Lemma duplicate_review_refused_witness :
  let req := post_request (review_body "book" book_b1 user_d1 2) in
  let st := rated_store [the_review 4 "Published"] in
  fst (createReview env0 req st) = st /\
  (snd (createReview env0 req st) = fail 400 "You have already reviewed this item" \/
   exists messages, snd (createReview env0 req st) = fail 400 (join_messages messages)).
Proof.
  intros req st.
  apply (duplicate_review_refused env0 req st (the_review 4 "Published")
           "book" book_b1 book_b1 user_d1 user_d1); try reflexivity.
  - by left.
  - by left.
Defined.

(** ** The create validation against the schema *)

Lemma on_key_nil b k required check :
  on_key b k required check = [] ->
  match b !! k with
  | Some v => check v = []
  | None => required = false
  end.
Proof.
  unfold on_key. destruct (b !! k) as [v|].
  - by destruct (check v).
  - by destruct required.
Qed.

Lemma omap_nil {A B} (f : A -> option B) (l : list A) x :
  omap f l = [] -> x ∈ l -> f x = None.
Proof.
  induction l as [|y r IH]; [by intros _ ?%elem_of_nil|].
  simpl. destruct (f y) eqn:E; [done|].
  intros H [->|Hx]%elem_of_cons; [done|by apply IH].
Qed.

Lemma unknown_keys_nil known (b : doc) k :
  unknown_keys known b = [] -> k ∉ known -> b !! k = None.
Proof.
  intros H Hk. destruct (b !! k) as [v|] eqn:E; [|done].
  apply elem_of_map_to_list in E.
  apply (omap_nil _ _ _ H) in E. simpl in E. by rewrite bool_decide_eq_false_2 in E.
Qed.

Lemma joi_text_nil k trimmed n m1 m2 v :
  joi_text k trimmed n m1 m2 v = [] ->
  exists s, v = VStr s /\
    (if trimmed then trim s else s) <> "" /\
    (js_length (if trimmed then trim s else s) <= n)%nat.
Proof.
  destruct v; try done. simpl. intros H. exists s. split; [done|].
  case_bool_decide; [done|]. split; [done|].
  destruct (n <? _)%nat eqn:E; [done|]. by apply Nat.ltb_ge in E.
Qed.

Lemma joi_objectid_nil k m v :
  joi_objectid k m v = [] -> exists s, v = VStr s /\ isObjectIdString s = true.
Proof.
  destruct v; try done. simpl. case_bool_decide; [done|].
  destruct (isObjectIdString s) eqn:E; [|done]. by exists s.
Qed.

Lemma joi_valid_nil k vals v :
  joi_valid k vals v = [] -> exists s, v = VStr s /\ s ∈ vals.
Proof.
  destruct v; try done. simpl. case_bool_decide; [|done]. by exists s.
Qed.

Lemma joi_rating_nil v :
  joi_rating v = [] ->
  exists q, v = VNum q /\ is_integer q = true /\ Qltb q 1 = false /\ Qltb 5 q = false.
Proof.
  destruct v; try done. simpl. intros H. exists q. split; [done|].
  destruct (is_integer q); [|done]. destruct (Qltb q 1); [done|]. by destruct (Qltb 5 q).
Qed.

Lemma is_empty_text s : s <> "" -> is_empty (Some (VStr s)) = false.
Proof. by destruct s. Qed.

Lemma validate_all e S d : validate e S [] d = flat_map (check_path e d) (schema_paths S).
Proof.
  unfold validate. apply flat_map_ext. intros p.
  by rewrite bool_decide_eq_false_2 by apply not_elem_of_nil.
Qed.

(** X15. No body that passes the create validation can be stored: the
    validation allows no [reviewer] key, the controller adds none and the
    schema requires one. On a connected backend [createReview] answers such
    a body with 400 [Reviewer is required] and leaves the store as it was. *)
Theorem validated_body_lacks_reviewer (e : env) (req : request) (st : store) :
  readyState e = 1 ->
  validateBody reviewValidation_create req = None ->
  createReview e req st = (st, fail 400 "Reviewer is required").
Proof.
  intros Hc Hv.
  assert (Hjoi : reviewValidation_create (body req) = []).
  { unfold validateBody in Hv. by destruct (reviewValidation_create (body req)). }
  clear Hv. unfold reviewValidation_create in Hjoi.
  apply app_eq_nil in Hjoi as [Jtitle Hjoi]. apply app_eq_nil in Hjoi as [Jcontent Hjoi].
  apply app_eq_nil in Hjoi as [Jrating Hjoi]. apply app_eq_nil in Hjoi as [Jbook Hjoi].
  apply app_eq_nil in Hjoi as [Jauthor Hjoi]. apply app_eq_nil in Hjoi as [Jstatus Hjoi].
  apply app_eq_nil in Hjoi as [Junknown _].
  apply on_key_nil in Jtitle, Jcontent, Jrating, Jbook, Jauthor, Jstatus.
  assert (Hno : forall k, k ∉ review_keys -> body req !! k = None).
  { intros k. by apply unknown_keys_nil. }
  pose proof (Hno "reviewer" ltac:(decide_closed)) as Breviewer.
  pose proof (Hno "helpful" ltac:(decide_closed)) as Bhelpful.
  pose proof (Hno "moderatedBy" ltac:(decide_closed)) as BmoderatedBy.
  pose proof (Hno "moderatedAt" ltac:(decide_closed)) as BmoderatedAt.
  pose proof (Hno "moderationReason" ltac:(decide_closed)) as BmoderationReason.
  pose proof (Hno "createdAt" ltac:(decide_closed)) as BcreatedAt.
  pose proof (Hno "updatedAt" ltac:(decide_closed)) as BupdatedAt.
  clear Hno Junknown.
  destruct (body req !! "title") as [vt|] eqn:Btitle; [|done].
  apply joi_text_nil in Jtitle as (t & -> & Ht1 & Ht2).
  destruct (body req !! "content") as [vc|] eqn:Bcontent; [|done].
  apply joi_text_nil in Jcontent as (c & -> & Hc1 & Hc2).
  destruct (body req !! "rating") as [vr|] eqn:Brating; [|done].
  apply joi_rating_nil in Jrating as (q & -> & _ & Hq1 & Hq2).
  assert (Hbook : exists ob, body req !! "book" = VStr <$> ob /\
                    from_option isObjectIdString true ob = true).
  { destruct (body req !! "book") as [vb|]; [|by exists None].
    apply joi_objectid_nil in Jbook as (s & -> & Hs). by exists (Some s). }
  destruct Hbook as (ob & Bbook & Hob). clear Jbook.
  assert (Hauthor : exists oa, body req !! "author" = VStr <$> oa /\
                      from_option isObjectIdString true oa = true).
  { destruct (body req !! "author") as [va|]; [|by exists None].
    apply joi_objectid_nil in Jauthor as (s & -> & Hs). by exists (Some s). }
  destruct Hauthor as (oa & Bauthor & Hoa). clear Jauthor.
  assert (Hstatus : exists os, body req !! "status" = VStr <$> os /\
                      from_option (fun s => s ∈ review_statuses) True os).
  { destruct (body req !! "status") as [vs|]; [|by exists None].
    apply joi_valid_nil in Jstatus as (s & -> & Hs). by exists (Some s). }
  destruct Hstatus as (os & Bstatus & Hos). clear Jstatus.
  unfold createReview, connected. rewrite Hc. simpl negb. cbv iota.
  unfold Model_create. change (mschema Review e) with reviewSchema.
  pose proof (fun p => new_document_at e reviewSchema (body req) p
                          (proj1 (reviewSchema_well_formed e))) as Hat.
  pose proof (new_document_errors e reviewSchema (body req)) as Herr.
  destruct (new_document e reviewSchema (body req)) as [d0 ce]. cbn [fst snd] in Hat, Herr.
  assert (Hce : ce = []).
  { rewrite Herr. cbn [schema_paths reviewSchema paths timestamps app flat_map].
    unfold cast_error_of. cbn [pname ptyp P].
    rewrite Btitle, Bcontent, Brating, Bbook, Bauthor, Breviewer, Bhelpful, Bstatus,
      BmoderatedBy, BmoderatedAt, BmoderationReason, BcreatedAt, BupdatedAt.
    destruct ob as [sb|], oa as [sa|], os as [ss|]; simpl in *;
      by rewrite ?(castObjectId_hex _ Hob), ?(castObjectId_hex _ Hoa). }
  rewrite Hce. cbn [map app].
  rewrite validate_all.
  assert (Hval : flat_map (check_path e d0) (schema_paths reviewSchema)
                 = ["Reviewer is required"]).
  { cbn [schema_paths reviewSchema paths timestamps app flat_map].
    unfold check_path.
    repeat match goal with |- context [d0 !! pname ?p] =>
      rewrite (Hat p ltac:(apply list_elem_of_In; in_paths)) end.
    unfold built_value. cbn [pname ptyp prules P].
    rewrite Btitle, Bcontent, Brating, Bbook, Bauthor, Breviewer, Bhelpful, Bstatus,
      BmoderatedBy, BmoderatedAt, BmoderationReason, BcreatedAt, BupdatedAt.
    cbn [cast fmap option_fmap option_map apply_setters fold_left set_rule default_of].
    cbn [flat_map check_rule app].
    rewrite (is_empty_text (trim t)) by done.
    rewrite (is_empty_text c) by done.
    rewrite (proj2 (Nat.ltb_ge _ _) Ht2), (proj2 (Nat.ltb_ge _ _) Hc2).
    change (inject_Z 1) with 1%Q. change (inject_Z 5) with 5%Q. rewrite Hq1, Hq2.
    destruct ob as [sb|], oa as [sa|], os as [ss|]; simpl in Hob, Hoa, Hos;
      cbn [fmap option_fmap option_map cast apply_setters fold_left set_rule default_of
           flat_map check_rule app is_empty take];
      rewrite ?(castObjectId_hex _ Hob), ?(castObjectId_hex _ Hoa);
      cbn [fmap option_fmap option_map apply_setters flat_map check_rule app is_empty take];
      rewrite ?(bool_decide_eq_true_2 _ Hos); try reflexivity. }
  rewrite Hval. reflexivity.
Qed.

Lemma validated_body_lacks_reviewer_witness :
  validateBody reviewValidation_create (post_request body_both) = None /\
  createReview env0 (post_request body_both) (rated_store [])
  = (rated_store [], fail 400 "Reviewer is required").
Proof.
  assert (H : validateBody reviewValidation_create (post_request body_both) = None)
    by (by vm_compute).
  split; [exact H|].
  apply (validated_body_lacks_reviewer env0 (post_request body_both) (rated_store []));
    [reflexivity|exact H].
Defined.

(** X16. The create validation is the stricter of the two: a body that it
    accepts is accepted by the update validation. *)
Theorem create_validation_implies_update (b : doc) :
  reviewValidation_create b = [] -> reviewValidation_update b = [].
Proof.
  unfold reviewValidation_create, reviewValidation_update. intros H.
  apply app_eq_nil in H as [Jtitle H]. apply app_eq_nil in H as [Jcontent H].
  apply app_eq_nil in H as [Jrating H]. apply app_eq_nil in H as [Jbook H].
  apply app_eq_nil in H as [Jauthor H]. apply app_eq_nil in H as [Jstatus H].
  apply app_eq_nil in H as [Junknown _].
  rewrite Jbook, Jauthor, Jstatus, Junknown.
  apply on_key_nil in Jtitle, Jcontent, Jrating.
  unfold on_key in *.
  destruct (b !! "title") as [vt|]; [|done]. destruct (b !! "content") as [vc|]; [|done].
  destruct (b !! "rating") as [vr|]; [|done]. rewrite Jrating.
  apply joi_text_nil in Jtitle as (t & -> & Ht1 & Ht2).
  apply joi_text_nil in Jcontent as (c & -> & Hc1 & Hc2).
  unfold joi_text.
  rewrite !bool_decide_eq_false_2 by done.
  by rewrite (proj2 (Nat.ltb_ge _ _) Ht2), (proj2 (Nat.ltb_ge _ _) Hc2).
Qed.

Lemma create_validation_implies_update_witness :
  reviewValidation_create body_both = [] /\ reviewValidation_update body_both = [].
Proof.
  assert (H : reviewValidation_create body_both = []) by (by vm_compute).
  split; [exact H|]. exact (create_validation_implies_update body_both H).
Defined.

(** ** Refused requests store nothing *)

Lemma handle_fst a b c st x : fst (handle a b c st x) = st.
Proof. unfold handle. by destruct x, a, b, c. Qed.

Lemma create_handler_atomic M label dup e req st :
  success (snd (create_handler M label dup e req st)) = true \/
  fst (create_handler M label dup e req st) = st.
Proof.
  unfold create_handler. destruct (negb (connected e)); [by right|].
  destruct (Model_create e M (body req) st) as [x|[st' d]]; [right; apply handle_fst|by left].
Qed.

Lemma update_handler_atomic M label Label dup e req st :
  success (snd (update_handler M label Label dup e req st)) = true \/
  fst (update_handler M label Label dup e req st) = st.
Proof.
  unfold update_handler. destruct (negb (connected e)); [by right|].
  destruct (Model_findById e M (route_param req "id") st) as [x|[d|]]; cbn [bindE].
  - right. apply handle_fst.
  - destruct (Model_findByIdAndUpdate e M true (route_param req "id") (body req) st)
      as [x|u]; cbn [bindE]; [right; apply handle_fst|by left].
  - by right.
Qed.

Lemma delete_handler_atomic M label Label e req st :
  success (snd (delete_handler M label Label e req st)) = true \/
  fst (delete_handler M label Label e req st) = st.
Proof.
  unfold delete_handler. destruct (negb (connected e)); [by right|].
  destruct (Model_findById e M (route_param req "id") st) as [x|[d|]]; cbn [bindE].
  - right. apply handle_fst.
  - destruct (Model_findByIdAndDelete e M (route_param req "id") st)
      as [x|u]; cbn [bindE]; [right; apply handle_fst|by left].
  - by right.
Qed.

(** X17. A request that a mutation handler refuses stores nothing: each of
    the thirteen handlers answers with [success: true], or leaves the store
    as it was. The reads that [populate] adds after a write are taken not to
    fail. *)
Theorem refused_mutation_stores_nothing (e : env) (req : request) (st : store) :
  (forall name, fault e name OpFind = false) ->
  Forall (fun h => success (snd (h e req st)) = true \/ fst (h e req st) = st)
    mutation_handlers.
Proof.
  intros _. unfold mutation_handlers.
  repeat (apply Forall_cons; split); try apply Forall_nil_2;
    try apply create_handler_atomic; try apply update_handler_atomic;
    try apply delete_handler_atomic.
  - unfold createReview. destruct (negb (connected e)); [by right|].
    destruct (Model_create e Review (body req) st) as [x|[st' d]]; [right; by destruct x|by left].
  - unfold updateReview. destruct (negb (connected e)); [by right|].
    destruct (Model_findById e Review (route_param req "id") st) as [x|[d|]]; cbn [bindE].
    + right. by destruct x.
    + destruct (Model_findByIdAndUpdate e Review true (route_param req "id") (body req) st)
        as [x|u]; cbn [bindE]; [right; by destruct x|by left].
    + by right.
  - unfold deleteReview. destruct (negb (connected e)); [by right|].
    destruct (Model_findById e Review (route_param req "id") st) as [x|[d|]]; cbn [bindE].
    + right. by destruct x.
    + destruct (Model_findByIdAndDelete e Review (route_param req "id") st)
        as [x|u]; cbn [bindE]; [right; by destruct x|by left].
    + by right.
  - unfold markReviewHelpful. destruct (negb (connected e)); [by right|].
    destruct (Model_findByIdAndInc e Review (route_param req "id") "helpful" 1 st)
      as [x|[st' [d|]]] eqn:H; [right; by destruct x|by left|].
    right. cbn [fst]. unfold Model_findByIdAndInc in H.
    apply bindE_inr in H as (oid & _ & H). apply bindE_inr in H as (? & _ & H).
    destruct (List.find _ _); by injection H.
Qed.

Lemma refused_mutation_stores_nothing_witness :
  let req := post_request (review_body "book" book_b1 user_d1 9) in
  Forall (fun h => success (snd (h env0 req fresh_store)) = true \/
                   fst (h env0 req fresh_store) = fresh_store) mutation_handlers.
Proof.
  intros req. apply (refused_mutation_stores_nothing env0 req fresh_store).
  intros name. reflexivity.
Defined.

(** ** Reading back what was written *)

Lemma find_app_last (f : doc -> bool) l d :
  Forall (fun x => f x = false) l -> f d = true -> List.find f (l ++ [d]) = Some d.
Proof.
  induction 1 as [|x r Hx Hr IH]; simpl; intros Hd; [by rewrite Hd|].
  rewrite Hx. by apply IH.
Qed.

Lemma find_remove_doc oid l :
  (length (List.filter (has_id oid) l) <= 1)%nat ->
  List.find (has_id oid) (remove_doc oid l) = None.
Proof.
  induction l as [|x r IH]; simpl; [done|].
  destruct (has_id oid x) eqn:E; simpl.
  - intros H. destruct (List.find (has_id oid) r) as [y|] eqn:Hf; [|done].
    apply find_some in Hf as [Hin Hy].
    assert (In y (List.filter (has_id oid) r)) by (by apply filter_In).
    destruct (List.filter (has_id oid) r); [done|simpl in H; lia].
  - rewrite E. exact IH.
Qed.

Lemma get_review_found e req st s oid d :
  readyState e = 1 -> fault e "Review" OpFindById = false ->
  params req !! "id" = Some s -> castObjectId s = Some oid ->
  List.find (has_id oid) (reviews st) = Some d ->
  getReviewById e req st = ok_data 200 (Doc d) None.
Proof.
  intros Hc Hf Hp Hid Hfind.
  unfold getReviewById, get_handler, connected, Model_findById, route_param, guard.
  rewrite Hc, Hp. simpl negb. cbv iota. rewrite (castId_string s oid Hid). cbn [bindE].
  change (mname Review) with "Review". rewrite Hf. cbn [bindE].
  change (mget Review st) with (reviews st). by rewrite Hfind.
Qed.

Lemma updateReview_ok e req st :
  status (snd (updateReview e req st)) = 200 ->
  exists s oid d u,
    readyState e = 1 /\ params req !! "id" = Some s /\ castObjectId s = Some oid /\
    fault e "Review" OpFindById = false /\
    List.find (has_id oid) (reviews st) = Some d /\
    cast_update reviewSchema (body req) = inr u /\
    updateReview e req st
    = (set_reviews (replace_doc oid (u ∪ d) (reviews st)) st, ok_data 200 (Doc (u ∪ d)) None).
Proof.
  unfold updateReview, connected.
  destruct (readyState e =? 1) eqn:Hc; [|done]. apply Z.eqb_eq in Hc. simpl negb. cbv iota.
  unfold Model_findById, Model_findByIdAndUpdate, route_param, guard.
  destruct (params req !! "id") as [s|] eqn:Hp; [|done].
  cbn [castId]. destruct (castObjectId s) as [oid|] eqn:Hid; [|done]. cbn [from_option bindE].
  change (mname Review) with "Review".
  destruct (fault e "Review" OpFindById) eqn:Hg; [done|]. cbn [bindE].
  change (mget Review st) with (reviews st).
  destruct (List.find (has_id oid) (reviews st)) as [d|] eqn:Hf; [|done].
  change (mschema Review e) with reviewSchema.
  change (timestamps reviewSchema) with false. cbv iota.
  destruct (cast_update reviewSchema (body req)) as [x|u] eqn:Hu; [by destruct x|].
  cbn [bindE]. destruct (validate_update e reviewSchema u); [|done].
  destruct (fault e "Review" OpUpdate); [done|]. cbn [bindE].
  destruct (violates _ _ _); [done|]. intros _. by exists s, oid, d, u.
Qed.

Lemma deleteReview_ok e req st :
  status (snd (deleteReview e req st)) = 200 ->
  exists s oid d,
    readyState e = 1 /\ params req !! "id" = Some s /\ castObjectId s = Some oid /\
    fault e "Review" OpFindById = false /\
    List.find (has_id oid) (reviews st) = Some d /\
    deleteReview e req st
    = (set_reviews (remove_doc oid (reviews st)) st,
       ok_data 200 EmptyObject (Some "Review deleted successfully")).
Proof.
  unfold deleteReview, connected.
  destruct (readyState e =? 1) eqn:Hc; [|done]. apply Z.eqb_eq in Hc. simpl negb. cbv iota.
  unfold Model_findById, Model_findByIdAndDelete, route_param, guard.
  destruct (params req !! "id") as [s|] eqn:Hp; [|done].
  cbn [castId]. destruct (castObjectId s) as [oid|] eqn:Hid; [|done]. cbn [from_option bindE].
  change (mname Review) with "Review".
  destruct (fault e "Review" OpFindById) eqn:Hg; [done|]. cbn [bindE].
  change (mget Review st) with (reviews st).
  destruct (List.find (has_id oid) (reviews st)) as [d|] eqn:Hf; [|done].
  destruct (fault e "Review" OpDelete); [done|]. cbn [bindE].
  intros _. by exists s, oid, d.
Qed.

(** X18. Reading back through [GET /api/reviews/:id] on a backend that
    rejects no call. After [createReview] answered 201 for a body that
    sets no [_id], a request that names the id the driver gave to the new
    review (fresh in the collection) is answered 200; after [updateReview] answered 200 the same id is answered 200;
    after [deleteReview] answered 200, in a collection without repeated
    ids, the same id is answered 404. *)
Theorem review_read_your_writes (e : env) (req : request) (st : store) :
  reliable e ->
  (status (snd (createReview e req st)) = 201 ->
   body req !! "_id" = None ->
   Forall (fun x => has_id (newObjectId e) x = false) (reviews st) ->
   forall req' s, params req' !! "id" = Some s -> castObjectId s = Some (newObjectId e) ->
     status (getReviewById e req' (fst (createReview e req st))) = 200) /\
  (status (snd (updateReview e req st)) = 200 ->
   status (getReviewById e req (fst (updateReview e req st))) = 200) /\
  (status (snd (deleteReview e req st)) = 200 ->
   unique_ids (reviews st) ->
   getReviewById e req (fst (deleteReview e req st)) = fail 404 "Review not found").
Proof.
  intros Hr. split; [|split].
  - intros H _ Hfresh req' s Hp Hid.
    assert (Hc : readyState e = 1).
    { unfold createReview, connected in H. destruct (readyState e =? 1) eqn:E; [lia|done]. }
    apply createReview_created in H as (st' & d & Hm & ->). cbn [fst snd data].
    apply Model_create_inr in Hm as (_ & _ & Hd & _ & ->).
    rewrite (get_review_found e req' _ s (newObjectId e) d); try done.
    change (postSave Review) with reviewPostSave. unfold reviewPostSave.
    rewrite update_ratings_reviews. cbn [mset Review set_reviews reviews mget].
    apply find_app_last; [done|].
    unfold has_id. apply bool_decide_eq_true.
    by rewrite Hd, lookup_insert_ne, lookup_insert_eq.
  - intros H.
    apply updateReview_ok in H as (s & oid & d & u & Hc & Hp & Hid & Hg & Hf & Hu & ->).
    cbn [fst snd data ok_data].
    rewrite (get_review_found e req _ s oid (u ∪ d)); try done.
    cbn [set_reviews reviews].
    apply find_replace_doc; [|by rewrite Hf].
    apply find_has_id in Hf. unfold has_id in *.
    apply bool_decide_eq_true in Hf. apply bool_decide_eq_true.
    rewrite lookup_union_r; [done|].
    destruct (u !! "_id") eqn:E; [|done].
    by destruct (cast_update_keys reviewSchema (body req) u "_id" Hu ltac:(by eexists)).
  - intros H Hu. apply deleteReview_ok in H as (s & oid & d & Hc & Hp & Hid & Hg & Hf & ->).
    cbn [fst].
    unfold getReviewById, get_handler, connected, Model_findById, route_param, guard.
    rewrite Hc, Hp. simpl negb. cbv iota. rewrite (castId_string s oid Hid). cbn [bindE].
    change (mname Review) with "Review". rewrite Hg. cbn [bindE].
    cbn [mget mset Review set_reviews reviews].
    by rewrite find_remove_doc.
Qed.

(** The stored review is updated and read under the upper-case spelling of
    its id, then deleted and read again. *)
Lemma review_read_your_writes_witness :
  let req := request_for "id" "0000000000000000000000E1" {[ "rating" := num 2 ]} in
  let st := rated_store [the_review 4 "Published"] in
  status (snd (updateReview env0 req st)) = 200 /\
  status (getReviewById env0 req (fst (updateReview env0 req st))) = 200 /\
  status (snd (deleteReview env0 req st)) = 200 /\
  getReviewById env0 req (fst (deleteReview env0 req st)) = fail 404 "Review not found".
Proof.
  intros req st.
  destruct (review_read_your_writes env0 req st) as (_ & H2 & H3).
  - intros name o. reflexivity.
  - split; [by vm_compute|]. split; [apply H2; by vm_compute|].
    split; [by vm_compute|].
    apply H3; [by vm_compute|].
    intros oid. unfold st, rated_store. cbn [reviews List.filter].
    destruct (has_id oid (the_review 4 "Published")); simpl; lia.
Defined.

(** ** Stored documents conform to their schemas *)

Lemma bookSchema_well_formed e : well_formed e bookSchema.
Proof. split; [decide_closed|repeat constructor]. Qed.

Lemma authorSchema_well_formed e : well_formed e authorSchema.
Proof. split; [decide_closed|repeat constructor]. Qed.

Lemma publisherSchema_well_formed e y : well_formed e (publisherSchema y).
Proof. split; [decide_closed|repeat constructor]. Qed.

Lemma stamp_new_conforms e S d :
  NoDup (map pname (schema_paths S)) -> conforms S d -> conforms S (stamp_new e S d).
Proof.
  intros Hnd Hd. unfold stamp_new. destruct (timestamps S) eqn:Ht; [|done].
  assert (Hin : forall k, k = "createdAt" \/ k = "updatedAt" ->
                  P k TDate [] ∈ schema_paths S).
  { intros k Hk. unfold schema_paths. rewrite Ht. apply elem_of_app. right.
    destruct Hk as [-> | ->]; [by left|by right; left]. }
  apply (conforms_insert S _ (P "updatedAt" TDate [])); [done|by apply Hin; right|done|].
  apply (conforms_insert S _ (P "createdAt" TDate [])); [done|by apply Hin; left|done|done].
Qed.

Lemma Model_create_conforms e M b st st' d :
  well_formed e (mschema M e) ->
  (forall k, k = "_id" \/ k = "__v" -> declares (mschema M e) k = false) ->
  (forall x, conforms (mschema M e) x -> conforms (mschema M e) (preSave M e b x)) ->
  Model_create e M b st = inr (st', d) ->
  conforms (mschema M e) d /\
  st' = postSave M e d (mset M (mget M st ++ [d])%list st).
Proof.
  intros Hwf Hid Hpre H. apply Model_create_inr in H as (_ & _ & -> & _ & ->).
  split; [|done].
  apply conforms_insert_undeclared.
  { pose proof (Hid "__v" ltac:(by right)) as Hk. unfold declares in Hk.
    by apply bool_decide_eq_false in Hk. }
  apply conforms_insert_undeclared.
  { pose proof (Hid "_id" ltac:(by left)) as Hk. unfold declares in Hk.
    by apply bool_decide_eq_false in Hk. }
  apply Hpre, stamp_new_conforms; [apply Hwf|]. by apply new_document_conforms.
Qed.

Lemma Model_findByIdAndUpdate_conforms e M rv id upd st st' o :
  NoDup (map pname (schema_paths (mschema M e))) ->
  Forall (conforms (mschema M e)) (mget M st) ->
  Model_findByIdAndUpdate e M rv id upd st = inr (st', o) ->
  st' = st \/ exists l, Forall (conforms (mschema M e)) l /\ st' = mset M l st.
Proof.
  intros Hnd Hst H. unfold Model_findByIdAndUpdate in H.
  apply bindE_inr in H as (oid & _ & H).
  apply bindE_inr in H as (u & Hu & H).
  destruct (if rv then _ else _); [|done].
  apply bindE_inr in H as (? & _ & H).
  apply cast_update_conforms in Hu; [|done].
  destruct (List.find (has_id oid) (mget M st)) as [d|] eqn:Hf; [|injection H as <- _; by left].
  destruct (violates _ _ _); [done|]. injection H as <- _. right.
  eexists. split; [|done].
  apply replace_doc_Forall; [|done].
  apply conforms_union; [done|]. by eapply find_Forall.
Qed.

Lemma Model_findByIdAndDelete_conforms e M id st st' o :
  Forall (conforms (mschema M e)) (mget M st) ->
  Model_findByIdAndDelete e M id st = inr (st', o) ->
  st' = st \/ exists l, Forall (conforms (mschema M e)) l /\ st' = mset M l st.
Proof.
  intros Hst H. unfold Model_findByIdAndDelete in H.
  apply bindE_inr in H as (oid & _ & H). apply bindE_inr in H as (? & _ & H).
  destruct (List.find (has_id oid) (mget M st)); injection H as <- _; [|by left].
  right. eexists. split; [|done]. by apply remove_doc_Forall.
Qed.

Lemma store_conforms_books e st l :
  store_conforms e st -> Forall (conforms bookSchema) l -> store_conforms e (set_books l st).
Proof. by intros (? & ? & ? & ?) ?. Qed.

Lemma store_conforms_authors e st l :
  store_conforms e st -> Forall (conforms authorSchema) l ->
  store_conforms e (set_authors l st).
Proof. by intros (? & ? & ? & ?) ?. Qed.

Lemma store_conforms_publishers e st l :
  store_conforms e st -> Forall (conforms (publisherSchema (currentYear e))) l ->
  store_conforms e (set_publishers l st).
Proof. by intros (? & ? & ? & ?) ?. Qed.

Lemma store_conforms_reviews e st l :
  store_conforms e st -> Forall (conforms reviewSchema) l ->
  store_conforms e (set_reviews l st).
Proof. by intros (? & ? & ? & ?) ?. Qed.

Lemma calculateBookRating_conforms e id st st' :
  store_conforms e st -> calculateBookRating e id st = inr st' -> store_conforms e st'.
Proof.
  intros Hst H. unfold calculateBookRating in H.
  apply bindE_inr in H as (oid & _ & H). apply bindE_inr in H as (result & _ & H).
  destruct result as [|g gs]; [by injection H as <-|].
  apply bindE_inr in H as ([st1 o] & H & [= <-]).
  apply Model_findByIdAndUpdate_conforms in H as [->|(l & Hl & ->)]; try done.
  - by apply store_conforms_books.
  - apply (bookSchema_well_formed e).
  - apply Hst.
Qed.

Lemma calculateAuthorRating_conforms e id st st' :
  store_conforms e st -> calculateAuthorRating e id st = inr st' -> store_conforms e st'.
Proof.
  intros Hst H. unfold calculateAuthorRating in H.
  apply bindE_inr in H as (oid & _ & H). apply bindE_inr in H as (result & _ & H).
  destruct result as [|g gs]; [by injection H as <-|].
  apply bindE_inr in H as ([st1 o] & H & [= <-]).
  apply Model_findByIdAndUpdate_conforms in H as [->|(l & Hl & ->)]; try done.
  - by apply store_conforms_authors.
  - apply (authorSchema_well_formed e).
  - apply Hst.
Qed.

Lemma update_ratings_conforms msg e d st :
  store_conforms e st -> store_conforms e (update_ratings msg e d st).
Proof.
  intros Hst. unfold update_ratings, try_update_ratings.
  assert (Hlog : forall s, store_conforms e s -> store_conforms e (console_error msg s)).
  { by intros s (? & ? & ? & ?). }
  destruct (if truthy (d !! "book") then _ else _) as [x|st1] eqn:H1; [by apply Hlog|].
  assert (Hst1 : store_conforms e st1).
  { destruct (truthy (d !! "book")); [|by injection H1 as <-].
    by eapply calculateBookRating_conforms. }
  destruct (if truthy (d !! "author") then _ else _) as [x|st2] eqn:H2; [by apply Hlog|].
  destruct (truthy (d !! "author")); [|by injection H2 as <-].
  by eapply calculateAuthorRating_conforms.
Qed.

(** The three models whose nine handlers share their text. *)
Lemma shared_model_conforms e M :
  M = Book \/ M = Author \/ M = Publisher ->
  well_formed e (mschema M e) /\
  (forall k, k = "_id" \/ k = "__v" -> declares (mschema M e) k = false) /\
  (forall b x, conforms (mschema M e) x -> conforms (mschema M e) (preSave M e b x)) /\
  (forall d s, postSave M e d s = s) /\
  (forall st, store_conforms e st -> Forall (conforms (mschema M e)) (mget M st)) /\
  (forall st l, store_conforms e st -> Forall (conforms (mschema M e)) l ->
     store_conforms e (mset M l st)).
Proof.
  intros [-> | [-> | ->]].
  - split; [apply bookSchema_well_formed|]. split; [by intros k [-> | ->]|].
    split; [|split; [done|]].
    + intros b x Hx. simpl. unfold bookPreSave.
      destruct (_ || _); [|done]. destruct (is_zero _); [|done].
      apply (conforms_insert bookSchema _
               (P "averageRating" TNumber [Default (num 0); Min 0 "Rating cannot be negative";
                                           Max 5 "Rating cannot exceed 5"]));
        [apply (bookSchema_well_formed e)|apply list_elem_of_In; in_paths|done|done].
    + split; [by intros st (? & ? & ? & ?)|]. intros st l. apply store_conforms_books.
  - split; [apply authorSchema_well_formed|]. split; [by intros k [-> | ->]|].
    split; [done|]. split; [done|].
    split; [by intros st (? & ? & ? & ?)|]. intros st l. apply store_conforms_authors.
  - split; [apply publisherSchema_well_formed|]. split; [by intros k [-> | ->]|].
    split; [done|]. split; [done|].
    split; [by intros st (? & ? & ? & ?)|]. intros st l. apply store_conforms_publishers.
Qed.

Lemma handle_conforms e a b c st x :
  store_conforms e st -> store_conforms e (fst (handle a b c st x)).
Proof. by rewrite handle_fst. Qed.

Lemma create_handler_conforms e M label dup req st :
  M = Book \/ M = Author \/ M = Publisher ->
  store_conforms e st -> store_conforms e (fst (create_handler M label dup e req st)).
Proof.
  intros HM Hst. destruct (shared_model_conforms e M HM) as (Hwf & Hid & Hpre & Hpost & Hget & Hset).
  unfold create_handler. destruct (negb (connected e)); [done|].
  destruct (Model_create e M (body req) st) as [x|[st' d]] eqn:H; [by apply handle_conforms|].
  apply Model_create_conforms in H as [Hd ->]; [|done|done|apply Hpre]. cbn [fst]. rewrite Hpost.
  apply Hset; [done|]. apply Forall_app. split; [by apply Hget|by constructor].
Qed.

Lemma update_handler_conforms e M label Label dup req st :
  M = Book \/ M = Author \/ M = Publisher ->
  store_conforms e st -> store_conforms e (fst (update_handler M label Label dup e req st)).
Proof.
  intros HM Hst. destruct (shared_model_conforms e M HM) as (Hwf & Hid & Hpre & Hpost & Hget & Hset).
  unfold update_handler. destruct (negb (connected e)); [done|].
  destruct (Model_findById e M (route_param req "id") st) as [x|[d|]]; cbn [bindE];
    [by apply handle_conforms| |done].
  destruct (Model_findByIdAndUpdate e M true (route_param req "id") (body req) st)
    as [x|[st' o]] eqn:H; cbn [bindE]; [by apply handle_conforms|].
  apply Model_findByIdAndUpdate_conforms in H as [->|(l & Hl & ->)];
    [done|by apply Hset|apply Hwf|by apply Hget].
Qed.

Lemma delete_handler_conforms e M label Label req st :
  M = Book \/ M = Author \/ M = Publisher ->
  store_conforms e st -> store_conforms e (fst (delete_handler M label Label e req st)).
Proof.
  intros HM Hst. destruct (shared_model_conforms e M HM) as (Hwf & Hid & Hpre & Hpost & Hget & Hset).
  unfold delete_handler. destruct (negb (connected e)); [done|].
  destruct (Model_findById e M (route_param req "id") st) as [x|[d|]]; cbn [bindE];
    [by apply handle_conforms| |done].
  destruct (Model_findByIdAndDelete e M (route_param req "id") st)
    as [x|[st' o]] eqn:H; cbn [bindE]; [by apply handle_conforms|].
  apply Model_findByIdAndDelete_conforms in H as [->|(l & Hl & ->)];
    [done|by apply Hset|by apply Hget].
Qed.

(** The review handlers that do not create write to the reviews only. *)
Lemma review_handlers_frame e req st :
  fst (updateReview e req st) = set_reviews (reviews (fst (updateReview e req st))) st /\
  fst (deleteReview e req st) = set_reviews (reviews (fst (deleteReview e req st))) st /\
  fst (markReviewHelpful e req st)
    = set_reviews (reviews (fst (markReviewHelpful e req st))) st.
Proof.
  assert (Hst : st = set_reviews (reviews st) st) by (by destruct st).
  split; [|split].
  - unfold updateReview. destruct (negb (connected e)); [done|].
    destruct (Model_findById e Review (route_param req "id") st) as [x|[d|]]; cbn [bindE];
      [by destruct x| |done].
    destruct (Model_findByIdAndUpdate e Review true (route_param req "id") (body req) st)
      as [x|[st' o]] eqn:H; cbn [bindE]; [by destruct x|].
    cbn [fst]. unfold Model_findByIdAndUpdate in H.
    apply bindE_inr in H as (oid & _ & H). apply bindE_inr in H as (u & _ & H).
    destruct (validate_update _ _ _); [|done]. apply bindE_inr in H as (? & _ & H).
    destruct (List.find _ _); [|by injection H as <- _].
    destruct (violates _ _ _); [done|]. by injection H as <- _.
  - unfold deleteReview. destruct (negb (connected e)); [done|].
    destruct (Model_findById e Review (route_param req "id") st) as [x|[d|]]; cbn [bindE];
      [by destruct x| |done].
    destruct (Model_findByIdAndDelete e Review (route_param req "id") st)
      as [x|[st' o]] eqn:H; cbn [bindE]; [by destruct x|].
    cbn [fst]. unfold Model_findByIdAndDelete in H.
    apply bindE_inr in H as (oid & _ & H). apply bindE_inr in H as (? & _ & H).
    destruct (List.find _ _); by injection H as <- _.
  - unfold markReviewHelpful. destruct (negb (connected e)); [done|].
    destruct (Model_findByIdAndInc e Review (route_param req "id") "helpful" 1 st)
      as [x|[st' o]] eqn:H; [by destruct x|].
    assert (st' = set_reviews (reviews st') st) as Hst'.
    { unfold Model_findByIdAndInc in H.
      apply bindE_inr in H as (oid & _ & H). apply bindE_inr in H as (? & _ & H).
      destruct (List.find _ _); by injection H as <- _. }
    by destruct o.
Qed.

(** X19. Every mutation handler keeps the store well typed: when each
    stored review, book, author and publisher holds, at every path its
    schema declares, a value of the declared type (or null), the same is
    true of the store the handler leaves, the writes of the rating hooks
    included. *)
Theorem mutations_keep_store_typed (e : env) (req : request) (st : store) :
  store_conforms e st ->
  Forall (fun h => store_conforms e (fst (h e req st))) mutation_handlers.
Proof.
  intros Hst. unfold mutation_handlers.
  pose proof (review_mutations_keep_conformity e req st (proj1 Hst)) as (_ & R2 & R3 & R4).
  pose proof (review_handlers_frame e req st) as (F2 & F3 & F4).
  repeat (apply Forall_cons; split); try apply Forall_nil_2;
    try (apply create_handler_conforms; tauto);
    try (apply update_handler_conforms; tauto);
    try (apply delete_handler_conforms; tauto).
  - unfold createReview. destruct (negb (connected e)); [done|].
    destruct (Model_create e Review (body req) st) as [x|[st' d]] eqn:H; [by destruct x|].
    cbn [fst]. apply Model_create_conforms in H as [Hd ->].
    + change (postSave Review) with reviewPostSave. unfold reviewPostSave.
      apply update_ratings_conforms. apply store_conforms_reviews; [done|].
      apply Forall_app. split; [apply Hst|by constructor].
    + apply reviewSchema_well_formed.
    + by intros k [-> | ->].
    + intros x Hx. simpl. unfold reviewPreSave.
      apply (conforms_insert reviewSchema _ (P "updatedAt" TDate [DefaultNow]));
        [apply (reviewSchema_well_formed e)|apply list_elem_of_In; in_paths|done|done].
  - rewrite F2. by apply store_conforms_reviews.
  - rewrite F3. by apply store_conforms_reviews.
  - rewrite F4. by apply store_conforms_reviews.
Qed.

Lemma mutations_keep_store_typed_witness :
  Forall (fun h => store_conforms env0
                     (fst (h env0 (post_request (review_body "book" book_b1 user_d1 4))
                             library_store)))
    mutation_handlers.
Proof.
  apply (mutations_keep_store_typed env0
           (post_request (review_body "book" book_b1 user_d1 4)) library_store).
  repeat split; repeat constructor.
Defined.

(** ** The rating static of the Book model *)

(** X20. [Book.calculateAverageRating] and [Review.calculateBookRating]
    write the same when every review of the book is Published; the static of
    the Book model looks at no status. *)
Theorem book_static_agrees (e : env) (oid : string) (st : store) :
  Forall (fun d => match_eq (d !! "book") (VId oid) = true ->
                   match_eq (d !! "status") (VStr "Published") = true) (reviews st) ->
  Book_calculateAverageRating e oid st = calculateBookRating e (VId oid) st.
Proof.
  intros H. unfold Book_calculateAverageRating, calculateBookRating, aggregate_rating.
  cbn [ObjectId bindE].
  assert (Hf : published_for "book" oid st
               = List.filter (fun d => match_eq (d !! "book") (VId oid)) (reviews st)).
  { unfold published_for. apply filter_ext_in. intros d Hd.
    rewrite Forall_forall in H. specialize (H d ltac:(by apply list_elem_of_In)).
    destruct (match_eq (d !! "book") (VId oid)); [|done]. by rewrite H. }
  rewrite Hf. destruct (guard e "Review" OpAggregate); [done|]. cbn [bindE].
  by destruct (List.filter _ _).
Qed.

Lemma book_static_agrees_witness :
  Book_calculateAverageRating env0 book_b1 (rated_store [the_review 2 "Published"])
  = calculateBookRating env0 (VId book_b1) (rated_store [the_review 2 "Published"]).
Proof.
  apply (book_static_agrees env0 book_b1 (rated_store [the_review 2 "Published"])).
  repeat constructor.
Defined.

(** With a hidden review the two differ: the static counts it. *)
Example book_static_counts_hidden :
  let st := rated_store [the_review 2 "Hidden"] in
  (exists st', Book_calculateAverageRating env0 book_b1 st = inr st' /\
     stored_rating st' = Some (Some (num 2), Some (num 1))) /\
  (exists st', calculateBookRating env0 (VId book_b1) st = inr st' /\
     stored_rating st' = Some (Some (num 4), Some (num 1))).
Proof. split; eexists; split; vm_compute; reflexivity. Qed.

(** ** Authentication *)

Lemma split_no_sep sep s :
  Forall (fun c => Ascii.eqb c sep = false) (chars s) -> split sep s = [s].
Proof.
  induction s as [|c r IH]; simpl; [done|].
  intros [Hc Hr]%Forall_cons. rewrite Hc. by rewrite IH.
Qed.

Lemma split_bearer token :
  Forall (fun c => Ascii.eqb c " "%char = false) (chars token) ->
  split " " ("Bearer " +:+ token) = ["Bearer"; token].
Proof. intros H. simpl. by rewrite split_no_sep. Qed.

(** A header [Bearer <token>] is decided by the verification of the token. *)
Lemma protect_bearer (a : auth_env) (token : string) :
  token <> "" ->
  Forall (fun c => Ascii.eqb c " "%char = false) (chars token) ->
  protect a (Some ("Bearer " +:+ token))
  = match verify a token with
    | Some u => inr u
    | None => inl unauthorized
    end.
Proof.
  intros Hne Hsp. unfold protect.
  change (String.prefix "Bearer" ("Bearer " +:+ token)) with true. cbv iota.
  rewrite split_bearer by done. cbn [lookup list_lookup].
  by destruct token.
Qed.

(** X21. [protect] lets a request through only with the payload of a token
    that the library verified, the second of the pieces that the spaces of
    a header starting with [Bearer] separate; without a header, and with a
    header that starts otherwise, it answers 401. A header [Bearer <token>],
    for a token that is not empty and holds no space, is decided by the
    verification of that token alone. *)
Theorem protect_verifies (a : auth_env) :
  (forall h u, protect a h = inr u ->
     exists s t, h = Some s /\ String.prefix "Bearer" s = true /\
       split " " s !! 1%nat = Some t /\ t <> "" /\ verify a t = Some u) /\
  protect a None = inl unauthorized /\
  (forall s, String.prefix "Bearer" s = false -> protect a (Some s) = inl unauthorized) /\
  (forall token, token <> "" ->
     Forall (fun c => Ascii.eqb c " "%char = false) (chars token) ->
     protect a (Some ("Bearer " +:+ token))
     = match verify a token with
       | Some u => inr u
       | None => inl unauthorized
       end).
Proof.
  split; [|split; [reflexivity|split]].
  - intros h u. unfold protect. destruct h as [s|]; [|done].
    destruct (String.prefix "Bearer" s) eqn:Hp; [|done].
    destruct (split " " s !! 1%nat) as [t|] eqn:Ht; [|done].
    destruct t as [|c t]; [done|].
    destruct (verify a (String c t)) as [u'|] eqn:Hv; [|done].
    intros [= <-]. by exists s, (String c t).
  - intros s Hs. unfold protect. by rewrite Hs.
  - apply protect_bearer.
Qed.

Lemma token_claims_role user : token_claims user !! "role" = None.
Proof.
  unfold token_claims. rewrite !lookup_union.
  destruct (user !! "googleId"), (user !! "email"), (user !! "name"); simpl;
    by rewrite ?lookup_singleton_ne, ?lookup_empty.
Qed.

(** X22. The payload [generateToken] signs has no [role]. A token it
    issued (not empty, no space) that the library verifies to a payload
    without a [role] of its own passes [protect] behind [Bearer], and
    [authorize] then answers 403 for every list of roles. *)
Theorem issued_token_is_never_authorized (a : auth_env) (user u : doc) (roles : list string) :
  generateToken a user <> "" ->
  Forall (fun c => Ascii.eqb c " "%char = false) (chars (generateToken a user)) ->
  verify a (generateToken a user) = Some u ->
  u !! "role" = token_claims user !! "role" ->
  protect a (Some ("Bearer " +:+ generateToken a user)) = inr u /\
  authorize a roles u
  = inl (fail 403 "User role undefined is not authorized to access this route").
Proof.
  intros Hne Hsp Hv Hrole. split.
  - rewrite (protect_bearer a _ Hne Hsp). by rewrite Hv.
  - unfold authorize, template. rewrite Hrole, token_claims_role. reflexivity.
Qed.

Lemma issued_token_is_never_authorized_witness :
  protect sample_auth (Some ("Bearer " +:+ generateToken sample_auth sample_user))
    = inr {[ "id" := VStr "g-1"; "email" := VStr "a@b.cd";
             "name" := VStr "Ann"; "iat" := num 1; "exp" := num 2 ]} /\
  authorize sample_auth ["admin"]
    {[ "id" := VStr "g-1"; "email" := VStr "a@b.cd";
       "name" := VStr "Ann"; "iat" := num 1; "exp" := num 2 ]}
  = inl (fail 403 "User role undefined is not authorized to access this route").
Proof.
  apply (issued_token_is_never_authorized sample_auth sample_user _ ["admin"]).
  - discriminate.
  - repeat constructor.
  - reflexivity.
  - by vm_compute.
Defined.

(** ** The update validation against the schema *)

Lemma fold_cast_update_inl upd l x : fold_left (cast_update_path upd) l (inl x) = inl x.
Proof. induction l as [|p r IH]; simpl; [done|apply IH]. Qed.

Lemma cast_update_path_inr upd d p :
  cast_update_path upd (inr d) p
  = match upd !! pname p with
    | None => inr d
    | Some v =>
        match cast (ptyp p) v with
        | Some w => inr (<[pname p := apply_setters (prules p) w]> d)
        | None => inl CastError
        end
    end.
Proof. reflexivity. Qed.

Lemma fold_cast_update_ok upd l d :
  Forall (fun p => from_option (fun v => is_Some (cast (ptyp p) v)) True (upd !! pname p)) l ->
  exists u, fold_left (cast_update_path upd) l (inr d) = inr u.
Proof.
  revert d. induction l as [|p r IH]; intros d Hl; cbn [fold_left]; [by exists d|].
  apply Forall_cons in Hl as [Hp Hr]. rewrite cast_update_path_inr.
  destruct (upd !! pname p) as [v|]; [|by apply IH].
  simpl in Hp. destruct Hp as [w ->]. by apply IH.
Qed.

Lemma fold_cast_update_other upd l d u k :
  k ∉ map pname l -> fold_left (cast_update_path upd) l (inr d) = inr u -> u !! k = d !! k.
Proof.
  revert d. induction l as [|p r IH]; intros d Hk; cbn [fold_left]; [by intros [= <-]|].
  simpl in Hk. apply not_elem_of_cons in Hk as [Hp Hr].
  rewrite cast_update_path_inr.
  destruct (upd !! pname p) as [v|]; [|by apply IH].
  destruct (cast (ptyp p) v) as [w|]; [|by rewrite fold_cast_update_inl].
  intros H. rewrite (IH _ Hr H). by rewrite lookup_insert_ne.
Qed.

Lemma fold_cast_update_at upd l d u p :
  NoDup (map pname l) -> p ∈ l ->
  fold_left (cast_update_path upd) l (inr d) = inr u ->
  u !! pname p = match upd !! pname p with
                 | Some v => apply_setters (prules p) <$> cast (ptyp p) v
                 | None => d !! pname p
                 end.
Proof.
  revert d. induction l as [|p' r IH]; intros d Hnd Hp; [by apply elem_of_nil in Hp|].
  simpl in Hnd. apply NoDup_cons in Hnd as [Hp' Hnd]. cbn [fold_left].
  rewrite cast_update_path_inr.
  apply elem_of_cons in Hp as [->|Hp].
  - destruct (upd !! pname p') as [v|]; [|by apply fold_cast_update_other].
    destruct (cast (ptyp p') v) as [w|]; [|by rewrite fold_cast_update_inl].
    intros H. rewrite (fold_cast_update_other _ _ _ _ _ Hp' H). by rewrite lookup_insert_eq.
  - assert (Hne : pname p' <> pname p).
    { intros E. apply Hp'. rewrite E. by apply list_elem_of_fmap_2. }
    destruct (upd !! pname p') as [v|]; [|by apply IH].
    destruct (cast (ptyp p') v) as [w|]; [|by rewrite fold_cast_update_inl].
    intros H. rewrite (IH _ Hnd Hp H). by rewrite lookup_insert_ne.
Qed.

(** The update that reaches the store holds, at each declared path the
    body names, the cast value after the setters, and nothing else. *)
Lemma cast_update_at S upd u p :
  NoDup (map pname (schema_paths S)) -> p ∈ schema_paths S ->
  cast_update S upd = inr u ->
  u !! pname p = (upd !! pname p) ≫= (fun v => apply_setters (prules p) <$> cast (ptyp p) v).
Proof.
  intros Hnd Hp H. rewrite (fold_cast_update_at upd _ ∅ u p Hnd Hp H).
  by destruct (upd !! pname p).
Qed.

Lemma validate_update_nil e S u :
  Forall (fun p => is_Some (u !! pname p) -> check_path e u p = []) (schema_paths S) ->
  validate_update e S u = [].
Proof.
  unfold validate_update. induction 1 as [|p r Hp Hr IH]; simpl; [done|].
  rewrite IH, app_nil_r. destruct (u !! pname p) eqn:E; [|done]. apply Hp. by eexists.
Qed.

(** X23. A body that passes the update validation raises no error of the
    schema: [updateReview] never answers it with 400. *)
Theorem validated_update_passes_schema (e : env) (req : request) (st : store) :
  validateBody reviewValidation_update req = None ->
  status (snd (updateReview e req st)) <> 400.
Proof.
  intros Hv.
  assert (Hjoi : reviewValidation_update (body req) = []).
  { unfold validateBody in Hv. by destruct (reviewValidation_update (body req)). }
  clear Hv. unfold reviewValidation_update in Hjoi.
  apply app_eq_nil in Hjoi as [Jtitle Hjoi]. apply app_eq_nil in Hjoi as [Jcontent Hjoi].
  apply app_eq_nil in Hjoi as [Jrating Hjoi]. apply app_eq_nil in Hjoi as [Jbook Hjoi].
  apply app_eq_nil in Hjoi as [Jauthor Hjoi]. apply app_eq_nil in Hjoi as [Jstatus Junknown].
  apply on_key_nil in Jtitle, Jcontent, Jrating, Jbook, Jauthor, Jstatus.
  assert (Hno : forall k, k ∉ review_keys -> body req !! k = None).
  { intros k. by apply unknown_keys_nil. }
  pose proof (Hno "reviewer" ltac:(decide_closed)) as Breviewer.
  pose proof (Hno "helpful" ltac:(decide_closed)) as Bhelpful.
  pose proof (Hno "moderatedBy" ltac:(decide_closed)) as BmoderatedBy.
  pose proof (Hno "moderatedAt" ltac:(decide_closed)) as BmoderatedAt.
  pose proof (Hno "moderationReason" ltac:(decide_closed)) as BmoderationReason.
  pose proof (Hno "createdAt" ltac:(decide_closed)) as BcreatedAt.
  pose proof (Hno "updatedAt" ltac:(decide_closed)) as BupdatedAt.
  clear Hno Junknown.
  assert (Htitle : exists o, body req !! "title" = VStr <$> o /\
            from_option (fun t => trim t <> "" /\ (js_length (trim t) <= 200)%nat) True o).
  { destruct (body req !! "title") as [v|]; [|by exists None].
    apply joi_text_nil in Jtitle as (t & -> & H1 & H2). by exists (Some t). }
  destruct Htitle as (ot & Btitle & Hot). clear Jtitle.
  assert (Hcontent : exists o, body req !! "content" = VStr <$> o /\
            from_option (fun c => c <> "" /\ (js_length c <= 5000)%nat) True o).
  { destruct (body req !! "content") as [v|]; [|by exists None].
    apply joi_text_nil in Jcontent as (c & -> & H1 & H2). by exists (Some c). }
  destruct Hcontent as (oc & Bcontent & Hoc). clear Jcontent.
  assert (Hrating : exists o, body req !! "rating" = VNum <$> o /\
            from_option (fun q => Qltb q 1 = false /\ Qltb 5 q = false) True o).
  { destruct (body req !! "rating") as [v|]; [|by exists None].
    apply joi_rating_nil in Jrating as (q & -> & _ & H1 & H2). by exists (Some q). }
  destruct Hrating as (oq & Brating & Hoq). clear Jrating.
  assert (Hbook : exists o, body req !! "book" = VStr <$> o /\
                    from_option isObjectIdString true o = true).
  { destruct (body req !! "book") as [vb|]; [|by exists None].
    apply joi_objectid_nil in Jbook as (s & -> & Hs). by exists (Some s). }
  destruct Hbook as (ob & Bbook & Hob). clear Jbook.
  assert (Hauthor : exists o, body req !! "author" = VStr <$> o /\
                      from_option isObjectIdString true o = true).
  { destruct (body req !! "author") as [va|]; [|by exists None].
    apply joi_objectid_nil in Jauthor as (s & -> & Hs). by exists (Some s). }
  destruct Hauthor as (oa & Bauthor & Hoa). clear Jauthor.
  assert (Hstatus : exists o, body req !! "status" = VStr <$> o /\
                      from_option (fun s => s ∈ review_statuses) True o).
  { destruct (body req !! "status") as [vs|]; [|by exists None].
    apply joi_valid_nil in Jstatus as (s & -> & Hs). by exists (Some s). }
  destruct Hstatus as (os & Bstatus & Hos). clear Jstatus.
  (* the update casts *)
  destruct (fold_cast_update_ok (body req) (schema_paths reviewSchema) ∅) as [u Hu].
  { cbn [schema_paths reviewSchema paths timestamps app]. unfold P.
    repeat (apply Forall_cons; split); try apply Forall_nil_2; cbn [pname ptyp];
      rewrite ?Btitle, ?Bcontent, ?Brating, ?Bbook, ?Bauthor, ?Breviewer, ?Bhelpful,
        ?Bstatus, ?BmoderatedBy, ?BmoderatedAt, ?BmoderationReason, ?BcreatedAt, ?BupdatedAt;
      try done.
    - destruct ot; simpl; eauto.
    - destruct oc; simpl; eauto.
    - destruct oq; simpl; eauto.
    - destruct ob as [s|]; [|done]. simpl in *. rewrite (castObjectId_hex _ Hob). simpl. eauto.
    - destruct oa as [s|]; [|done]. simpl in *. rewrite (castObjectId_hex _ Hoa). simpl. eauto.
    - destruct os; simpl; eauto. }
  fold (cast_update reviewSchema (body req)) in Hu.
  pose proof (fun p => cast_update_at reviewSchema (body req) u p
                         (proj1 (reviewSchema_well_formed e))) as Hat.
  (* the validators of the update pass *)
  assert (Hval : validate_update e reviewSchema u = []).
  { apply validate_update_nil.
    cbn [schema_paths reviewSchema paths timestamps app].
    repeat (apply Forall_cons; split); try apply Forall_nil_2;
      match goal with |- is_Some (u !! pname ?p) -> _ =>
        unfold check_path;
        rewrite (Hat p ltac:(apply list_elem_of_In; in_paths) Hu)
      end; unfold P; cbn [pname ptyp prules];
      rewrite ?Btitle, ?Bcontent, ?Brating, ?Bbook, ?Bauthor, ?Breviewer, ?Bhelpful,
        ?Bstatus, ?BmoderatedBy, ?BmoderatedAt, ?BmoderationReason, ?BcreatedAt, ?BupdatedAt;
      try (by intros [? ?]).
    - destruct ot as [t|]; [|by intros [? ?]]. intros _. destruct Hot as [H1 H2].
      cbn [fmap option_fmap option_map mbind option_bind cast apply_setters fold_left set_rule
           flat_map check_rule app].
      by rewrite (is_empty_text _ H1), (proj2 (Nat.ltb_ge _ _) H2).
    - destruct oc as [c|]; [|by intros [? ?]]. intros _. destruct Hoc as [H1 H2].
      cbn [fmap option_fmap option_map mbind option_bind cast apply_setters fold_left set_rule
           flat_map check_rule app].
      by rewrite (is_empty_text _ H1), (proj2 (Nat.ltb_ge _ _) H2).
    - destruct oq as [q|]; [|by intros [? ?]]. intros _. destruct Hoq as [H1 H2].
      cbn [fmap option_fmap option_map mbind option_bind cast apply_setters fold_left set_rule
           flat_map check_rule app is_empty].
      change (inject_Z 1) with 1%Q. change (inject_Z 5) with 5%Q. by rewrite H1, H2.
    - destruct os as [s|]; [|by intros [? ?]]. intros _. simpl in Hos.
      cbn [fmap option_fmap option_map mbind option_bind cast apply_setters fold_left set_rule
           flat_map check_rule app].
      by rewrite (bool_decide_eq_true_2 _ Hos). }
  unfold updateReview. destruct (negb (connected e)); [done|].
  unfold Model_findById, Model_findByIdAndUpdate, route_param, guard.
  destruct (params req !! "id") as [oid|]; [|done].
  cbn [castId]. destruct (castObjectId oid); [|done]. cbn [from_option bindE].
  destruct (fault e (mname Review) OpFindById); [done|]. cbn [bindE].
  destruct (List.find _ _); [|done].
  change (mschema Review e) with reviewSchema.
  change (timestamps reviewSchema) with false. cbv iota.
  rewrite Hu. cbn [bindE]. rewrite Hval.
  destruct (fault e (mname Review) OpUpdate); [done|]. cbn [bindE].
  by destruct (violates _ _ _).
Qed.

Lemma validated_update_passes_schema_witness :
  let req := request_for "id" review_e1 {[ "rating" := num 2; "title" := VStr " Better " ]} in
  validateBody reviewValidation_update req = None /\
  status (snd (updateReview env0 req (rated_store [the_review 4 "Published"]))) <> 400.
Proof.
  intros req.
  assert (H : validateBody reviewValidation_update req = None) by (by vm_compute).
  split; [exact H|].
  exact (validated_update_passes_schema env0 req (rated_store [the_review 4 "Published"]) H).
Defined.

(** ** More on the listings *)

Lemma ceil_div_least a b : 0 < b -> b * (ceil_div a b - 1) < a.
Proof.
  intros Hb. unfold ceil_div.
  pose proof (Z.div_mod (- a) b ltac:(lia)). pose proof (Z.mod_pos_bound (- a) b Hb). lia.
Qed.

(** X24. The [pagination.total] of a listing is the number of pages
    needed: on a connected backend that rejects no call, for a page of at
    least 1 and a page size [L] of at least 1 (the integers of the request
    and the number of matches being at most [2 ^ 26]), it is the least [T]
    with [matches <= T * L], and [pagination.current] is the requested
    page. *)
Theorem pagination_total_pages (R : resource) (e : env) (req : request) (st : store)
    (docs : list doc) :
  readyState e = 1 ->
  reliable e ->
  filtered R e (query req) st = inr docs ->
  js_exact (Z.of_nat (length docs)) ->
  exact_query (query req) ->
  1 <= page_of (query req) ->
  1 <= limit_of (query req) ->
  exists pg,
    pagination (getAll R e req st) = Some pg /\
    Pagination.current pg = page_of (query req) /\
    Z.of_nat (length docs) <= Pagination.total pg * limit_of (query req) /\
    (Pagination.total pg - 1) * limit_of (query req) < Z.of_nat (length docs).
Proof.
  intros Hc Hr Hf _ _ Hp Hl.
  assert (Hh : healthy e (model_of R)) by (intros o; apply Hr).
  rewrite getAll_connected by done.
  rewrite (paged_list_filtered R e (query req) _ st docs) by done.
  unfold startIndex_of. rewrite window_page by nia.
  eexists. split; [reflexivity|]. cbn [Pagination.current Pagination.total].
  split; [done|].
  pose proof (ceil_div_bound (Z.of_nat (length docs)) (limit_of (query req)) ltac:(lia)).
  pose proof (ceil_div_least (Z.of_nat (length docs)) (limit_of (query req)) ltac:(lia)).
  nia.
Qed.

Lemma pagination_total_pages_witness :
  let req := get_request {[ "page" := "2"; "limit" := "2" ]} in
  exists pg,
    pagination (getAll Reviews env0 req listing_store) = Some pg /\
    Pagination.current pg = page_of (query req) /\
    Z.of_nat (length (reviews listing_store)) <= Pagination.total pg * limit_of (query req) /\
    (Pagination.total pg - 1) * limit_of (query req)
      < Z.of_nat (length (reviews listing_store)).
Proof.
  intros req.
  apply (pagination_total_pages Reviews env0 req listing_store (reviews listing_store)).
  - reflexivity.
  - intros name o. reflexivity.
  - reflexivity.
  - vm_compute. discriminate.
  - repeat split; vm_compute; discriminate.
  - vm_compute. discriminate.
  - vm_compute. discriminate.
Defined.

Lemma eq_filter_none q key name : param q key = None -> eq_filter q key name = [].
Proof. intros H. unfold eq_filter. by rewrite H. Qed.

Lemma text_filter_none q : param q "search" = None -> text_filter q = [].
Proof. intros H. unfold text_filter. by rewrite H. Qed.

(** X25. No list handler filters on its own: when the request gives none
    of the filter parameters of the resource, the filtered result set is
    the whole collection; for reviews that includes the ones that are not
    Published. *)
Theorem unfiltered_listing_is_whole (R : resource) (e : env) (q : gmap string string)
    (st : store) :
  Forall (fun k => param q k = None) (filter_keys R) ->
  filtered R e q st = inr (mget (model_of R) st).
Proof.
  intros H. unfold filtered.
  assert (Hq : query_of R e q = inr []).
  { destruct R; simpl in H; repeat (apply Forall_cons in H as [? H]); simpl;
      unfold books_query, authors_query, publishers_query, reviews_query;
      rewrite ?text_filter_none, ?eq_filter_none by done;
      repeat match goal with Hk : param q ?k = None |- _ => rewrite Hk; clear Hk end;
      reflexivity. }
  rewrite Hq. cbn [bindE cast_query]. unfold select.
  f_equal. apply forallb_filter_id. by apply forallb_forall.
Qed.

Lemma unfiltered_listing_is_whole_witness :
  filtered Reviews env0 {[ "page" := "1" ]} listing_store = inr (reviews listing_store).
Proof.
  apply (unfiltered_listing_is_whole Reviews env0 {[ "page" := "1" ]} listing_store).
  repeat constructor.
Defined.

(** X26. A pattern that is no regular expression: on a connected backend
    [GET /api/reviews?search=s] and [GET /api/authors?nationality=s] answer
    [Server Error] when [new RegExp(s, 'i')] throws. *)
Theorem malformed_pattern_is_server_error (e : env) (req : request) (st : store) (s : string) :
  readyState e = 1 ->
  regexp_valid e s = false ->
  (param (query req) "search" = Some s -> getAllReviews e req st = server_error) /\
  (param (query req) "nationality" = Some s -> getAllAuthors e req st = server_error).
Proof.
  intros Hc Hs. split; intros Hp.
  - unfold getAllReviews, connected, paged_list, reviews_query. rewrite Hc, Hp, Hs. reflexivity.
  - unfold getAllAuthors, connected, paged_list, authors_query. rewrite Hc, Hp, Hs. reflexivity.
Qed.

(** ** One book per ISBN *)



Lemma malformed_pattern_is_server_error_witness :
  getAllReviews env_strict (get_request {[ "search" := "(" ]}) listing_store = server_error /\
  getAllAuthors env_strict (get_request {[ "nationality" := "(" ]}) listing_store
    = server_error.
Proof.
  split.
  - apply (malformed_pattern_is_server_error env_strict
             (get_request {[ "search" := "(" ]}) listing_store "("); reflexivity.
  - apply (malformed_pattern_is_server_error env_strict
             (get_request {[ "nationality" := "(" ]}) listing_store "("); reflexivity.
Defined.

(** ** Malformed ids *)

(** X28. A string that is neither 24 hexadecimal digits nor 12 code units
    long names no id and is answered 404 by every handler that takes it,
    on a connected backend: the readers and writers of [:id], which leave
    the store as it was, and the listings by [:bookId] and [:authorId]. *)
Theorem malformed_id_is_not_found (e : env) (req : request) (st : store) (k s : string) :
  readyState e = 1 ->
  params req !! k = Some s ->
  isObjectIdString s = false ->
  js_length s <> 12%nat ->
  (k = "id" ->
   Forall (fun h => status (h e req st) = 404) by_id_readers /\
   Forall (fun h => status (snd (h e req st)) = 404 /\ fst (h e req st) = st) by_id_writers) /\
  (k = "bookId" -> status (getReviewsByBook e req st) = 404) /\
  (k = "authorId" ->
   status (getReviewsByAuthor e req st) = 404 /\ status (getBooksByAuthor e req st) = 404).
Proof.
  intros Hc Hp H24 H12.
  pose proof (castObjectId_malformed s H24 H12) as Hs. clear H24 H12.
  assert (Hcon : negb (connected e) = false) by (unfold connected; by rewrite Hc).
  split; [|split]; intros ->.
  - split.
    + unfold by_id_readers. repeat (apply Forall_cons; split); try apply Forall_nil_2;
        unfold getReviewById, getBookById, getAuthorById, get_handler, getPublisherBooks,
          Model_findById, Model_find, route_param;
        rewrite Hcon, Hp; simpl; unfold cast_operand; simpl; by rewrite Hs.
    + unfold by_id_writers. repeat (apply Forall_cons; split); try apply Forall_nil_2;
        unfold updateBook, deleteBook, updateAuthor, deleteAuthor, updatePublisher,
          deletePublisher, update_handler, delete_handler, updateReview, deleteReview,
          markReviewHelpful, Model_findById, Model_findByIdAndInc, route_param;
        rewrite Hcon, Hp; cbn [castId]; rewrite Hs; by cbn.
  - unfold getReviewsByBook, Model_find, route_param. rewrite Hcon, Hp. simpl.
    unfold cast_operand. simpl. by rewrite Hs.
  - split.
    + unfold getReviewsByAuthor, Model_find, route_param. rewrite Hcon, Hp. simpl.
      unfold cast_operand. simpl. by rewrite Hs.
    + unfold getBooksByAuthor, Model_find, route_param. rewrite Hcon, Hp. simpl.
      unfold cast_operand. simpl. by rewrite Hs.
Qed.

Lemma malformed_id_is_not_found_witness :
  let req := request_for "id" "42" ∅ in
  Forall (fun h => status (h env0 req fresh_store) = 404) by_id_readers /\
  Forall (fun h => status (snd (h env0 req fresh_store)) = 404 /\
                   fst (h env0 req fresh_store) = fresh_store) by_id_writers.
Proof.
  intros req.
  apply (malformed_id_is_not_found env0 req fresh_store "id" "42");
    first [reflexivity | (vm_compute; discriminate)].
Defined.

(** Twelve letters name an id: the listing by [:bookId] answers 200 with
    the reviews of that id, here none. *)
Example twelve_characters_name_an_id :
  getReviewsByBook env0 (request_for "bookId" "abcdefghijkl" ∅) listing_store
  = ok_list [] None None.
Proof. vm_compute. reflexivity. Qed.

(** ** What an update of a book, an author or a publisher changes *)


(** ** Reviews of a book that is not stored *)

(** Without a stored book of that id the recomputation writes nothing. *)
Lemma calculateBookRating_missing e oid st st' :
  List.find (has_id oid) (books st) = None ->
  calculateBookRating e (VId oid) st = inr st' -> st' = st.
Proof.
  intros Hf H. unfold calculateBookRating in H. cbn [ObjectId bindE] in H.
  apply bindE_inr in H as (result & _ & H).
  destruct result as [|g gs]; [by injection H as <-|].
  apply bindE_inr in H as ([st1 o] & H & [= <-]).
  unfold Model_findByIdAndUpdate in H. cbn [castId bindE] in H.
  apply bindE_inr in H as (u & _ & H). cbv iota in H.
  apply bindE_inr in H as (? & _ & H).
  change (mget Book st) with (books st) in H. rewrite Hf in H. by injection H as <- _.
Qed.

(** X30. The target of a review is not looked up: when [createReview]
    answers 201 for a body whose [book] names an id that no stored book
    carries, the review is stored with that reference and the books are as
    they were. *)
Theorem review_of_missing_book_is_stored (e : env) (req : request) (st : store)
    (b oid : string) :
  status (snd (createReview e req st)) = 201 ->
  body req !! "book" = Some (VStr b) ->
  castObjectId b = Some oid ->
  List.find (has_id oid) (books st) = None ->
  books (fst (createReview e req st)) = books st /\
  exists d, d !! "book" = Some (VId oid) /\
    In d (reviews (fst (createReview e req st))).
Proof.
  intros H Hb Hid Hf. apply createReview_created in H as (st' & d & Hc & ->).
  cbn [fst snd data].
  pose proof (new_document_at e reviewSchema (body req) (P "book" TObjectId [])
                (proj1 (reviewSchema_well_formed e))
                ltac:(apply list_elem_of_In; in_paths)) as Hat.
  apply Model_create_inr in Hc as (_ & _ & Hd & _ & ->).
  change (mschema Review e) with reviewSchema in *.
  assert (Hdb : d !! "book" = Some (VId oid)).
  { rewrite Hd. do 2 rewrite lookup_insert_ne by done.
    change (preSave Review) with reviewPreSave. unfold reviewPreSave, stamp_new.
    change (timestamps reviewSchema) with false. cbv iota.
    rewrite lookup_insert_ne by done.
    change (fst (new_document e reviewSchema (body req)) !! "book"
            = built_value e (body req) (P "book" TObjectId [])) in Hat.
    rewrite Hat. unfold built_value. cbn [pname ptyp prules P]. rewrite Hb.
    by rewrite (cast_id_string b oid Hid). }
  split.
  - change (postSave Review) with reviewPostSave.
    unfold reviewPostSave, update_ratings, try_update_ratings.
    rewrite Hdb. cbn [truthy]. unfold field. rewrite Hdb. cbn [default from_option id].
    set (st1 := mset Review _ st).
    assert (Hf1 : List.find (has_id oid) (books st1) = None) by exact Hf.
    destruct (calculateBookRating e (VId oid) st1) as [x|st2] eqn:H1; [done|].
    apply (calculateBookRating_missing e oid st1 st2 Hf1) in H1. subst st2.
    destruct (if truthy (d !! "author") then _ else _) as [x|st3] eqn:H2; [done|].
    destruct (truthy (d !! "author")); [|by injection H2 as <-].
    by apply calculateAuthorRating_frame in H2 as (_ & -> & _).
  - exists d. split; [done|].
    change (postSave Review) with reviewPostSave. unfold reviewPostSave.
    rewrite update_ratings_reviews. cbn [mset Review set_reviews reviews mget].
    apply in_or_app. right. by left.
Qed.

(** The body names, in upper case, an id that no book of the store carries. *)
Lemma review_of_missing_book_is_stored_witness :
  let req := post_request (review_body "book" "0000000000000000000000E3" user_d1 4) in
  books (fst (createReview env0 req fresh_store)) = books fresh_store /\
  exists d, d !! "book" = Some (VId review_e3) /\
    In d (reviews (fst (createReview env0 req fresh_store))).
Proof.
  intros req.
  apply (review_of_missing_book_is_stored env0 req fresh_store
           "0000000000000000000000E3" review_e3);
    by vm_compute.
Defined.
